(** * A shallow embedding of the train stopping simulator (tasc/server.py)

    The development follows the engine of [StoppingSim]: the vehicle and
    scenario records, the command queue, the per-tick dynamics, the
    stopping-distance rollout, the TASC controller and the run evaluator.

    Modelling conventions.
    - Python [float] values are exact rationals ([Q]); rounding error of the
      binary64 arithmetic is not modelled.  [float('inf')] is the extra
      constructor [Inf] of [xQ].
    - Python [int] values are [Z].
    - A Python exception that escapes a method ([ZeroDivisionError],
      [IndexError]) is the [None] of the [exc] monad.
    - The float power [x ** y] is not rational; it is the section variable
      [rpow].  The literal [1e-6] of the source is written [0.000001].
    - Debug printing and the write-only diagnostic dictionary [st.issues] are
      left out: the engine never reads them. *)

From Stdlib Require Import ZArith QArith Qround Qabs Lqa Lia List Bool String.
Import ListNotations.
Open Scope Q_scope.

(** ** Python numerics *)

Definition Qltb (x y : Q) : bool := negb (Qle_bool y x).
Definition Qleb (x y : Q) : bool := Qle_bool x y.

Declare Scope py_scope.
Delimit Scope py_scope with py.
Notation "x <? y" := (Qltb x y) (at level 70, no associativity) : py_scope.
Notation "x <=? y" := (Qleb x y) (at level 70, no associativity) : py_scope.
Notation "x >? y" := (Qltb y x) (at level 70, no associativity) : py_scope.
Notation "x >=? y" := (Qleb y x) (at level 70, no associativity) : py_scope.
Notation "x =? y" := (Qeq_bool x y) (at level 70, no associativity) : py_scope.
Open Scope py_scope.

(** [max(a, b)] keeps its first argument unless the second is strictly
    greater; [min(a, b)] keeps the first unless the second is strictly
    smaller. *)
Definition py_max (a b : Q) : Q := if a <? b then b else a.
Definition py_min (a b : Q) : Q := if b <? a then b else a.

(** [int(x)] truncates toward zero. *)
Definition py_int (x : Q) : Z := Z.quot (Qnum x) (Zpos (Qden x)).

(** [round(x)] and [round(x, 0)]: nearest integer, ties to the even one. *)
Definition py_round (x : Q) : Z :=
  let f := Qfloor x in
  let r := x - inject_Z f in
  if r <? 0.5 then f
  else if 0.5 <? r then (f + 1)%Z
  else if Z.even f then f else (f + 1)%Z.

(** Distances that may be [float('inf')]. *)
Inductive xQ : Type :=
| Fin (q : Q)
| Inf.

Definition xQ_gt (x : xQ) (q : Q) : bool :=
  match x with Fin a => a >? q | Inf => true end.
Definition xQ_le (x : xQ) (q : Q) : bool :=
  match x with Fin a => a <=? q | Inf => false end.

(** ** Escaping exceptions *)

Definition exc (A : Type) : Type := option A.
Definition ret {A} (a : A) : exc A := Some a.
Definition raise {A} : exc A := None.
Definition bind {A B} (m : exc A) (k : A -> exc B) : exc B :=
  match m with Some a => k a | None => None end.
Notation "x <- m ;; k" := (bind m (fun x => k))
  (at level 61, m at next level, right associativity) : py_scope.

(** [a / b] raises [ZeroDivisionError] when [b] is zero. *)
Definition py_div (a b : Q) : exc Q :=
  if b =? 0 then raise else ret (a / b).

(** [lst[i]] for a non-negative index. *)
Definition py_index {A} (l : list A) (i : Z) : exc A :=
  if (i <? 0)%Z then raise else nth_error l (Z.to_nat i).

(** [len(lst)]. *)
Definition len {A} (l : list A) : Z := Z.of_nat (List.length l).

(** [lst[-1]] of a non-empty list. *)
Definition py_last {A} (l : list A) : option A := List.last (map Some l) None.

(** ** Data classes *)

Module Vehicle.
Record Vehicle : Type := mk {
  a_max : Q;
  j_max : Q;
  notches : Z;
  notch_accels : list Q;
  tau_cmd : Q;
  tau_brk : Q;
  mass_kg : Q;
  maxSpeed_kmh : Q;
  forward_notches : Z;
  forward_notch_accels : list Q;
  T_max_kN : Q;
  P_max_kW : Q;
  (** whether [type] is the high-speed class tag *)
  type_high_speed : bool;
  A0 : Q;
  B1 : Q;
  C2 : Q
}.
End Vehicle.

Module Scenario.
Record Scenario : Type := mk {
  L : Q;
  v0 : Q;
  grade_percent : Q;
  mu : Q;
  dt : Q
}.
End Scenario.

Module State.
Record State : Type := mk {
  t : Q;
  s : Q;
  v : Q;
  a : Q;
  lever_notch : Z;
  internal_notch : Z;
  atc_overspeed : bool;
  finished : bool;
  stop_error_m : option Q;
  residual_speed_kmh : option Q;
  (** the integer that [round(norm, 0)] returns, as a float, at the finish *)
  score : option Z;
  running : bool;
  paused : bool;
  time_budget_s : Q;
  time_remaining_s : Q;
  timer_enabled : bool;
  time_remaining_int : Z;
  time_overrun_s : Q;
  time_overrun_int : Z;
  time_overrun_started : bool
}.

(** [State(t=.., s=.., v=.., a=.., lever_notch=.., finished=..)] with the
    dataclass defaults for every other field. *)
Definition make (t0 s0 v0 a0 : Q) (lever : Z) (fin : bool) : State :=
  mk t0 s0 v0 a0 lever 0%Z false fin None None None false false
     0 0 false 0%Z 0 0%Z false.
End State.

(** ** Simulator object

    The attributes of [StoppingSim] are grouped by the component that owns
    them; every field keeps the name of the attribute. *)

Inductive wsp_mode : Type := wsp_normal | wsp_release | wsp_reapply.
Inductive tasc_phase_t : Type := phase_build | phase_relax.

(** One entry of [_cmd_queue]: the dictionary [{"t", "name", "val"}]. *)
Record Cmd : Type := mkCmd {
  cmd_t : Q;
  cmd_name : string;
  cmd_val : Z
}.

(** [_tasc_pred_cache]. *)
Record PredCache : Type := mkPredCache {
  pc_t : Q;
  pc_v : Q;
  pc_notch : Z;
  pc_s_cur : xQ;
  pc_s_up : xQ;
  pc_s_dn : xQ
}.

Definition pred_cache_init : PredCache :=
  mkPredCache (-1.0) (-1.0) (-1)%Z Inf Inf Inf.

(** One point [{"v", "L", "t"}] of [timer_calib]. *)
Record CalibPoint : Type := mkCalib {
  cp_v : Q;
  cp_L : Q;
  cp_t : Q
}.

Module Timer.
Record Timer : Type := mk {
  timer_use_table : bool;
  timer_table : list (Z * Q);
  timer_v_target_kmh : Q;
  timer_buffer_s : Q;
  timer_calib : list CalibPoint;
  timer_idw_power : Q;
  timer_norm_v : Q;
  timer_norm_L : Q;
  timer_blend_threshold : Q;
  timer_min_s : Q;
  timer_max_s : Q;
  timer_min_effective_v_kmh : Q;
  timer_max_effective_v_kmh : Q;
  timer_far_outlier_scale : Q
}.
End Timer.

Module Tasc.
Record Tasc : Type := mk {
  tasc_takeover_rem_m : Q;
  tasc_takeover_hyst_m : Q;
  tasc_enabled : bool;
  tasc_enabled_initially : bool;
  manual_override : bool;
  tasc_deadband_m : Q;
  tasc_hold_min_s : Q;
  _tasc_last_change_t : Q;
  _tasc_phase : tasc_phase_t;
  _tasc_peak_notch : Z;
  tasc_armed : bool;
  tasc_active : bool;
  tasc_relax_margin_m : Q;
  tasc_relax_hold_s : Q;
  _tasc_pred_cache : PredCache;
  _tasc_pred_interval : Q;
  _tasc_last_pred_t : Q;
  _tasc_speed_eps : Q;
  _need_b5_last_t : Q;
  _need_b5_last : bool;
  _need_b5_interval : Q
}.
End Tasc.

Module Brake.
Record Brake : Type := mk {
  rr_factor : Q;
  brk_accel : Q;
  brk_elec : Q;
  brk_air : Q;
  wsp_state : wsp_mode;
  wsp_timer : Q;
  _a_cmd_filt : Q
}.
End Brake.

Module RunEval.
Record RunEval : Type := mk {
  first_brake_done : bool;
  first_brake_notch : option Z;
  first_brake_start_t : option Q;
  seen_zero_notch : bool;
  notch_history : list Z;
  time_history : list Q;
  eb_used : bool;
  run_over : bool;
  prev_a : Q;
  jerk_history : list Q
}.
End RunEval.

Module StoppingSim.
Record StoppingSim : Type := mk {
  _planned_v0 : Q;
  veh : Vehicle.Vehicle;
  scn : Scenario.Scenario;
  state : State.State;
  running : bool;
  random_mode : bool;
  final_notch_on_finish : Z;
  _cmd_queue : list Cmd;
  ev : RunEval.RunEval;
  tasc : Tasc.Tasc;
  brk : Brake.Brake;
  timer : Timer.Timer
}.
End StoppingSim.

(** [Sim] abbreviates [StoppingSim], for the type and for its fields. *)
Module Sim := StoppingSim.

Abbreviation Vehicle := Vehicle.Vehicle.
Abbreviation Scenario := Scenario.Scenario.
Abbreviation State := State.State.
Abbreviation Sim := StoppingSim.StoppingSim.

(** ** Attribute assignment *)

Definition set_state (sim : Sim) (x : State) : Sim :=
  Sim.mk (Sim._planned_v0 sim) (Sim.veh sim) (Sim.scn sim) x
    (Sim.running sim) (Sim.random_mode sim) (Sim.final_notch_on_finish sim)
    (Sim._cmd_queue sim) (Sim.ev sim) (Sim.tasc sim) (Sim.brk sim)
    (Sim.timer sim).

Definition set_cmd_queue (sim : Sim) (x : list Cmd) : Sim :=
  Sim.mk (Sim._planned_v0 sim) (Sim.veh sim) (Sim.scn sim) (Sim.state sim)
    (Sim.running sim) (Sim.random_mode sim) (Sim.final_notch_on_finish sim)
    x (Sim.ev sim) (Sim.tasc sim) (Sim.brk sim) (Sim.timer sim).

Definition set_ev (sim : Sim) (x : RunEval.RunEval) : Sim :=
  Sim.mk (Sim._planned_v0 sim) (Sim.veh sim) (Sim.scn sim) (Sim.state sim)
    (Sim.running sim) (Sim.random_mode sim) (Sim.final_notch_on_finish sim)
    (Sim._cmd_queue sim) x (Sim.tasc sim) (Sim.brk sim) (Sim.timer sim).

Definition set_tasc (sim : Sim) (x : Tasc.Tasc) : Sim :=
  Sim.mk (Sim._planned_v0 sim) (Sim.veh sim) (Sim.scn sim) (Sim.state sim)
    (Sim.running sim) (Sim.random_mode sim) (Sim.final_notch_on_finish sim)
    (Sim._cmd_queue sim) (Sim.ev sim) x (Sim.brk sim) (Sim.timer sim).

Definition set_brk (sim : Sim) (x : Brake.Brake) : Sim :=
  Sim.mk (Sim._planned_v0 sim) (Sim.veh sim) (Sim.scn sim) (Sim.state sim)
    (Sim.running sim) (Sim.random_mode sim) (Sim.final_notch_on_finish sim)
    (Sim._cmd_queue sim) (Sim.ev sim) (Sim.tasc sim) x (Sim.timer sim).

Definition set_lever_notch (st : State) (x : Z) : State :=
  State.mk (State.t st) (State.s st) (State.v st) (State.a st) x
    (State.internal_notch st) (State.atc_overspeed st) (State.finished st)
    (State.stop_error_m st) (State.residual_speed_kmh st) (State.score st)
    (State.running st) (State.paused st) (State.time_budget_s st)
    (State.time_remaining_s st) (State.timer_enabled st)
    (State.time_remaining_int st) (State.time_overrun_s st)
    (State.time_overrun_int st) (State.time_overrun_started st).

Definition set_internal_notch (st : State) (x : Z) : State :=
  State.mk (State.t st) (State.s st) (State.v st) (State.a st)
    (State.lever_notch st) x (State.atc_overspeed st) (State.finished st)
    (State.stop_error_m st) (State.residual_speed_kmh st) (State.score st)
    (State.running st) (State.paused st) (State.time_budget_s st)
    (State.time_remaining_s st) (State.timer_enabled st)
    (State.time_remaining_int st) (State.time_overrun_s st)
    (State.time_overrun_int st) (State.time_overrun_started st).

Definition set_atc_overspeed (st : State) (x : bool) : State :=
  State.mk (State.t st) (State.s st) (State.v st) (State.a st)
    (State.lever_notch st) (State.internal_notch st) x (State.finished st)
    (State.stop_error_m st) (State.residual_speed_kmh st) (State.score st)
    (State.running st) (State.paused st) (State.time_budget_s st)
    (State.time_remaining_s st) (State.timer_enabled st)
    (State.time_remaining_int st) (State.time_overrun_s st)
    (State.time_overrun_int st) (State.time_overrun_started st).

(** [st.a = a'; st.v = v'] *)
Definition set_a_v (st : State) (a' v' : Q) : State :=
  State.mk (State.t st) (State.s st) v' a'
    (State.lever_notch st) (State.internal_notch st)
    (State.atc_overspeed st) (State.finished st)
    (State.stop_error_m st) (State.residual_speed_kmh st) (State.score st)
    (State.running st) (State.paused st) (State.time_budget_s st)
    (State.time_remaining_s st) (State.timer_enabled st)
    (State.time_remaining_int st) (State.time_overrun_s st)
    (State.time_overrun_int st) (State.time_overrun_started st).

(** The three writes of the countdown block of [step], and the overrun
    fields when the overrun starts. *)
Definition set_countdown (st : State) (rem : Q) (rem_int : Z)
    (over : Q) (over_int : Z) (started : bool) : State :=
  State.mk (State.t st) (State.s st) (State.v st) (State.a st)
    (State.lever_notch st) (State.internal_notch st)
    (State.atc_overspeed st) (State.finished st)
    (State.stop_error_m st) (State.residual_speed_kmh st) (State.score st)
    (State.running st) (State.paused st) (State.time_budget_s st)
    rem (State.timer_enabled st) rem_int over over_int started.

(** [st.a], [st.v], [st.s], [st.t] after the integration of [step]. *)
Definition set_kinematics (st : State) (t' s' v' a' : Q) : State :=
  State.mk t' s' v' a'
    (State.lever_notch st) (State.internal_notch st)
    (State.atc_overspeed st) (State.finished st)
    (State.stop_error_m st) (State.residual_speed_kmh st) (State.score st)
    (State.running st) (State.paused st) (State.time_budget_s st)
    (State.time_remaining_s st) (State.timer_enabled st)
    (State.time_remaining_int st) (State.time_overrun_s st)
    (State.time_overrun_int st) (State.time_overrun_started st).

(** [st.finished = True] with the stop error, residual speed and score. *)
Definition set_finish (st : State) (err resid : Q) (sc : Z) : State :=
  State.mk (State.t st) (State.s st) (State.v st) (State.a st)
    (State.lever_notch st) (State.internal_notch st)
    (State.atc_overspeed st) true (Some err) (Some resid) (Some sc)
    (State.running st) (State.paused st) (State.time_budget_s st)
    (State.time_remaining_s st) (State.timer_enabled st)
    (State.time_remaining_int st) (State.time_overrun_s st)
    (State.time_overrun_int st) (State.time_overrun_started st).

Definition set_a_cmd_filt (b : Brake.Brake) (x : Q) : Brake.Brake :=
  Brake.mk (Brake.rr_factor b) (Brake.brk_accel b) (Brake.brk_elec b)
    (Brake.brk_air b) (Brake.wsp_state b) (Brake.wsp_timer b) x.

(** [brk_elec], [brk_air] and [brk_accel] written together. *)
Definition set_brake_split (b : Brake.Brake) (e a' acc : Q) : Brake.Brake :=
  Brake.mk (Brake.rr_factor b) acc e a' (Brake.wsp_state b)
    (Brake.wsp_timer b) (Brake._a_cmd_filt b).

Definition set_wsp (b : Brake.Brake) (m : wsp_mode) (tm : Q) : Brake.Brake :=
  Brake.mk (Brake.rr_factor b) (Brake.brk_accel b) (Brake.brk_elec b)
    (Brake.brk_air b) m tm (Brake._a_cmd_filt b).

Definition set_eb_used (e : RunEval.RunEval) (x : bool) : RunEval.RunEval :=
  RunEval.mk (RunEval.first_brake_done e) (RunEval.first_brake_notch e)
    (RunEval.first_brake_start_t e) (RunEval.seen_zero_notch e)
    (RunEval.notch_history e) (RunEval.time_history e) x (RunEval.run_over e)
    (RunEval.prev_a e) (RunEval.jerk_history e).

Definition set_histories (e : RunEval.RunEval) (nh : list Z) (th : list Q)
    : RunEval.RunEval :=
  RunEval.mk (RunEval.first_brake_done e) (RunEval.first_brake_notch e)
    (RunEval.first_brake_start_t e) (RunEval.seen_zero_notch e)
    nh th (RunEval.eb_used e) (RunEval.run_over e)
    (RunEval.prev_a e) (RunEval.jerk_history e).

Definition set_seen_zero_notch (e : RunEval.RunEval) (x : bool) : RunEval.RunEval :=
  RunEval.mk (RunEval.first_brake_done e) (RunEval.first_brake_notch e)
    (RunEval.first_brake_start_t e) x
    (RunEval.notch_history e) (RunEval.time_history e) (RunEval.eb_used e)
    (RunEval.run_over e) (RunEval.prev_a e) (RunEval.jerk_history e).

Definition set_first_brake (e : RunEval.RunEval) (done : bool) (n : option Z)
    (t0 : option Q) : RunEval.RunEval :=
  RunEval.mk done n t0 (RunEval.seen_zero_notch e)
    (RunEval.notch_history e) (RunEval.time_history e) (RunEval.eb_used e)
    (RunEval.run_over e) (RunEval.prev_a e) (RunEval.jerk_history e).

Definition set_jerk (e : RunEval.RunEval) (pa : Q) (jh : list Q) : RunEval.RunEval :=
  RunEval.mk (RunEval.first_brake_done e) (RunEval.first_brake_notch e)
    (RunEval.first_brake_start_t e) (RunEval.seen_zero_notch e)
    (RunEval.notch_history e) (RunEval.time_history e) (RunEval.eb_used e)
    (RunEval.run_over e) pa jh.

(** ** Module constants *)

Definition test_notch : Z := 3.
Definition test_margin : Q := 0.

(** * The vehicle data *)

(** ** Davis coefficients

    The attributes of the [Vehicle] data class that only the Davis
    recomputation and the session handlers use are kept in a companion
    record; a vehicle object is the pair of the two records.  The
    attributes [name] and [C_rr] are never read. *)

Module Davis.
Record Davis : Type := mk {
  mass_t : Q;
  rho_air : Q;
  Cd : Q;
  A : Q;
  davis_k0 : Q;
  davis_m_ref : Q;
  davis_B1_ref : Q
}.
End Davis.

Definition vehicle_obj : Type := Vehicle * Davis.Davis.

Definition set_davis_coeffs (veh : Vehicle) (A0' B1' C2' : Q) : Vehicle :=
  Vehicle.mk (Vehicle.a_max veh) (Vehicle.j_max veh) (Vehicle.notches veh)
    (Vehicle.notch_accels veh) (Vehicle.tau_cmd veh) (Vehicle.tau_brk veh)
    (Vehicle.mass_kg veh) (Vehicle.maxSpeed_kmh veh)
    (Vehicle.forward_notches veh) (Vehicle.forward_notch_accels veh)
    (Vehicle.T_max_kN veh) (Vehicle.P_max_kW veh)
    (Vehicle.type_high_speed veh) A0' B1' C2'.

Definition set_mass_kg (veh : Vehicle) (m : Q) : Vehicle :=
  Vehicle.mk (Vehicle.a_max veh) (Vehicle.j_max veh) (Vehicle.notches veh)
    (Vehicle.notch_accels veh) (Vehicle.tau_cmd veh) (Vehicle.tau_brk veh)
    m (Vehicle.maxSpeed_kmh veh)
    (Vehicle.forward_notches veh) (Vehicle.forward_notch_accels veh)
    (Vehicle.T_max_kN veh) (Vehicle.P_max_kW veh)
    (Vehicle.type_high_speed veh) (Vehicle.A0 veh) (Vehicle.B1 veh)
    (Vehicle.C2 veh).

(** [notch_accels] and [notches] written together. *)
Definition set_notch_table (veh : Vehicle) (accels : list Q) (n : Z)
    : Vehicle :=
  Vehicle.mk (Vehicle.a_max veh) (Vehicle.j_max veh) n accels
    (Vehicle.tau_cmd veh) (Vehicle.tau_brk veh)
    (Vehicle.mass_kg veh) (Vehicle.maxSpeed_kmh veh)
    (Vehicle.forward_notches veh) (Vehicle.forward_notch_accels veh)
    (Vehicle.T_max_kN veh) (Vehicle.P_max_kW veh)
    (Vehicle.type_high_speed veh) (Vehicle.A0 veh) (Vehicle.B1 veh)
    (Vehicle.C2 veh).

Definition set_Cd_A (dv : Davis.Davis) (cd area : Q) : Davis.Davis :=
  Davis.mk (Davis.mass_t dv) (Davis.rho_air dv) cd area
    (Davis.davis_k0 dv) (Davis.davis_m_ref dv) (Davis.davis_B1_ref dv).

Definition set_mass_t (dv : Davis.Davis) (m : Q) : Davis.Davis :=
  Davis.mk m (Davis.rho_air dv) (Davis.Cd dv) (Davis.A dv)
    (Davis.davis_k0 dv) (Davis.davis_m_ref dv) (Davis.davis_B1_ref dv).

(** [Vehicle.calibrate_C2_from_power]. *)
Definition calibrate_C2_from_power (vo : vehicle_obj) (v_target_kmh eta : Q)
    : exc vehicle_obj :=
  let veh := fst vo in
  if Vehicle.P_max_kW veh <=? 0 then ret vo
  else
    let v := v_target_kmh / 3.6 in
    let P := Vehicle.P_max_kW veh * 1000.0 * eta in
    let F_req := P / py_max 0.1 v in
    q <- py_div (F_req - Vehicle.A0 veh - Vehicle.B1 veh * v) (v * v) ;;
    ret (set_davis_coeffs veh (Vehicle.A0 veh) (Vehicle.B1 veh)
           (py_max 0.0 q),
         snd vo).

(** [Vehicle.recompute_davis]; [mass_kg] is the optional argument. *)
Definition recompute_davis (vo : vehicle_obj) (mass_kg : option Q)
    : vehicle_obj :=
  let veh := fst vo in
  let dv := snd vo in
  let m := match mass_kg with Some m => m | None => Vehicle.mass_kg veh end in
  let '(current_Cd, current_A, tech_efficiency) :=
    if Vehicle.type_high_speed veh then (0.22, 10.5, 0.85)
    else (1.1, 9.5, 1.0) in
  let dv := set_Cd_A dv current_Cd current_A in
  let C2 := 0.5 * Davis.rho_air dv * Davis.Cd dv * Davis.A dv in
  let A0 := (Davis.davis_k0 dv * tech_efficiency) * m * 9.81 in
  let b1_factor := if Vehicle.type_high_speed veh then 0.8 else 1.0 in
  let B1 :=
    (Davis.davis_B1_ref dv * b1_factor)
    * (m / py_max 1.0 (Davis.davis_m_ref dv)) in
  if Vehicle.type_high_speed veh then
    let m_ref := 383000 in
    let k := m / m_ref in
    (set_davis_coeffs veh (2700.0 * k) (118.8 * k) 6.6096, dv)
  else (set_davis_coeffs veh A0 B1 C2, dv).

(** [Vehicle.update_mass]. *)
Definition update_mass (vo : vehicle_obj) (length : Z) : vehicle_obj :=
  let mass_kg := Davis.mass_t (snd vo) * 1000 * inject_Z length in
  recompute_davis (set_mass_kg (fst vo) mass_kg, snd vo) (Some mass_kg).

(** ** Loading from JSON

    A JSON object is a record of optional members: [None] is a key that is
    missing, so that [dict.get] falls back on its default.  The members
    that are present hold values of the expected type.  [type_high_speed]
    tells whether the member [type] is the high-speed class tag. *)

Definition get {A : Type} (member : option A) (default : A) : A :=
  match member with Some x => x | None => default end.

Module VehicleJson.
Record VehicleJson : Type := mk {
  mass_t : option Q;
  a_max : option Q;
  j_max : option Q;
  notches : option Z;
  notch_accels : option (list Q);
  maxSpeed_kmh : option Q;
  forward_notches : option Z;
  forward_notch_accels : option (list Q);
  tau_cmd_ms : option Q;
  tau_brk_ms : option Q;
  T_max_kN : option Q;
  P_max_kW : option Q;
  type_high_speed : option bool;
  davis_A0 : option Q;
  davis_B1 : option Q;
  davis_C2 : option Q;
  rho_air : option Q;
  Cd : option Q;
  A : option Q;
  davis_k0 : option Q;
  davis_m_ref : option Q;
  davis_B1_ref : option Q
}.
End VehicleJson.

Module ScenarioJson.
Record ScenarioJson : Type := mk {
  L : option Q;
  v0 : option Q;
  grade_percent : option Q;
  mu : option Q;
  dt : option Q
}.
End ScenarioJson.

(** [Vehicle.from_json] on the parsed file. *)
Definition Vehicle_from_json (data : VehicleJson.VehicleJson) : vehicle_obj :=
  let mass_t := get (VehicleJson.mass_t data) 200.0 in
  let veh :=
    Vehicle.mk
      (get (VehicleJson.a_max data) 1.0)
      (get (VehicleJson.j_max data) 0.8)
      (get (VehicleJson.notches data) 8%Z)
      (get (VehicleJson.notch_accels data)
         [-1.5; -1.10; -0.95; -0.80; -0.65; -0.50; -0.35; -0.20; 0.0])
      (get (VehicleJson.tau_cmd_ms data) 150 / 1000.0)
      (get (VehicleJson.tau_brk_ms data) 250 / 1000.0)
      (mass_t * 1000)
      (get (VehicleJson.maxSpeed_kmh data) 140.0)
      (get (VehicleJson.forward_notches data) 5%Z)
      (get (VehicleJson.forward_notch_accels data)
         [0.250; 0.287; 0.378; 0.515; 0.694])
      (get (VehicleJson.T_max_kN data) 0.0)
      (get (VehicleJson.P_max_kW data) 0.0)
      (get (VehicleJson.type_high_speed data) false)
      (get (VehicleJson.davis_A0 data) 1200.0)
      (get (VehicleJson.davis_B1 data) 30.0)
      (get (VehicleJson.davis_C2 data) 8.0) in
  let dv :=
    Davis.mk mass_t
      (get (VehicleJson.rho_air data) 1.225)
      (get (VehicleJson.Cd data) 1.8)
      (get (VehicleJson.A data) 10.0)
      (get (VehicleJson.davis_k0 data) 0.0017)
      (get (VehicleJson.davis_m_ref data) 200000.0)
      (get (VehicleJson.davis_B1_ref data) 40.0) in
  recompute_davis (veh, dv) (Some (Vehicle.mass_kg veh)).

(** [Scenario.from_json] on the parsed file. *)
Definition Scenario_from_json (data : ScenarioJson.ScenarioJson) : Scenario :=
  let v0_kmph := get (ScenarioJson.v0 data) 25.0 in
  let v0_ms := v0_kmph / 3.6 in
  Scenario.mk
    (get (ScenarioJson.L data) 500.0)
    v0_ms
    (get (ScenarioJson.grade_percent data) 0.0)
    (get (ScenarioJson.mu data) 1.0)
    (get (ScenarioJson.dt data) 0.005).

(** ** The session of one connection *)

Definition set_veh (sim : Sim) (x : Vehicle) : Sim :=
  Sim.mk (Sim._planned_v0 sim) x (Sim.scn sim) (Sim.state sim)
    (Sim.running sim) (Sim.random_mode sim) (Sim.final_notch_on_finish sim)
    (Sim._cmd_queue sim) (Sim.ev sim) (Sim.tasc sim) (Sim.brk sim)
    (Sim.timer sim).

Definition set_scn (sim : Sim) (x : Scenario) : Sim :=
  Sim.mk (Sim._planned_v0 sim) (Sim.veh sim) x (Sim.state sim)
    (Sim.running sim) (Sim.random_mode sim) (Sim.final_notch_on_finish sim)
    (Sim._cmd_queue sim) (Sim.ev sim) (Sim.tasc sim) (Sim.brk sim)
    (Sim.timer sim).

Definition set_running (sim : Sim) (x : bool) : Sim :=
  Sim.mk (Sim._planned_v0 sim) (Sim.veh sim) (Sim.scn sim) (Sim.state sim)
    x (Sim.random_mode sim) (Sim.final_notch_on_finish sim)
    (Sim._cmd_queue sim) (Sim.ev sim) (Sim.tasc sim) (Sim.brk sim)
    (Sim.timer sim).

Definition set_random_mode (sim : Sim) (x : bool) : Sim :=
  Sim.mk (Sim._planned_v0 sim) (Sim.veh sim) (Sim.scn sim) (Sim.state sim)
    (Sim.running sim) x (Sim.final_notch_on_finish sim)
    (Sim._cmd_queue sim) (Sim.ev sim) (Sim.tasc sim) (Sim.brk sim)
    (Sim.timer sim).

Definition set_timer (sim : Sim) (x : Timer.Timer) : Sim :=
  Sim.mk (Sim._planned_v0 sim) (Sim.veh sim) (Sim.scn sim) (Sim.state sim)
    (Sim.running sim) (Sim.random_mode sim) (Sim.final_notch_on_finish sim)
    (Sim._cmd_queue sim) (Sim.ev sim) (Sim.tasc sim) (Sim.brk sim) x.

Definition set_timer_enabled (st : State) (x : bool) : State :=
  State.mk (State.t st) (State.s st) (State.v st) (State.a st)
    (State.lever_notch st) (State.internal_notch st)
    (State.atc_overspeed st) (State.finished st)
    (State.stop_error_m st) (State.residual_speed_kmh st) (State.score st)
    (State.running st) (State.paused st) (State.time_budget_s st)
    (State.time_remaining_s st) x
    (State.time_remaining_int st) (State.time_overrun_s st)
    (State.time_overrun_int st) (State.time_overrun_started st).

Definition set_run_over (e : RunEval.RunEval) (x : bool) : RunEval.RunEval :=
  RunEval.mk (RunEval.first_brake_done e) (RunEval.first_brake_notch e)
    (RunEval.first_brake_start_t e) (RunEval.seen_zero_notch e)
    (RunEval.notch_history e) (RunEval.time_history e) (RunEval.eb_used e)
    x (RunEval.prev_a e) (RunEval.jerk_history e).

(** The block that every handler of the train make-up repeats: the length
    is applied, the total mass is overwritten with the loaded mass, and the
    Davis coefficients are recomputed and calibrated. *)
Definition apply_load (vo : vehicle_obj) (cur_length : Z) (cur_load_rate : Q)
    : exc vehicle_obj :=
  let vo := update_mass vo cur_length in
  let base_1c_t := Davis.mass_t (snd vo) in
  let pax_1c_t := 10.5 in
  let total_tons :=
    inject_Z cur_length * (base_1c_t + pax_1c_t * cur_load_rate) in
  let vo := (set_mass_kg (fst vo) (total_tons * 1000.0), snd vo) in
  let vo := recompute_davis vo (Some (Vehicle.mass_kg (fst vo))) in
  calibrate_C2_from_power vo 300.0 0.85.

(** The vehicle of a session: the file as loaded, the notch table reversed
    and the number of notches set to its length. *)
Definition session_vehicle (data : VehicleJson.VehicleJson) : vehicle_obj :=
  let vo := Vehicle_from_json data in
  let accels := rev (Vehicle.notch_accels (fst vo)) in
  (set_notch_table (fst vo) accels (len accels), snd vo).

Section Engine.

(** [rpow x y] stands for the float power [x ** y]. *)
Variable rpow : Q -> Q -> Q.

(** ** Force helpers *)

Definition _tasc_relax_margin_for_notch (sim : Sim) (notch : Z) : Q :=
  if (notch >=? 6)%Z then 3.0
  else if (notch >=? 5)%Z then 2.0
  else if (notch >=? 4)%Z then 1.0
  else Tasc.tasc_relax_margin_m (Sim.tasc sim).

Definition _effective_brake_accel (sim : Sim) (notch : Z) (v : Q) : Q :=
  let veh := Sim.veh sim in
  if (notch <=? 0)%Z then 0.0
  else if (notch >=? len (Vehicle.notch_accels veh))%Z then 0.0
  else
    let base := nth (Z.to_nat notch) (Vehicle.notch_accels veh) 0 in
    let k_srv := 0.85 in
    let k_eb := 0.98 in
    let is_eb := (notch =? Vehicle.notches veh - 1)%Z in
    let k_adh := if is_eb then k_eb else k_srv in
    let a_cap := - k_adh * Scenario.mu (Sim.scn sim) * 9.81 in
    let a_eff := py_max base a_cap in
    if a_eff <=? a_cap + 0.000001 then
      let scale := if v >? 8.0 then 0.90 else 0.85 in
      a_cap * scale
    else a_eff.

Definition _grade_accel (sim : Sim) : Q :=
  - 9.81 * (Scenario.grade_percent (Sim.scn sim) / 100.0).

Definition _davis_accel (sim : Sim) (v : Q) : exc Q :=
  if v <? 0.01 then ret 0.0
  else
    let A0 := Vehicle.A0 (Sim.veh sim) * Brake.rr_factor (Sim.brk sim) in
    let B1 := Vehicle.B1 (Sim.veh sim) * Brake.rr_factor (Sim.brk sim) in
    let C2 := Vehicle.C2 (Sim.veh sim) in
    let v_sq := v * v in
    let F := A0 + B1 * v + C2 * v_sq in
    py_div (- F) (Vehicle.mass_kg (Sim.veh sim)).

Definition _blend_w_regen (v : Q) : Q :=
  let v_kmh := v * 3.6 in
  if v_kmh >=? 20.0 then 1.0
  else if v_kmh <=? 8.0 then 0.0
  else (v_kmh - 8.0) / 12.0.

(** The two first-order lags of the electric and the air brake; shared by
    [_update_brake_dyn_split] and the rollout of [_estimate_stop_distance],
    which repeats the same statements on its local copies. *)
Definition brake_split_lag (brk_elec brk_air a_total_cmd v : Q)
    (is_eb : bool) (dt : Q) : Q * Q :=
  let w := _blend_w_regen v in
  let a_cmd_e := a_total_cmd * w in
  let a_cmd_a := a_total_cmd * (1.0 - w) in
  let '(tau_e_apply, tau_e_rel) :=
    if v * 3.6 >=? 15 then (0.18, 0.40) else (0.30, 0.50) in
  let '(tau_a_apply, tau_a_rel) :=
    if v * 3.6 <? 10 then (0.45, 0.75) else (0.30, 0.60) in
  let '(tau_a_apply, tau_a_rel) :=
    if is_eb then (0.15, 0.45) else (tau_a_apply, tau_a_rel) in
  let e_stronger := a_cmd_e <? brk_elec in
  let a_stronger := a_cmd_a <? brk_air in
  let tau_e := if e_stronger then tau_e_apply else tau_e_rel in
  let tau_a := if a_stronger then tau_a_apply else tau_a_rel in
  (brk_elec + (a_cmd_e - brk_elec) * (dt / py_max 0.000001 tau_e),
   brk_air + (a_cmd_a - brk_air) * (dt / py_max 0.000001 tau_a)).

Definition _update_brake_dyn_split (sim : Sim) (a_total_cmd v : Q)
    (is_eb : bool) (dt : Q) : Sim :=
  let b := Sim.brk sim in
  let '(e, a) :=
    brake_split_lag (Brake.brk_elec b) (Brake.brk_air b) a_total_cmd v
      is_eb dt in
  set_brk sim (set_brake_split b e a (e + a)).

(** Returns the simulator with the new WSP state and the limited demand. *)
Definition _wsp_update (sim : Sim) (v a_demand dt : Q) : Sim * Q :=
  let b := Sim.brk sim in
  let a_cap := - 0.85 * Scenario.mu (Sim.scn sim) * 9.81 in
  let margin := 0.05 in
  match Brake.wsp_state b with
  | wsp_normal =>
      if (a_demand <? a_cap - margin) && (v * 3.6 >? 3.0) then
        (set_brk sim (set_wsp b wsp_release 0.12),
         py_min a_demand (0.5 * a_cap))
      else (sim, a_demand)
  | wsp_release =>
      let tm := Brake.wsp_timer b - dt in
      let b' :=
        if tm <=? 0.0 then set_wsp b wsp_reapply 0.15
        else set_wsp b wsp_release tm in
      (set_brk sim b', py_min a_demand (0.3 * a_cap))
  | wsp_reapply =>
      let tm := Brake.wsp_timer b - dt in
      let b' :=
        if tm <=? 0.0 then set_wsp b wsp_normal tm
        else set_wsp b wsp_reapply tm in
      (set_brk sim b', py_min a_demand (0.8 * a_cap))
  end.

(** ** Controls *)

Definition _clamp_notch (sim : Sim) (n : Z) : Z :=
  let min_notch := (- len (Vehicle.forward_notch_accels (Sim.veh sim)))%Z in
  let max_notch := (len (Vehicle.notch_accels (Sim.veh sim)) - 2)%Z in
  Z.max min_notch (Z.min max_notch n).

(** ** Traction *)

Definition torque_table : list Q :=
  [0.40; 0.48; 0.56; 0.64; 0.70; 0.76; 0.82; 0.88; 0.92; 0.95; 0.98; 0.99;
   1.00].

Definition power_table : list Q :=
  [0.10; 0.16; 0.24; 0.34; 0.45; 0.58; 0.70; 0.80; 0.88; 0.94; 0.98; 0.995;
   1.00].

Definition limit_ratios_high_speed : list Q :=
  [0.05; 0.18; 0.30; 0.40; 0.50; 0.58; 0.66; 0.74; 0.80; 0.86; 0.92; 0.97;
   1.00].

Definition flat_ends : list Q := [5.0; 20.0; 32.0; 33.0; 33.0].
Definition exp_starts : list Q := [30.0; 33.0; 54.0; 54.0; 54.0].
Definition min_factors : list Q := [0.0003; 0.04; 0.07; 0.14; 0.27].

(** [range(n)] as integers. *)
Definition py_range (n : Z) : list Z := map Z.of_nat (seq 0 (Z.to_nat n)).

(** Reads of the constant tables; every index used below is in range. *)
Definition tbl (l : list Q) (i : Z) : Q := nth (Z.to_nat i) l 0.

Definition compute_power_accel (sim : Sim) (lever_notch : Z) (v : Q) : exc Q :=
  let veh := Sim.veh sim in
  if (lever_notch >=? 0)%Z then ret 0.0
  else if (Vehicle.T_max_kN veh >? 0.0) && (Vehicle.P_max_kW veh >? 0.0) then
    let n_forward :=
      if (len (Vehicle.forward_notch_accels veh) =? 0)%Z
      then Vehicle.forward_notches veh
      else len (Vehicle.forward_notch_accels veh) in
    let n_forward := Z.max 1 n_forward in
    let idx := (Z.abs lever_notch - 1)%Z in
    let idx := Z.max 0 (Z.min idx (n_forward - 1)) in
    let '(ratio_T, ratio_P) :=
      if Vehicle.maxSpeed_kmh veh >=? 200 then
        let safe_idx := Z.min idx (len torque_table - 1) in
        (tbl torque_table safe_idx, tbl power_table safe_idx)
      else
        (inject_Z (idx + 1) / inject_Z n_forward,
         inject_Z (idx + 1) / inject_Z n_forward) in
    let P_max_W := Vehicle.P_max_kW veh * 1000.0 in
    let T_max_N := Vehicle.T_max_kN veh * 1000.0 in
    let mass_kg := Vehicle.mass_kg veh in
    let v_safe := py_max 0.1 v in
    let F_torque_limit := T_max_N * ratio_T in
    let F_power_limit := (P_max_W * ratio_P) / v_safe in
    let F_physics := py_min F_torque_limit F_power_limit in
    let v_kmh := v * 3.6 in
    let limit_ratios :=
      if Vehicle.type_high_speed veh then limit_ratios_high_speed
      else map (fun i => inject_Z (i + 1) / inject_Z n_forward * 1.2)
               (py_range n_forward) in
    let safe_limit_idx := Z.min idx (len limit_ratios - 1) in
    let notch_max_speed :=
      Vehicle.maxSpeed_kmh veh * tbl limit_ratios safe_limit_idx in
    let '(cutoff_range, min_residual) :=
      if (idx <=? 1)%Z then (15.0, 0.05) else (40.0, 0.4) in
    let F_physics :=
      if v_kmh >? notch_max_speed then F_physics * min_residual
      else if v_kmh >? notch_max_speed - cutoff_range then
        let progress :=
          (v_kmh - (notch_max_speed - cutoff_range)) / cutoff_range in
        let factor := 1.0 - progress * (1.0 - min_residual) in
        F_physics * factor
      else F_physics in
    a_pwr <- py_div F_physics mass_kg ;;
    let a_pwr :=
      if (v_kmh <? 5.0) && (idx >=? 0)%Z
      then py_max a_pwr (0.15 * (ratio_T / 0.30)) else a_pwr in
    let a_pwr :=
      if Vehicle.a_max veh >? 0 then py_min a_pwr (Vehicle.a_max veh)
      else a_pwr in
    ret a_pwr
  else
    let n_notches := len (Vehicle.forward_notch_accels veh) in
    let idx := Z.max 0 (Z.min (- lever_notch - 1) (n_notches - 1)) in
    base_accel <- py_index (Vehicle.forward_notch_accels veh) idx ;;
    let v_kmh := v * 3.6 in
    let max_v_kmh := py_max 1.0 (Vehicle.maxSpeed_kmh veh) in
    let s_k := tbl flat_ends (Z.min idx (len flat_ends - 1)) in
    let e_k := tbl exp_starts (Z.min idx (len exp_starts - 1)) in
    let min_factor := tbl min_factors (Z.min idx (len min_factors - 1)) in
    let mid_factor := 0.35 + 0.1 * inject_Z idx in
    let mid_factor := py_min 1.0 (py_max min_factor mid_factor) in
    let factor :=
      if v_kmh <=? s_k then 1.0
      else if v_kmh <=? e_k then
        let t := (v_kmh - s_k) / py_max 0.000001 (e_k - s_k) in
        let factor := 1.0 - (1.0 - mid_factor) * t in
        py_max factor min_factor
      else
        let t := (v_kmh - e_k) / py_max 0.000001 (max_v_kmh - e_k) in
        let factor :=
          (mid_factor - min_factor) * rpow 2.71828 (- 3 * t) + min_factor in
        py_max factor min_factor in
    let factor := py_min 1.0 factor in
    ret (base_accel * factor).

(** ** Command queue *)

Definition _apply_command (sim : Sim) (cmd : Cmd) : Sim :=
  let st := Sim.state sim in
  let name := cmd_name cmd in
  let val := cmd_val cmd in
  let sim :=
    if String.eqb name "stepNotch" then
      set_state sim
        (set_lever_notch st (_clamp_notch sim (State.lever_notch st + val)))
    else if String.eqb name "release" then
      set_state sim (set_lever_notch st 0)
    else if String.eqb name "emergencyBrake" then
      let sim :=
        set_state sim
          (set_lever_notch st (Vehicle.notches (Sim.veh sim) - 1)) in
      if State.v st >? 0 then set_ev sim (set_eb_used (Sim.ev sim) true)
      else sim
    else if String.eqb name "setNotch" then
      set_state sim (set_lever_notch st (_clamp_notch sim val))
    else if String.eqb name "setInternalNotch" then
      set_state sim (set_internal_notch st (_clamp_notch sim val))
    else sim in
  let st := Sim.state sim in
  (* try: ... except Exception: pass *)
  if (State.lever_notch st <? 0)%Z && (State.v st =? 0.0) then
    match compute_power_accel sim (State.lever_notch st) 0.0 with
    | Some pwr =>
        if pwr >? 0 then set_brk sim (set_a_cmd_filt (Sim.brk sim) pwr)
        else sim
    | None => sim
    end
  else sim.

(** [queue_command].  The [except] arm of the emergency-brake branch is not
    modelled: the guarded statements only call total functions of this
    embedding. *)
Definition queue_command (sim : Sim) (name : string) (val : Z) : Sim :=
  if String.eqb name "atcOverspeed" then
    set_state sim (set_atc_overspeed (Sim.state sim) (negb (val =? 0)%Z))
  else if String.eqb name "emergencyBrake" then
    let cmd := mkCmd (State.t (Sim.state sim)) name val in
    let sim := _apply_command sim cmd in
    let st := Sim.state sim in
    if (State.lever_notch st =? Vehicle.notches (Sim.veh sim) - 1)%Z then
      let a_cmd_total :=
        _effective_brake_accel sim (State.lever_notch st) (State.v st) in
      let w := _blend_w_regen (State.v st) in
      let e := a_cmd_total * w in
      let a := a_cmd_total * (1.0 - w) in
      let b := set_brake_split (Sim.brk sim) e a (e + a) in
      set_brk sim (set_a_cmd_filt b a_cmd_total)
    else sim
  else
    let speed_m_s := State.v (Sim.state sim) in
    let immediate_apply :=
      (String.eqb name "stepNotch" || String.eqb name "applyNotch"
       || String.eqb name "setNotch" || String.eqb name "release")
      && (speed_m_s <=? 0.05) in
    if immediate_apply then
      _apply_command sim (mkCmd (State.t (Sim.state sim)) name val)
    else
      set_cmd_queue sim
        (Sim._cmd_queue sim ++
         [mkCmd (State.t (Sim.state sim) + Vehicle.tau_cmd (Sim.veh sim))
                name val]).

(** ** Countdown budget *)

(** One pass of the loop of [_idw_predict_time]; the accumulator is
    [(num, den, min_d)] with [None] for the initial [float("inf")]. *)
Definition idw_point (tm : Timer.Timer) (v_kmh L_m : Q)
    (acc : Q * Q * option Q) (p : CalibPoint) : exc (Q * Q * option Q) :=
  let '(num, den, min_d) := acc in
  let eps := 0.000001 in
  let dv := (v_kmh - cp_v p) / py_max eps (Timer.timer_norm_v tm) in
  let dL := (L_m - cp_L p) / py_max eps (Timer.timer_norm_L tm) in
  let d := rpow (dv * dv + dL * dL) 0.5 in
  let min_d := match min_d with None => d | Some m => py_min m d end in
  w <- py_div 1.0 (rpow (d + eps) (Timer.timer_idw_power tm)) ;;
  ret (num + w * cp_t p, den + w, Some min_d).

Fixpoint idw_loop (tm : Timer.Timer) (v_kmh L_m : Q)
    (acc : Q * Q * option Q) (ps : list CalibPoint)
    : exc (Q * Q * option Q) :=
  match ps with
  | [] => ret acc
  | p :: ps' =>
      acc' <- idw_point tm v_kmh L_m acc p ;;
      idw_loop tm v_kmh L_m acc' ps'
  end.

(** [None] is the pair [(nan, inf)] returned for an empty table; otherwise
    [(t_idw, min_d)]. *)
Definition _idw_predict_time (sim : Sim) (v_kmh L_m : Q)
    : exc (option (Q * Q)) :=
  let tm := Sim.timer sim in
  match Timer.timer_calib tm with
  | [] => ret None
  | _ =>
      r <- idw_loop tm v_kmh L_m (0.0, 0.0, None) (Timer.timer_calib tm) ;;
      let '(num, den, min_d) := r in
      let t_idw := num / py_max 0.000001 den in
      ret (Some (t_idw, match min_d with Some m => m | None => 0 end))
  end.

Definition _formula_time (sim : Sim) (v0_kmh L_m : Q) : exc Q :=
  let tm := Sim.timer sim in
  let v_target := Timer.timer_v_target_kmh tm in
  q <- py_div L_m (Timer.timer_norm_L tm) ;;
  let r := py_min 1.0 (py_max 0.0 q) in
  let v0_clip :=
    py_min (Timer.timer_max_effective_v_kmh tm)
           (py_max (Timer.timer_min_effective_v_kmh tm) v0_kmh) in
  let v_eff := (1.0 - 0.35 * r) * v0_clip + (0.35 * r) * v_target in
  let v_ms := py_max 0.1 (v_eff / 3.6) in
  ret (L_m / v_ms + Timer.timer_buffer_s tm).

Definition _compute_time_budget_auto (sim : Sim) (v_kmh L_m : Q) : exc Q :=
  let tm := Sim.timer sim in
  idw <- _idw_predict_time sim v_kmh L_m ;;
  t_formula <- _formula_time sim v_kmh L_m ;;
  t <- match idw with
       | None => ret t_formula
       | Some (t_idw, min_d) =>
           if min_d <? Timer.timer_blend_threshold tm then ret t_idw
           else
             q <- py_div min_d (Timer.timer_blend_threshold tm * 2.0) ;;
             let alpha := py_max 0.0 (1.0 - q) in
             let formula_weight :=
               py_max (1.0 - alpha) (Timer.timer_far_outlier_scale tm) in
             ret ((1.0 - formula_weight) * t_idw + formula_weight * t_formula)
       end ;;
  ret (py_max (Timer.timer_min_s tm) (py_min (Timer.timer_max_s tm) t)).

(** [min(table.keys(), key=lambda k: abs(int(k) - v0_round))]: the first
    entry, in insertion order, with the least distance. *)
Fixpoint nearest_key (v0_round : Z) (best : Z * Q) (l : list (Z * Q))
    : Z * Q :=
  match l with
  | [] => best
  | kv :: l' =>
      if (Z.abs (fst kv - v0_round) <? Z.abs (fst best - v0_round))%Z
      then nearest_key v0_round kv l'
      else nearest_key v0_round best l'
  end.

Definition _compute_time_budget (sim : Sim) : exc Q :=
  let tm := Sim.timer sim in
  if negb (State.timer_enabled (Sim.state sim)) then ret 0.0
  else
    let v0_kmh := Scenario.v0 (Sim.scn sim) * 3.6 in
    let L_m := Scenario.L (Sim.scn sim) in
    match Timer.timer_calib tm with
    | _ :: _ => _compute_time_budget_auto sim v0_kmh L_m
    | [] =>
        match Timer.timer_use_table tm, Timer.timer_table tm with
        | true, kv :: l =>
            let v0_round := py_round v0_kmh in
            ret (snd (nearest_key v0_round kv l))
        | _, _ => _formula_time sim v0_kmh L_m
        end
    end.

(** ** Lifecycle *)

Definition reset (sim : Sim) : exc Sim :=
  let prev_timer_enabled := State.timer_enabled (Sim.state sim) in
  let prev_running := Sim.running sim in
  let prev_lever_notch :=
    if Sim.random_mode sim then
      let prev_lever_notch := Sim.final_notch_on_finish sim in
      let max_normal_notch := (Vehicle.notches (Sim.veh sim) - 2)%Z in
      if (prev_lever_notch >=? Vehicle.notches (Sim.veh sim) - 1)%Z
      then max_normal_notch else prev_lever_notch
    else 0%Z in
  let _planned_v0 := Scenario.v0 (Sim.scn sim) in
  let st := State.make 0.0 0.0 0.0 0.0 prev_lever_notch false in
  let running := if negb (Sim.random_mode sim) then false else prev_running in
  let ev :=
    RunEval.mk false None None false [] [] false
      (RunEval.run_over (Sim.ev sim)) 0.0 [] in
  let tc := Sim.tasc sim in
  let '(phase, peak) :=
    if negb (Tasc.tasc_active tc) then (phase_build, 1%Z)
    else (Tasc._tasc_phase tc, Tasc._tasc_peak_notch tc) in
  let tc :=
    Tasc.mk (Tasc.tasc_takeover_rem_m tc) (Tasc.tasc_takeover_hyst_m tc)
      (Tasc.tasc_enabled tc) (Tasc.tasc_enabled_initially tc)
      (Tasc.manual_override tc) (Tasc.tasc_deadband_m tc)
      (Tasc.tasc_hold_min_s tc) 0.0 phase peak
      (Tasc.tasc_enabled tc) false
      (Tasc.tasc_relax_margin_m tc) (Tasc.tasc_relax_hold_s tc)
      pred_cache_init (Tasc._tasc_pred_interval tc) (-1.0)
      (Tasc._tasc_speed_eps tc) (-1.0) false (Tasc._need_b5_interval tc) in
  let bk := Brake.mk 1.0 0.0 0.0 0.0 wsp_normal 0.0 0.0 in
  let st :=
    State.mk (State.t st) (State.s st) (State.v st) (State.a st)
      (State.lever_notch st) (State.internal_notch st)
      (State.atc_overspeed st) (State.finished st) (State.stop_error_m st)
      (State.residual_speed_kmh st) (State.score st) (State.running st)
      (State.paused st) (State.time_budget_s st) (State.time_remaining_s st)
      prev_timer_enabled (State.time_remaining_int st)
      (State.time_overrun_s st) (State.time_overrun_int st)
      (State.time_overrun_started st) in
  let sim :=
    Sim.mk _planned_v0 (Sim.veh sim) (Sim.scn sim) st running
      (Sim.random_mode sim) (Sim.final_notch_on_finish sim) [] ev tc bk
      (Sim.timer sim) in
  budget <- (if State.timer_enabled st then _compute_time_budget sim
             else ret 0.0) ;;
  let st :=
    State.mk (State.t st) (State.s st) (State.v st) (State.a st)
      (State.lever_notch st) (State.internal_notch st)
      (State.atc_overspeed st) (State.finished st) (State.stop_error_m st)
      (State.residual_speed_kmh st) (State.score st) (State.running st)
      (State.paused st) budget budget (State.timer_enabled st)
      (Qfloor budget) 0.0 0%Z false in
  ret (set_state sim st).

Definition start (sim : Sim) : exc Sim :=
  sim <- reset sim ;;
  let st := Sim.state sim in
  let st := set_a_v st (State.a st) (Sim._planned_v0 sim) in
  ret (Sim.mk (Sim._planned_v0 sim) (Sim.veh sim) (Sim.scn sim) st true
         (Sim.random_mode sim) (Sim.final_notch_on_finish sim)
         (Sim._cmd_queue sim) (Sim.ev sim) (Sim.tasc sim) (Sim.brk sim)
         (Sim.timer sim)).

(** ** Stopping distance *)

(** The local variables of the rollout of [_estimate_stop_distance]. *)
Record Rollout : Type := mkRollout {
  r_v : Q;
  r_a : Q;
  r_s : Q;
  r_brk_elec : Q;
  r_brk_air : Q;
  r_wsp_state : wsp_mode;
  r_wsp_timer : Q;
  r_a_cmd_filt : Q
}.

(** One pass of the [for] loop; the boolean tells whether the pass ends in
    [break]. *)
Definition rollout_pass (sim : Sim) (notch : Z) (rem_now limit : Q)
    (r : Rollout) : exc (Rollout * bool) :=
  let dt := 0.03 in
  let v := r_v r in
  let a := r_a r in
  let s := r_s r in
  pwr_accel <- (if (notch <? 0)%Z then compute_power_accel sim notch v
                else ret 0.0) ;;
  let is_eb := (notch =? Vehicle.notches (Sim.veh sim) - 1)%Z in
  let a_cmd_total := _effective_brake_accel sim notch v in
  let '(brk_elec, brk_air) :=
    brake_split_lag (r_brk_elec r) (r_brk_air r) a_cmd_total v is_eb dt in
  let a_brake := brk_elec + brk_air in
  let a_cap := - 0.85 * Scenario.mu (Sim.scn sim) * 9.81 in
  let margin := 0.05 in
  let '(wsp_state, wsp_timer, a_brake) :=
    match r_wsp_state r with
    | wsp_normal =>
        if (a_brake <? a_cap - margin) && (v * 3.6 >? 3.0) then
          (wsp_release, 0.12, py_min a_brake (0.5 * a_cap))
        else (wsp_normal, r_wsp_timer r, a_brake)
    | wsp_release =>
        let tm := r_wsp_timer r - dt in
        let '(m, tm) :=
          if tm <=? 0.0 then (wsp_reapply, 0.15) else (wsp_release, tm) in
        (m, tm, py_min a_brake (0.3 * a_cap))
    | wsp_reapply =>
        let tm := r_wsp_timer r - dt in
        let '(m, tm) :=
          if tm <=? 0.0 then (wsp_normal, 0.0) else (wsp_reapply, tm) in
        (m, tm, py_min a_brake (0.8 * a_cap))
    end in
  let a_grade := _grade_accel sim in
  a_davis <- _davis_accel sim v ;;
  let a_target := pwr_accel + a_brake + a_grade + a_davis in
  a_target <- (if (notch =? 0)%Z then
                 d <- _davis_accel sim v ;; ret (_grade_accel sim + d)
               else ret a_target) ;;
  let rem_pred := py_max 0.0 (rem_now - s) in
  let a_target :=
    if (notch =? 1)%Z || (rem_pred <=? 0.0) then py_min a_target 0.0
    else a_target in
  let a_cmd_filt :=
    r_a_cmd_filt r
    + (a_target - r_a_cmd_filt r)
      * (dt / py_max 0.000001 (Vehicle.tau_brk (Sim.veh sim))) in
  let max_da := Vehicle.j_max (Sim.veh sim) * dt in
  let v_kmh := v * 3.6 in
  let max_da :=
    if v_kmh <=? 5.0 then max_da * (0.25 + 0.75 * (v_kmh / 5.0))
    else max_da in
  let da := a_cmd_filt - a in
  let da :=
    if da >? max_da then max_da
    else if da <? - max_da then - max_da
    else da in
  let a := a + da in
  let v := py_max 0.0 (v + a * dt) in
  let s := s + (v * dt + 0.5 * a * dt * dt) in
  let r' := mkRollout v a s brk_elec brk_air wsp_state wsp_timer a_cmd_filt in
  ret (r', (v <=? 0.01) || (s >? limit)).

(** [for _ in range(n)] with its [break]. *)
Fixpoint rollout_loop (sim : Sim) (notch : Z) (rem_now limit : Q)
    (n : nat) (r : Rollout) : exc Rollout :=
  match n with
  | O => ret r
  | S n' =>
      p <- rollout_pass sim notch rem_now limit r ;;
      let '(r', stop) := p in
      if stop then ret r' else rollout_loop sim notch rem_now limit n' r'
  end.

Definition _estimate_stop_distance (sim : Sim) (notch : Z) (v0 : Q) : exc Q :=
  let v := py_max 0.0 v0 in
  let a := State.a (Sim.state sim) in
  let s := 0.0 in
  let b := Sim.brk sim in
  let rem_now := Scenario.L (Sim.scn sim) - State.s (Sim.state sim) in
  let limit := rem_now + 8.0 in
  let ctrl_delay :=
    py_max (Tasc._tasc_pred_interval (Sim.tasc sim))
           (Tasc.tasc_hold_min_s (Sim.tasc sim)) in
  let latency_margin := v * ctrl_delay in
  r <- rollout_loop sim notch rem_now limit 2400
         (mkRollout v a s (Brake.brk_elec b) (Brake.brk_air b)
            (Brake.wsp_state b) (Brake.wsp_timer b) (Brake._a_cmd_filt b)) ;;
  ret (r_s r + latency_margin).

Definition _stopping_distance (sim : Sim) (notch : Z) (v : Q) : exc xQ :=
  if (notch <=? 0)%Z then ret Inf
  else d <- _estimate_stop_distance sim notch v ;; ret (Fin d).

(** ** TASC prediction cache *)

Definition set_tasc_pred (tc : Tasc.Tasc) (c : PredCache) (t_pred : Q)
    : Tasc.Tasc :=
  Tasc.mk (Tasc.tasc_takeover_rem_m tc) (Tasc.tasc_takeover_hyst_m tc)
    (Tasc.tasc_enabled tc) (Tasc.tasc_enabled_initially tc)
    (Tasc.manual_override tc) (Tasc.tasc_deadband_m tc)
    (Tasc.tasc_hold_min_s tc) (Tasc._tasc_last_change_t tc)
    (Tasc._tasc_phase tc) (Tasc._tasc_peak_notch tc)
    (Tasc.tasc_armed tc) (Tasc.tasc_active tc)
    (Tasc.tasc_relax_margin_m tc) (Tasc.tasc_relax_hold_s tc)
    c (Tasc._tasc_pred_interval tc) t_pred
    (Tasc._tasc_speed_eps tc) (Tasc._need_b5_last_t tc)
    (Tasc._need_b5_last tc) (Tasc._need_b5_interval tc).

(** The controller fields written by [step]. *)
Definition set_tasc_ctl (tc : Tasc.Tasc) (enabled : bool) (t_change : Q)
    (phase : tasc_phase_t) (peak : Z) (armed active : bool) : Tasc.Tasc :=
  Tasc.mk (Tasc.tasc_takeover_rem_m tc) (Tasc.tasc_takeover_hyst_m tc)
    enabled (Tasc.tasc_enabled_initially tc)
    (Tasc.manual_override tc) (Tasc.tasc_deadband_m tc)
    (Tasc.tasc_hold_min_s tc) t_change phase peak armed active
    (Tasc.tasc_relax_margin_m tc) (Tasc.tasc_relax_hold_s tc)
    (Tasc._tasc_pred_cache tc) (Tasc._tasc_pred_interval tc)
    (Tasc._tasc_last_pred_t tc)
    (Tasc._tasc_speed_eps tc) (Tasc._need_b5_last_t tc)
    (Tasc._need_b5_last tc) (Tasc._need_b5_interval tc).

Definition _tasc_predict (sim : Sim) (cur_notch : Z) (v : Q)
    : exc (Sim * (xQ * xQ * xQ)) :=
  let st := Sim.state sim in
  let tc := Sim.tasc sim in
  let cache := Tasc._tasc_pred_cache tc in
  let need :=
    (State.t st - Tasc._tasc_last_pred_t tc >=? Tasc._tasc_pred_interval tc)
    || (Qabs (v - pc_v cache) >=? Tasc._tasc_speed_eps tc)
    || negb (cur_notch =? pc_notch cache)%Z in
  if negb need then ret (sim, (pc_s_cur cache, pc_s_up cache, pc_s_dn cache))
  else
    let max_normal_notch := (Vehicle.notches (Sim.veh sim) - 2)%Z in
    s_cur <- (if (cur_notch >? 0)%Z then _stopping_distance sim cur_notch v
              else ret Inf) ;;
    s_up <- (if (cur_notch + 1 <=? max_normal_notch)%Z
             then _stopping_distance sim (cur_notch + 1) v
             else ret (Fin 0.0)) ;;
    s_dn <- (if (cur_notch - 1 >=? 1)%Z
             then _stopping_distance sim (cur_notch - 1) v
             else ret Inf) ;;
    let c := mkPredCache (State.t st) v cur_notch s_cur s_up s_dn in
    ret (set_tasc sim (set_tasc_pred tc c (State.t st)), (s_cur, s_up, s_dn)).

(** ** Run evaluator *)

(** The backwards scan of [remove_negative_values]: the greatest index
    below [i] that holds a negative value. *)
Fixpoint last_negative_below (notches : list Z) (i : nat) : option nat :=
  match i with
  | O => None
  | S j =>
      match nth_error notches j with
      | Some x =>
          if (x <? 0)%Z then Some j else last_negative_below notches j
      | None => last_negative_below notches j
      end
  end.

Definition remove_negative_values (notches : list Z) : list Z :=
  match last_negative_below notches (List.length notches) with
  | Some i => skipn (S i) notches
  | None => notches
  end.

(** The loop of [remove_adjacent_duplicates]; [prev] is [result[-1]]. *)
Fixpoint dedup_after (prev : Z) (lst : list Z) : list Z :=
  match lst with
  | [] => []
  | x :: lst' =>
      if negb (x =? prev)%Z then x :: dedup_after x lst'
      else dedup_after prev lst'
  end.

Definition remove_adjacent_duplicates (lst : list Z) : list Z :=
  match lst with
  | [] => []
  | x :: lst' => x :: dedup_after x lst'
  end.

(** The loop of [is_stair_pattern]; [false] is its [return False]. *)
Fixpoint stair_scan (peak_reached : bool) (prev : Z) (l : list Z) : bool :=
  match l with
  | [] => true
  | cur :: l' =>
      if negb peak_reached then
        stair_scan (cur <? prev)%Z cur l'
      else if (cur >? prev)%Z then false
      else stair_scan peak_reached cur l'
  end.

Definition is_stair_pattern (notches : list Z) : bool :=
  let notches := remove_adjacent_duplicates notches in
  let notches := remove_negative_values notches in
  if (len notches <? 5)%Z then false
  else
    match notches with
    | [] => false
    | prev :: rest =>
        if negb (stair_scan false prev rest) then false
        else
          match py_last notches with
          | Some n => if (n =? 1)%Z || (n =? 2)%Z then true else false
          | None => false
          end
    end.

(** [lst[k:]]. *)
Definition py_slice_from {A} (l : list A) (k : Z) : list A :=
  let n := len l in
  let start := if (k <? 0)%Z then Z.max (n + k) 0 else Z.min k n in
  skipn (Z.to_nat start) l.

Definition py_sum (l : list Q) : Q := fold_left Qplus l 0.

Definition compute_jerk_score (sim : Sim) : exc (Q * Q) :=
  let dt := Scenario.dt (Sim.scn sim) in
  let window_time := 1.0 in
  q <- py_div window_time dt ;;
  let n := py_int q in
  let jh := RunEval.jerk_history (Sim.ev sim) in
  let recent_jerks := if (len jh >=? n)%Z then py_slice_from jh (- n) else jh in
  match recent_jerks with
  | [] => ret (0.0, 0)
  | _ =>
      let avg_jerk := py_sum recent_jerks / inject_Z (len recent_jerks) in
      let high_jerk_count :=
        len (filter (fun j => j >? 30) recent_jerks) in
      let penalty_factor := py_min 1 (inject_Z high_jerk_count / 10) in
      let adjusted_jerk := avg_jerk * (1 + penalty_factor) in
      if adjusted_jerk <=? 10 then ret (adjusted_jerk, 0)
      else
        let low_bound := 21.6 in
        let high_bound := 24 in
        let jerk_score :=
          if adjusted_jerk <=? low_bound then 500
          else if adjusted_jerk <=? high_bound then
            500 * (high_bound - adjusted_jerk) / (high_bound - low_bound)
          else 0 in
        ret (adjusted_jerk, jerk_score)
  end.

(** ** Main step *)

(** [while self._cmd_queue and self._cmd_queue[0]["t"] <= st.t]: the
    commands that are due, oldest first.  [_apply_command] changes neither
    the clock nor the queue, so the loop is a recursion on the queue. *)
Fixpoint drain (sim : Sim) (queue : list Cmd) : Sim :=
  match queue with
  | [] => set_cmd_queue sim []
  | cmd :: queue' =>
      if cmd_t cmd <=? State.t (Sim.state sim)
      then drain (_apply_command sim cmd) queue'
      else set_cmd_queue sim queue
  end.

(** The notch and time histories. *)
Definition step_record (sim : Sim) : Sim :=
  let st := Sim.state sim in
  let e := Sim.ev sim in
  let nh :=
    if State.v st >? 0.1 then RunEval.notch_history e ++ [State.lever_notch st]
    else RunEval.notch_history e in
  set_ev sim (set_histories e nh (RunEval.time_history e ++ [State.t st])).

(** [self.notch_history[-2] if len(self.notch_history) >= 2 else None]. *)
Definition second_last (l : list Z) : option Z :=
  match rev l with
  | _ :: x :: _ => Some x
  | _ => None
  end.

(** The dwell of at least one second on B1 or B2 before any other notch. *)
Definition step_first_brake (sim : Sim) : exc Sim :=
  let st := Sim.state sim in
  let e := Sim.ev sim in
  let e :=
    if negb (RunEval.seen_zero_notch e) && (State.lever_notch st =? 0)%Z
    then set_seen_zero_notch e true else e in
  if negb (RunEval.first_brake_done e) && RunEval.seen_zero_notch e
     && negb (Tasc.tasc_active (Sim.tasc sim)) then
    let cur := State.lever_notch st in
    let prev := second_last (RunEval.notch_history e) in
    match RunEval.first_brake_notch e with
    | None =>
        let from_zero := match prev with Some p => (p =? 0)%Z | None => false end in
        if from_zero && ((cur =? 1)%Z || (cur =? 2)%Z) then
          ret (set_ev sim (set_first_brake e false (Some cur) (Some (State.t st))))
        else ret (set_ev sim e)
    | Some n =>
        if (cur =? n)%Z then
          match RunEval.first_brake_start_t e with
          | Some t0 =>
              if State.t st - t0 >=? 0.999 then
                ret (set_ev sim (set_first_brake e true (Some n) (Some t0)))
              else ret (set_ev sim e)
          | None => raise
          end
        else ret (set_ev sim (set_first_brake e false None None))
    end
  else ret (set_ev sim e).

(** The countdown timer. *)
Definition step_countdown (sim : Sim) : Sim :=
  let st := Sim.state sim in
  let dt := Scenario.dt (Sim.scn sim) in
  if State.timer_enabled st && negb (State.finished st) then
    let rem := State.time_remaining_s st - dt in
    let rem_int := py_int rem in
    if (rem <? 0.0) && negb (State.time_overrun_started st) then
      set_state sim (set_countdown st rem rem_int (- rem) (Z.abs rem_int) true)
    else
      set_state sim
        (set_countdown st rem rem_int (State.time_overrun_s st)
           (State.time_overrun_int st) (State.time_overrun_started st))
  else sim.

(** The TASC block. *)
Definition step_tasc (sim : Sim) : exc Sim :=
  let st := Sim.state sim in
  let tc := Sim.tasc sim in
  if Tasc.tasc_enabled tc && negb (State.finished st) then
    let dwell_ok :=
      State.t st - Tasc._tasc_last_change_t tc >=? Tasc.tasc_hold_min_s tc in
    let rem_now := Scenario.L (Sim.scn sim) - State.s st in
    let cur := State.internal_notch st in
    let max_normal_notch := (Vehicle.notches (Sim.veh sim) - 2)%Z in
    let tc :=
      if Tasc.tasc_armed tc && negb (Tasc.tasc_active tc) then
        let takeover_on := Tasc.tasc_takeover_rem_m tc in
        let hyst := Tasc.tasc_takeover_hyst_m tc in
        if rem_now <=? takeover_on + hyst then
          set_tasc_ctl tc (Tasc.tasc_enabled tc) (State.t st)
            (Tasc._tasc_phase tc) (Tasc._tasc_peak_notch tc) false true
        else tc
      else tc in
    let sim := set_tasc sim tc in
    if Tasc.tasc_active tc then
      if negb (RunEval.first_brake_done (Sim.ev sim)) then
        let e := Sim.ev sim in
        ret (set_ev sim
               (set_first_brake e true (RunEval.first_brake_notch e)
                  (RunEval.first_brake_start_t e)))
      else
        p <- _tasc_predict sim cur (State.v st) ;;
        let '(sim, (s_cur, s_up, s_dn)) := p in
        let tc := Sim.tasc sim in
        let deadband := Tasc.tasc_deadband_m tc in
        (* build *)
        let '(sim, changed) :=
          match Tasc._tasc_phase tc with
          | phase_build =>
              if (cur <? max_normal_notch)%Z
                 && xQ_gt s_cur (rem_now - deadband) then
                if dwell_ok then
                  let n := _clamp_notch sim (cur + 1) in
                  let sim := set_state sim (set_internal_notch st n) in
                  (set_tasc sim
                     (set_tasc_ctl tc (Tasc.tasc_enabled tc) (State.t st)
                        (Tasc._tasc_phase tc)
                        (Z.max (Tasc._tasc_peak_notch tc) n)
                        (Tasc.tasc_armed tc) (Tasc.tasc_active tc)),
                   true)
                else (sim, false)
              else
                (set_tasc sim
                   (set_tasc_ctl tc (Tasc.tasc_enabled tc)
                      (Tasc._tasc_last_change_t tc) phase_relax
                      (Tasc._tasc_peak_notch tc)
                      (Tasc.tasc_armed tc) (Tasc.tasc_active tc)),
                 false)
          | phase_relax => (sim, false)
          end in
        (* relax *)
        let tc := Sim.tasc sim in
        let st := Sim.state sim in
        let release (sim : Sim) : Sim :=
          let sim :=
            set_state sim (set_internal_notch st (_clamp_notch sim (cur - 1))) in
          set_tasc sim
            (set_tasc_ctl tc (Tasc.tasc_enabled tc) (State.t st)
               (Tasc._tasc_phase tc) (Tasc._tasc_peak_notch tc)
               (Tasc.tasc_armed tc) (Tasc.tasc_active tc)) in
        match Tasc._tasc_phase tc with
        | phase_relax =>
            if negb changed && (cur >? 1)%Z then
              if (cur >=? test_notch)%Z then
                let margin := _tasc_relax_margin_for_notch sim cur in
                let relax_allowed :=
                  xQ_le s_dn (rem_now + deadband - margin) in
                let time_since_change :=
                  State.t st - Tasc._tasc_last_change_t tc in
                if relax_allowed && dwell_ok
                   && (time_since_change >=? Tasc.tasc_relax_hold_s tc)
                then ret (release sim) else ret sim
              else
                if xQ_le s_dn (rem_now + deadband) && dwell_ok
                then ret (release sim) else ret sim
            else ret sim
        | phase_build => ret sim
        end
    else ret sim
  else ret sim.

(** The dynamics block: traction, brake blending, wheel-slip protection,
    grade, running resistance, the command filter, the jerk limiter and the
    integration. *)
Definition step_dynamics (sim : Sim) : exc Sim :=
  let st := Sim.state sim in
  let dt := Scenario.dt (Sim.scn sim) in
  let effective_notch := Z.max (State.lever_notch st) (State.internal_notch st) in
  pwr_accel <- (if State.atc_overspeed st
                then compute_power_accel sim effective_notch (State.v st)
                else compute_power_accel sim (State.lever_notch st) (State.v st)) ;;
  let a_cmd_brake := _effective_brake_accel sim effective_notch (State.v st) in
  let is_eb := (effective_notch =? Vehicle.notches (Sim.veh sim) - 1)%Z in
  let sim := _update_brake_dyn_split sim a_cmd_brake (State.v st) is_eb dt in
  let '(sim, a_brake) :=
    _wsp_update sim (State.v st) (Brake.brk_accel (Sim.brk sim)) dt in
  let a_grade := _grade_accel sim in
  a_davis <- _davis_accel sim (State.v st) ;;
  let a_target := pwr_accel + a_brake + a_grade + a_davis in
  let v_kmh := State.v st * 3.6 in
  let a_target :=
    if (effective_notch >=? 1)%Z then py_min a_target 0.0 else a_target in
  let tau_inv := dt / py_max 0.000001 (Vehicle.tau_brk (Sim.veh sim)) in
  let a_cmd_filt :=
    Brake._a_cmd_filt (Sim.brk sim)
    + (a_target - Brake._a_cmd_filt (Sim.brk sim)) * tau_inv in
  let sim := set_brk sim (set_a_cmd_filt (Sim.brk sim) a_cmd_filt) in
  let max_da := Vehicle.j_max (Sim.veh sim) * dt in
  let max_da :=
    if (v_kmh <=? 5.0) && (effective_notch >=? 1)%Z
    then max_da * (0.25 + 0.75 * (v_kmh / 5.0)) else max_da in
  let da := a_cmd_filt - State.a st in
  let da :=
    if da >? max_da then max_da
    else if da <? - max_da then - max_da
    else da in
  let a := State.a st + da in
  let v := py_max 0.0 (State.v st + a * dt) in
  let s := State.s st + (v * dt + 0.5 * a * dt * dt) in
  let t := State.t st + dt in
  ret (set_state sim (set_kinematics st t s v a)).

(** The clamp of the raw score to [[minq, maxq]], the rescaling to
    [[0, 100]] and the rounding. *)
Definition normalize_score (score : Z) : Z :=
  let minq := 300%Z in
  let maxq := 1200%Z in
  let score := if (score <? minq)%Z then minq else score in
  let score := if (score >? maxq)%Z then maxq else score in
  let norm := inject_Z (score - minq) / inject_Z (maxq - minq) * 100 in
  let norm := py_max 0 (py_min 100 norm) in
  py_round norm.

(** [self.notch_history[-1] if self.notch_history and
    abs(st.stop_error_m) <= 1.0 else 0]. *)
Definition comfort_notch (notch_history : list Z) (stop_error_m : Q) : Z :=
  match py_last notch_history with
  | Some n => if Qabs stop_error_m <=? 1.0 then n else 0%Z
  | None => 0%Z
  end.

(** [+300] when [last_notch in [0, 1, 2]], [-100] otherwise. *)
Definition comfort_delta (last_notch : Z) : Z :=
  if (last_notch =? 0)%Z || (last_notch =? 1)%Z || (last_notch =? 2)%Z
  then 300%Z else (-100)%Z.

(** The score before the jerk term: emergency brake, initial dwell, final
    notch, staircase and stop error. *)
Definition score_before_jerk (sim : Sim) (stop_error_m : Q) : Z :=
  let e := Sim.ev sim in
  let score := 0%Z in
  let score := if RunEval.eb_used e then (score - 500)%Z else score in
  let score :=
    if negb (RunEval.first_brake_done e) then (score - 100)%Z
    else (score + 300)%Z in
  let last_notch := comfort_notch (RunEval.notch_history e) stop_error_m in
  let score := (score + comfort_delta last_notch)%Z in
  let score :=
    if is_stair_pattern (RunEval.notch_history e) then (score + 300)%Z
    else if Tasc.tasc_enabled (Sim.tasc sim)
            && negb (Tasc.manual_override (Sim.tasc sim))
         then (score + 300)%Z else score in
  let err_abs := Qabs stop_error_m in
  let error_score := Z.max 0 (500 - py_int (err_abs / 2 * 500)) in
  let score := (score + error_score)%Z in
  if Qabs stop_error_m <? 0.01 then (score + 500)%Z else score.

(** The raw total: the jerk term and the obstacle penalty added. *)
Definition raw_score (sim : Sim) (score : Z) (jerk_score : Q) : Z :=
  let score := (score + py_int jerk_score)%Z in
  if RunEval.run_over (Sim.ev sim) then (score - 1000)%Z else score.

(** The finish block: completion test and scoring. *)
Definition step_finish (sim : Sim) : exc Sim :=
  let st := Sim.state sim in
  let dt := Scenario.dt (Sim.scn sim) in
  let rem := Scenario.L (Sim.scn sim) - State.s st in
  if negb (State.finished st)
     && ((rem <=? - 5.0) || ((rem <=? 1.0) && (State.v st <=? 0.0))) then
    let stop_error_m := Scenario.L (Sim.scn sim) - State.s st in
    let residual_speed_kmh := State.v st * 3.6 in
    let score := score_before_jerk sim stop_error_m in
    q <- py_div (State.a st - RunEval.prev_a (Sim.ev sim)) dt ;;
    let jerk := Qabs q in
    let e := Sim.ev sim in
    let sim := set_ev sim (set_jerk e (State.a st) (RunEval.jerk_history e ++ [jerk])) in
    js <- compute_jerk_score sim ;;
    let '(avg_jerk, jerk_score) := js in
    let score := raw_score sim score jerk_score in
    let score := normalize_score score in
    let st := set_finish st stop_error_m residual_speed_kmh score in
    let tc := Sim.tasc sim in
    let tc :=
      if Sim.random_mode sim && Tasc.tasc_enabled_initially tc then
        set_tasc_ctl tc true (Tasc._tasc_last_change_t tc) phase_build 1 true false
      else tc in
    let running := if negb (Sim.random_mode sim) then false else Sim.running sim in
    ret (Sim.mk (Sim._planned_v0 sim) (Sim.veh sim) (Sim.scn sim) st running
           (Sim.random_mode sim) (State.lever_notch st) (Sim._cmd_queue sim)
           (Sim.ev sim) tc (Sim.brk sim) (Sim.timer sim))
  else ret sim.

Definition step (sim : Sim) : exc Sim :=
  let sim := drain sim (Sim._cmd_queue sim) in
  let sim := step_record sim in
  let st := Sim.state sim in
  if State.finished st then
    ret (set_state sim (set_a_v st 0.0 (py_max 0.0 (State.v st))))
  else
    sim <- step_first_brake sim ;;
    let sim := step_countdown sim in
    sim <- step_tasc sim ;;
    sim <- step_dynamics sim ;;
    step_finish sim.

(** ** Constructor *)

Definition timer_calib_default : list CalibPoint :=
  [mkCalib 40 150 27; mkCalib 60 200 28; mkCalib 70 300 32;
   mkCalib 90 500 40; mkCalib 130 900 49].

(** [StoppingSim.__init__]. *)
Definition new_sim (veh : Vehicle) (scn : Scenario) : Sim :=
  Sim.mk (Scenario.v0 scn) veh scn
    (State.make 0.0 0.0 (Scenario.v0 scn) 0.0 0 false)
    false false 0 []
    (RunEval.mk false None None false [] [] false false 0.0 [])
    (Tasc.mk 250.0 1 false false false 0.05 0.05 0.0 phase_build 1
       false false test_margin 0 pred_cache_init 0.1 (-1.0) 0.5
       (-1.0) false 0.05)
    (Brake.mk 1.0 0.0 0.0 0.0 wsp_normal 0.0 0.0)
    (Timer.mk false [] 70.0 60.0 timer_calib_default 2.0 100.0 300.0 1.5
       5.0 300.0 12.0 110.0 0.35).

(** ** The tick pipeline as the specification words it

    Section 4.4 of the specification describes one tick as a pipeline over
    one effective notch.  [dynamics_with] is that pipeline with the notch of
    the traction term and the notch of the braking terms as two parameters;
    [spec_effective_notch] is the notch the specification names. *)

Definition spec_effective_notch (st : State) : Z :=
  if State.atc_overspeed st
  then Z.max (State.lever_notch st) (State.internal_notch st)
  else State.lever_notch st.

Definition dynamics_with (traction_notch brake_notch : Z) (sim : Sim)
    : exc Sim :=
  let st := Sim.state sim in
  let dt := Scenario.dt (Sim.scn sim) in
  let v := State.v st in
  (* 1. traction term *)
  a_traction <- compute_power_accel sim traction_notch v ;;
  (* 2. braking term, blended and lagged *)
  let is_eb := (brake_notch =? Vehicle.notches (Sim.veh sim) - 1)%Z in
  let sim :=
    _update_brake_dyn_split sim (_effective_brake_accel sim brake_notch v)
      v is_eb dt in
  (* 3. wheel-slip protection *)
  let '(sim, a_brake) := _wsp_update sim v (Brake.brk_accel (Sim.brk sim)) dt in
  (* 4. grade, 5. resistance *)
  a_davis <- _davis_accel sim v ;;
  (* 6. sum, non-positive under braking *)
  let a_target := a_traction + a_brake + _grade_accel sim + a_davis in
  let a_target :=
    if (brake_notch >=? 1)%Z then py_min a_target 0.0 else a_target in
  (* 7. command filter *)
  let f := Brake._a_cmd_filt (Sim.brk sim) in
  let f := f + (a_target - f) * (dt / py_max 0.000001 (Vehicle.tau_brk (Sim.veh sim))) in
  let sim := set_brk sim (set_a_cmd_filt (Sim.brk sim) f) in
  (* 8. jerk limiter *)
  let max_da := Vehicle.j_max (Sim.veh sim) * dt in
  let max_da :=
    if (v * 3.6 <=? 5.0) && (brake_notch >=? 1)%Z
    then max_da * (0.25 + 0.75 * (v * 3.6 / 5.0)) else max_da in
  let da := f - State.a st in
  let da :=
    if da >? max_da then max_da
    else if da <? - max_da then - max_da else da in
  (* 9. integration *)
  let a := State.a st + da in
  let v' := py_max 0.0 (v + a * dt) in
  ret (set_state sim
         (set_kinematics st (State.t st + dt)
            (State.s st + (v' * dt + 0.5 * a * dt * dt)) v' a)).

(** [n] ticks in a row. *)
Fixpoint run (n : nat) (sim : Sim) : exc Sim :=
  match n with
  | O => ret sim
  | S n' => sim' <- step sim ;; run n' sim'
  end.

(** The window of [compute_jerk_score]: the last [int(1.0 / dt)] samples. *)
Definition jerk_window (sim : Sim) : exc (list Q) :=
  q <- py_div 1.0 (Scenario.dt (Sim.scn sim)) ;;
  let n := py_int q in
  let jh := RunEval.jerk_history (Sim.ev sim) in
  ret (if (len jh >=? n)%Z then py_slice_from jh (- n) else jh).

(** The mean of the window and the number of its samples above the
    high-jerk cutoff. *)
Definition window_mean (w : list Q) : Q := py_sum w / inject_Z (len w).
Definition window_high_count (w : list Q) : Z :=
  len (filter (fun j => j >? 30) w).

(** * The session around the engine *)

(** The state of one connection: the simulator, the companion record of its
    vehicle, and the two variables of [ws_endpoint]. *)
Record Session : Type := mkSession {
  ses_sim : Sim;
  ses_davis : Davis.Davis;
  cur_length : Z;
  cur_load_rate : Q
}.

(** The set-up of [ws_endpoint] before its loops start. *)
Definition ws_init (vehicle_json : VehicleJson.VehicleJson)
    (scenario_json : ScenarioJson.ScenarioJson) : exc Session :=
  let cur_length := 10%Z in
  let cur_load_rate := 0.70 in
  let vo := session_vehicle vehicle_json in
  let scenario := Scenario_from_json scenario_json in
  let sim := new_sim (fst vo) scenario in
  sim <- reset sim ;;
  vo <- apply_load (Sim.veh sim, snd vo) cur_length cur_load_rate ;;
  let sim := set_veh sim (fst vo) in
  sim <- reset sim ;;
  ret (mkSession (set_running sim false) (snd vo) cur_length cur_load_rate).

(** ** Handlers of [recv_loop]

    Each handler takes the members of the payload it reads, [None] for a
    missing key.  [None] as a result is an exception: one that ends
    [recv_loop], or, in "advanceStation", one that the handler catches
    while the simulator is part-way through [reset]. *)

(** "setInitial". *)
Definition on_setInitial (sim : Sim) (speed dist grade mu : option Q)
    (random_mode : option bool) : exc Sim :=
  let grade := get grade 0.0 / 10.0 in
  let mu := get mu 1.0 in
  let random_mode := get random_mode false in
  match speed, dist with
  | Some speed, Some dist =>
      let v_kmh_raw := speed in
      let L_raw := dist in
      let v_kmh := py_max 0 (py_min 300.0 v_kmh_raw) in
      let L_m := py_max 150.0 (py_min 60000.0 L_raw) in
      let scn :=
        Scenario.mk L_m (v_kmh / 3.6) grade mu (Scenario.dt (Sim.scn sim)) in
      reset (set_random_mode (set_scn sim scn) random_mode)
  | _, _ => ret sim
  end.

(** "start". *)
Definition on_start (sim : Sim) : exc Sim :=
  sim <- start sim ;;
  ret (set_ev sim (set_run_over (Sim.ev sim) false)).

(** "advanceStation". *)
Definition on_advanceStation (sim : Sim) (dist grade mu : option Q)
    : exc Sim :=
  let is_random_mode := Sim.random_mode sim in
  let is_finished := State.finished (Sim.state sim) in
  if negb is_random_mode && negb is_finished then ret sim
  else
    let dist := get dist 600.0 in
    let grade := get grade 0.0 / 10.0 in
    let mu := get mu (Scenario.mu (Sim.scn sim)) in
    let dist := py_max 150.0 (py_min 60000.0 dist) in
    let prev_s := State.s (Sim.state sim) in
    let prev_timer_enabled := State.timer_enabled (Sim.state sim) in
    let prev_lever_notch :=
      match py_last (RunEval.notch_history (Sim.ev sim)) with
      | Some n => n
      | None =>
          if is_finished then Sim.final_notch_on_finish sim
          else State.lever_notch (Sim.state sim)
      end in
    sim <- reset sim ;;
    let st := Sim.state sim in
    let st :=
      State.mk (State.t st) prev_s (State.v st) (State.a st)
        prev_lever_notch (State.internal_notch st)
        (State.atc_overspeed st) (State.finished st)
        (State.stop_error_m st) (State.residual_speed_kmh st)
        (State.score st) (State.running st) (State.paused st)
        (State.time_budget_s st) (State.time_remaining_s st)
        prev_timer_enabled (State.time_remaining_int st)
        (State.time_overrun_s st) (State.time_overrun_int st)
        (State.time_overrun_started st) in
    let sim := set_state sim st in
    let scn :=
      Scenario.mk (prev_s + dist) (Scenario.v0 (Sim.scn sim)) grade mu
        (Scenario.dt (Sim.scn sim)) in
    let sim := set_scn sim scn in
    let tb :=
      match _compute_time_budget sim with
      | Some tb => tb
      | None => State.time_budget_s (Sim.state sim)
      end in
    let st := Sim.state sim in
    let timer_enabled :=
      if tb >? 0.0 then true else State.timer_enabled st in
    let st :=
      State.mk (State.t st) (State.s st) 0.0 0.0
        (State.lever_notch st) (State.internal_notch st)
        (State.atc_overspeed st) false None (Some 0.0)
        (State.score st) (State.running st) (State.paused st)
        tb tb timer_enabled (Qfloor tb)
        (State.time_overrun_s st) (State.time_overrun_int st)
        (State.time_overrun_started st) in
    let sim := set_state sim st in
    let sim := set_running sim true in
    let sim := set_ev sim (set_run_over (Sim.ev sim) false) in
    ret (set_brk sim (set_a_cmd_filt (Sim.brk sim) 0.0)).

(** "toggleTimer". *)
Definition on_toggleTimer (sim : Sim) (enabled : option bool) : exc Sim :=
  reset (set_state sim (set_timer_enabled (Sim.state sim) (get enabled false))).

(** "setTimerTable"; [table] is the dictionary that the handler builds,
    in the order of its keys. *)
Definition on_setTimerTable (sim : Sim) (enabled : option bool)
    (table : list (Z * Q)) : exc Sim :=
  let tm := Sim.timer sim in
  let tm :=
    Timer.mk true table (Timer.timer_v_target_kmh tm)
      (Timer.timer_buffer_s tm) (Timer.timer_calib tm)
      (Timer.timer_idw_power tm) (Timer.timer_norm_v tm)
      (Timer.timer_norm_L tm) (Timer.timer_blend_threshold tm)
      (Timer.timer_min_s tm) (Timer.timer_max_s tm)
      (Timer.timer_min_effective_v_kmh tm)
      (Timer.timer_max_effective_v_kmh tm)
      (Timer.timer_far_outlier_scale tm) in
  let sim := set_timer sim tm in
  reset (set_state sim (set_timer_enabled (Sim.state sim) (get enabled true))).

(** ** Calibration table *)

(** One point of the payload of "setTimerCalib": the member read under
    either of its two names. *)
Record CalibInput : Type := mkCalibInput {
  ci_v : option Q;
  ci_v_kmh : option Q;
  ci_L : option Q;
  ci_dist : option Q;
  ci_t : option Q;
  ci_time : option Q
}.

(** [a or b] on optional numbers: [a] unless it is missing or zero. *)
Definition py_or (a b : option Q) : option Q :=
  match a with
  | Some x => if x =? 0 then b else Some x
  | None => b
  end.

(** What a method leaves behind: the object after a normal return, or the
    object as it stands when an exception leaves the method. *)
Inductive outcome (A : Type) : Type :=
| Returned (a : A)
| Raised (a : A).
Arguments Returned {A} a.
Arguments Raised {A} a.

Definition outcome_value {A : Type} (o : outcome A) : A :=
  match o with Returned a => a | Raised a => a end.

(** [float(p.get("v") or p.get("v_kmh"))] and its two siblings; [float]
    of [None] raises. *)
Definition calib_point (p : CalibInput) : exc CalibPoint :=
  v <- py_or (ci_v p) (ci_v_kmh p) ;;
  L <- py_or (ci_L p) (ci_dist p) ;;
  t <- py_or (ci_t p) (ci_time p) ;;
  ret (mkCalib v L t).

(** The loop of [set_timer_calibration]: the table built so far, and
    whether a point raised. *)
Fixpoint calib_loop (points : list CalibInput) (table : list CalibPoint)
    : list CalibPoint * bool :=
  match points with
  | [] => (table, false)
  | p :: points' =>
      match calib_point p with
      | Some c => calib_loop points' (table ++ [c])
      | None => (table, true)
      end
  end.

Definition set_timer_calib_fields (tm : Timer.Timer)
    (calib : list CalibPoint) (idw_power norm_v norm_L blend_threshold : Q)
    : Timer.Timer :=
  Timer.mk (Timer.timer_use_table tm) (Timer.timer_table tm)
    (Timer.timer_v_target_kmh tm) (Timer.timer_buffer_s tm) calib
    idw_power norm_v norm_L blend_threshold
    (Timer.timer_min_s tm) (Timer.timer_max_s tm)
    (Timer.timer_min_effective_v_kmh tm)
    (Timer.timer_max_effective_v_kmh tm)
    (Timer.timer_far_outlier_scale tm).

Definition set_timer_calibration (sim : Sim) (points : list CalibInput)
    (norm_v norm_L idw_power blend_threshold : option Q) : outcome Sim :=
  let tm := Sim.timer sim in
  let '(calib, raised) := calib_loop points [] in
  if raised then
    Raised (set_timer sim
              (set_timer_calib_fields tm calib (Timer.timer_idw_power tm)
                 (Timer.timer_norm_v tm) (Timer.timer_norm_L tm)
                 (Timer.timer_blend_threshold tm)))
  else
    Returned (set_timer sim
                (set_timer_calib_fields tm calib
                   (get idw_power (Timer.timer_idw_power tm))
                   (get norm_v (Timer.timer_norm_v tm))
                   (get norm_L (Timer.timer_norm_L tm))
                   (get blend_threshold (Timer.timer_blend_threshold tm)))).

(** "setTimerCalib"; an exception of [set_timer_calibration] ends
    [recv_loop]. *)
Definition on_setTimerCalib (sim : Sim) (points : list CalibInput)
    (norm_v norm_L idw_power blend_threshold : option Q) : exc Sim :=
  match set_timer_calibration sim points norm_v norm_L idw_power
          blend_threshold with
  | Returned sim =>
      reset (set_state sim (set_timer_enabled (Sim.state sim) true))
  | Raised _ => raise
  end.

(** * Sample data *)

(** The defaults of [Vehicle.from_json] after the set-up of a session: the
    notch table reversed so that index 0 is neutral and the last index the
    emergency brake, ten cars at 70 % load, Davis coefficients recomputed. *)
Definition veh_default : Vehicle :=
  Vehicle.mk 1.0 0.8 9
    [0.0; -0.20; -0.35; -0.50; -0.65; -0.80; -0.95; -1.10; -1.5]
    0.150 0.250 2073500 140.0 5 [0.250; 0.287; 0.378; 0.515; 0.694]
    0.0 0.0 false (0.0017 * 2073500 * 9.81) 414.7 6.400625.

(** The defaults of [Scenario.from_json]. *)
Definition scn_default : Scenario :=
  Scenario.mk 500.0 (25.0 / 3.6) 0.0 1.0 0.005.

(** The sample runs never reach a float power; any function serves. *)
Definition pow_unused : Q -> Q -> Q := fun _ _ => 0.

(** A train running at 20 m/s, 100 m into the default scenario. *)
Definition st_running (lever internal : Z) (overspeed : bool) : State :=
  State.mk 5.0 100.0 20.0 0.0 lever internal overspeed false None None None
    false false 0 0 false 0%Z 0 0%Z false.

Definition sim_running (lever internal : Z) (overspeed : bool) : Sim :=
  set_state (new_sim veh_default scn_default)
    (st_running lever internal overspeed).

(** The state a sample moves to by a reset, when the reset returns. *)
Definition after_reset (sim : Sim) : Sim :=
  match reset sim with Some sim' => sim' | None => sim end.

(** The state after the TASC block of a sample, when the block returns. *)
Definition after_tasc (sim : Sim) : Sim :=
  match step_tasc sim with Some sim' => sim' | None => sim end.

(** The tick a sample state moves to, when the tick returns. *)
Definition after_step (sim : Sim) : Sim :=
  match step sim with Some sim' => sim' | None => sim end.

(** A train on B1, one centimetre short of the target, at 0.1 mm/s: the
    next tick stops it and completes the run.  The history rose to B3 and
    came back to B1. *)
Definition sim_stopping : Sim :=
  let sim := new_sim veh_default scn_default in
  let sim :=
    set_state sim
      (State.mk 40.0 499.99 0.0001 (-0.5) 1 0 false false None None None
         false false 0 0 false 0%Z 0 0%Z false) in
  let sim :=
    set_brk sim (Brake.mk 1.0 (-0.2) 0.0 (-0.2) wsp_normal 0.0 (-0.5)) in
  set_ev sim
    (RunEval.mk true (Some 1%Z) (Some 20.0) true [0; 1; 2; 3; 2; 1]%Z []
       false false 0.0 []).

(** A train that ran seven metres past the target on B5 and is still
    rolling: the next tick completes the run with an overshoot. *)
Definition sim_overshoot : Sim :=
  let sim := new_sim veh_default scn_default in
  let sim :=
    set_state sim
      (State.mk 40.0 504.999 2.0 (-0.8) 5 0 false false None None None
         false false 0 0 false 0%Z 0 0%Z false) in
  let sim :=
    set_brk sim (Brake.mk 1.0 (-0.8) 0.0 (-0.8) wsp_normal 0.0 (-0.8)) in
  set_ev sim
    (RunEval.mk true (Some 1%Z) (Some 20.0) true [0; 1; 3; 5]%Z []
       false false 0.0 []).

(** The controller active in its build phase on internal notch 1, 200 m
    before the target, with a [setInternalNotch] command for -2 due. *)
Definition sim_internal_cmd : Sim :=
  let sim := new_sim veh_default scn_default in
  let sim :=
    set_state sim
      (State.mk 10.0 300.0 15.0 0.0 0 1 false false None None None
         false false 0 0 false 0%Z 0 0%Z false) in
  let sim := set_cmd_queue sim [mkCmd 10.0 "setInternalNotch" (-2)] in
  let sim :=
    set_ev sim
      (RunEval.mk true None None true [0]%Z [] false false 0.0 []) in
  set_tasc sim
    (set_tasc_ctl (Sim.tasc sim) true 9.9 phase_build 1 false true).

(** The controller active in its build phase on internal notch 1 with a
    fresh prediction in its cache: 250 m to stop on B1, 200 m left. *)
Definition sim_tasc_cached : Sim :=
  let sim := set_cmd_queue sim_internal_cmd [] in
  set_tasc sim
    (set_tasc_pred (Sim.tasc sim)
       (mkPredCache 9.95 15.0 1 (Fin 250.0) (Fin 120.0) Inf) 9.95).

(** Low adhesion (mu = 0.1): the ceiling of the service notches is
    -0.83385 m/s2, between the table values of B5 (-0.80) and B6 (-0.95).
    The train is braking at -0.75 m/s2, one metre before the target, at
    3 cm/s. *)
Definition scn_low_adhesion : Scenario :=
  Scenario.mk 500.0 (25.0 / 3.6) 0.0 0.1 0.005.

Definition sim_low_adhesion : Sim :=
  let sim := new_sim veh_default scn_low_adhesion in
  let sim :=
    set_state sim
      (State.mk 60.0 499.0 0.03 (-0.75) 5 0 false false None None None
         false false 0 0 false 0%Z 0 0%Z false) in
  set_brk sim (Brake.mk 1.0 (-0.75) 0.0 (-0.75) wsp_normal 0.0 (-0.75)).

(** A simulator whose jerk history is [jh]. *)
Definition sim_jerks (jh : list Q) : Sim :=
  let sim := new_sim veh_default scn_default in
  set_ev sim (set_jerk (Sim.ev sim) 0.0 jh).

(** * Specification predicates *)

(** Non-zero mass and a non-empty traction table: the divisions by the mass
    and the read of the traction table cannot fail. *)
Definition veh_ok (veh : Vehicle) : Prop :=
  ~ Vehicle.mass_kg veh == 0 /\ Vehicle.forward_notch_accels veh <> [].

(** What a command leaves alone: vehicle, scenario, clock, velocity and the
    first-brake bookkeeping. *)
Definition frame (sim : Sim) :=
  (Sim.veh sim, Sim.scn sim, State.t (Sim.state sim),
   State.v (Sim.state sim), State.finished (Sim.state sim),
   RunEval.first_brake_notch (Sim.ev sim),
   RunEval.first_brake_start_t (Sim.ev sim)).

(** The clamp of the raw score, as an integer. *)
Definition clamp_score (raw : Z) : Z := Z.max 300 (Z.min 1200 raw).

Definition kept (sim : Sim) :=
  (State.finished (Sim.state sim), State.score (Sim.state sim),
   RunEval.notch_history (Sim.ev sim)).


(** The lever notch a reset starts from: the notch held at the end of the
    previous run in random mode, the emergency notch replaced by the
    strongest service notch; neutral otherwise. *)
Definition reset_lever_notch (sim : Sim) : Z :=
  if Sim.random_mode sim then
    if (Sim.final_notch_on_finish sim >=? Vehicle.notches (Sim.veh sim) - 1)%Z
    then (Vehicle.notches (Sim.veh sim) - 2)%Z
    else Sim.final_notch_on_finish sim
  else 0%Z.

(** The simulator after [reset], given the countdown budget [budget] that
    the reset computed. *)
Definition reset_to (sim : Sim) (budget : Q) : Sim :=
  let tc := Sim.tasc sim in
  let phase :=
    if negb (Tasc.tasc_active tc) then phase_build else Tasc._tasc_phase tc in
  let peak :=
    if negb (Tasc.tasc_active tc) then 1%Z else Tasc._tasc_peak_notch tc in
  Sim.mk (Scenario.v0 (Sim.scn sim)) (Sim.veh sim) (Sim.scn sim)
    (State.mk 0.0 0.0 0.0 0.0 (reset_lever_notch sim) 0%Z false false
       None None None false false budget budget
       (State.timer_enabled (Sim.state sim)) (Qfloor budget) 0.0 0%Z false)
    (if negb (Sim.random_mode sim) then false else Sim.running sim)
    (Sim.random_mode sim) (Sim.final_notch_on_finish sim) []
    (RunEval.mk false None None false [] [] false
       (RunEval.run_over (Sim.ev sim)) 0.0 [])
    (Tasc.mk (Tasc.tasc_takeover_rem_m tc) (Tasc.tasc_takeover_hyst_m tc)
       (Tasc.tasc_enabled tc) (Tasc.tasc_enabled_initially tc)
       (Tasc.manual_override tc) (Tasc.tasc_deadband_m tc)
       (Tasc.tasc_hold_min_s tc) 0.0 phase peak
       (Tasc.tasc_enabled tc) false
       (Tasc.tasc_relax_margin_m tc) (Tasc.tasc_relax_hold_s tc)
       pred_cache_init (Tasc._tasc_pred_interval tc) (-1.0)
       (Tasc._tasc_speed_eps tc) (-1.0) false (Tasc._need_b5_interval tc))
    (Brake.mk 1.0 0.0 0.0 0.0 wsp_normal 0.0 0.0)
    (Sim.timer sim).

(** No queued command sets the internal notch. *)
Definition no_internal_cmd (queue : list Cmd) : Prop :=
  Forall (fun cmd => cmd_name cmd <> "setInternalNotch"%string) queue.

(** The internal notch is neutral or a service notch. *)
Definition internal_in_range (sim : Sim) : Prop :=
  (0 <= State.internal_notch (Sim.state sim)
   <= Vehicle.notches (Sim.veh sim) - 2)%Z.

(** The adhesion ceiling of a notch and its table value. *)
Definition adhesion_cap (sim : Sim) (notch : Z) : Q :=
  - (if (notch =? Vehicle.notches (Sim.veh sim) - 1)%Z then 0.98 else 0.85)
    * Scenario.mu (Sim.scn sim) * 9.81.

Definition table_accel (sim : Sim) (notch : Z) : Q :=
  nth (Z.to_nat notch) (Vehicle.notch_accels (Sim.veh sim)) 0.

(** The table value stays clear of the adhesion ceiling. *)
Definition within_adhesion (sim : Sim) (notch : Z) : Prop :=
  adhesion_cap sim notch + 0.000001 < table_accel sim notch.

(** No two neighbours of the list are equal. *)
Fixpoint adjacent_distinct (l : list Z) : Prop :=
  match l with
  | x :: l' =>
      match l' with
      | y :: _ => x <> y /\ adjacent_distinct l'
      | [] => True
      end
  | [] => True
  end.

(** The list rises strictly up to index [k] and falls strictly after it. *)
Definition rises_then_falls (k : nat) (l : list Z) : Prop :=
  forall (i : nat) (x y : Z),
    nth_error l i = Some x -> nth_error l (S i) = Some y ->
    if (i <? k)%nat then (x < y)%Z else (y < x)%Z.

(** [z] lies between [x] and [y], in either order. *)
Definition between (x y z : Q) : Prop :=
  (x <= z /\ z <= y) \/ (y <= z /\ z <= x).

(** What the phases of a tick other than the command drain leave alone: the
    driver's lever, the overspeed flag and the command queue. *)
Definition lever_view (sim : Sim) :=
  (State.lever_notch (Sim.state sim), State.atc_overspeed (Sim.state sim),
   Sim._cmd_queue sim).

(** The countdown fields of the state. *)
Definition countdown_view (sim : Sim) :=
  let st := Sim.state sim in
  (State.time_budget_s st, State.time_remaining_s st, State.timer_enabled st,
   State.time_remaining_int st, State.time_overrun_s st,
   State.time_overrun_int st, State.time_overrun_started st).

(** Clock, position, velocity and acceleration. *)
Definition kinematic_view (sim : Sim) :=
  let st := Sim.state sim in
  (State.t st, State.s st, State.v st, State.a st).

(** The flags of a run that a tick may set and never clears; the obstacle
    flag is only set from outside. *)
Definition flags_kept (sim sim' : Sim) : Prop :=
  (State.finished (Sim.state sim) = true ->
   State.finished (Sim.state sim') = true)
  /\ (RunEval.first_brake_done (Sim.ev sim) = true ->
      RunEval.first_brake_done (Sim.ev sim') = true)
  /\ (RunEval.eb_used (Sim.ev sim) = true ->
      RunEval.eb_used (Sim.ev sim') = true)
  /\ (RunEval.seen_zero_notch (Sim.ev sim) = true ->
      RunEval.seen_zero_notch (Sim.ev sim') = true)
  /\ (State.time_overrun_started (Sim.state sim) = true ->
      State.time_overrun_started (Sim.state sim') = true)
  /\ RunEval.run_over (Sim.ev sim') = RunEval.run_over (Sim.ev sim).

(** The result fields of the state and the logs of the run. *)
Definition record_view (sim : Sim) :=
  (State.stop_error_m (Sim.state sim),
   State.residual_speed_kmh (Sim.state sim), State.score (Sim.state sim),
   RunEval.notch_history (Sim.ev sim), RunEval.time_history (Sim.ev sim),
   RunEval.jerk_history (Sim.ev sim), RunEval.prev_a (Sim.ev sim)).

(** The first-brake bookkeeping is consistent: a recorded first-brake notch
    comes with its start time. *)
Definition bookkeeping_ok (sim : Sim) : Prop :=
  RunEval.first_brake_notch (Sim.ev sim) <> None ->
  RunEval.first_brake_start_t (Sim.ev sim) <> None.

(** The members of a vehicle object that the load block reads: everything
    but the total mass, the Davis coefficients, the drag coefficient and the
    frontal area, which it overwrites. *)
Definition load_inputs (vo : vehicle_obj) : vehicle_obj :=
  (set_davis_coeffs (set_mass_kg (fst vo) 0) 0 0 0, set_Cd_A (snd vo) 0 0).


(** ** Further sample data *)

(** The default vehicle with the force model on: 400 kN and 6000 kW. *)
Definition veh_powered : Vehicle :=
  Vehicle.mk 1.0 0.8 9
    [0.0; -0.20; -0.35; -0.50; -0.65; -0.80; -0.95; -1.10; -1.5]
    0.150 0.250 2073500 140.0 5 [0.250; 0.287; 0.378; 0.515; 0.694]
    400.0 6000.0 false (0.0017 * 2073500 * 9.81) 414.7 6.400625.

(** The running sample on that vehicle, the lever on the third traction
    notch. *)
Definition sim_powered : Sim := set_veh (sim_running (-3) 0 false) veh_powered.

(** A vehicle file without members: every attribute takes its default. *)
Definition json_empty : VehicleJson.VehicleJson :=
  VehicleJson.mk None None None None None None None None None None None
    None None None None None None None None None None None.

(** The running sample with the timer on and the calibration table of the
    constructor. *)
Definition sim_timed : Sim :=
  let sim := sim_running 0 0 false in
  set_state sim (set_timer_enabled (Sim.state sim) true).

(** The same with no calibration table and a static table in use. *)
Definition sim_timer_table : Sim :=
  set_timer sim_timed
    (Timer.mk true [(60%Z, 30.0); (90%Z, 45.0); (30%Z, 20.0)] 70.0 60.0 []
       2.0 100.0 300.0 1.5 5.0 300.0 12.0 110.0 0.35).

(** A float power that is constantly 1: the inverse-distance weights of the
    timer are all equal. *)
Definition pow_one : Q -> Q -> Q := fun _ _ => 1.

(** The state a sample moves to by "setInitial" with a speed and a
    distance, when the handler returns. *)
Definition after_setInitial (sim : Sim) (speed dist : Q) : Sim :=
  match on_setInitial sim (Some speed) (Some dist) None None None with
  | Some sim' => sim'
  | None => sim
  end.

(** The state a sample moves to by "advanceStation" without members, when
    the handler returns. *)
Definition after_advanceStation (sim : Sim) : Sim :=
  match on_advanceStation sim None None None with
  | Some sim' => sim'
  | None => sim
  end.
(** * Properties *)

(** ** Comparisons and Python numerics *)

Lemma Qltb_true (x y : Q) : (x <? y) = true <-> x < y.
Proof.
  unfold Qltb. rewrite negb_true_iff.
  split; intro H.
  - apply Qnot_le_lt. intro Hle. apply Qle_bool_iff in Hle. congruence.
  - destruct (Qle_bool y x) eqn:E; [|reflexivity].
    apply Qle_bool_iff in E. exfalso. apply (Qlt_not_le _ _ H E).
Qed.

Lemma Qltb_false (x y : Q) : (x <? y) = false <-> y <= x.
Proof.
  unfold Qltb. rewrite negb_false_iff. apply Qle_bool_iff.
Qed.

Lemma Qleb_true (x y : Q) : (x <=? y) = true <-> x <= y.
Proof. apply Qle_bool_iff. Qed.

Lemma Qleb_false (x y : Q) : (x <=? y) = false <-> y < x.
Proof.
  unfold Qleb. split; intro H.
  - apply Qnot_le_lt. intro Hle. apply Qle_bool_iff in Hle. congruence.
  - destruct (Qle_bool x y) eqn:E; [|reflexivity].
    apply Qle_bool_iff in E. exfalso. apply (Qlt_not_le _ _ H E).
Qed.

(** Case analysis on one comparison, leaving its meaning as a hypothesis. *)
Ltac qcase c :=
  let E := fresh "E" in
  destruct c eqn:E;
  [ first [ apply Qltb_true in E | apply Qleb_true in E ]
  | first [ apply Qltb_false in E | apply Qleb_false in E ] ].

(** Division by a constant as a product, for [lra]. *)
Ltac qdiv_const :=
  repeat match goal with
         | |- context [?a / ?c] =>
             let c' := eval cbv in (/ c) in change (a / c) with (a * c')
         | H : context [?a / ?c] |- _ =>
             let c' := eval cbv in (/ c) in change (a / c) with (a * c') in H
         end.

Lemma py_max_l (a b : Q) : a <= py_max a b.
Proof. unfold py_max. qcase (a <? b); lra. Qed.

Lemma py_max_r (a b : Q) : b <= py_max a b.
Proof. unfold py_max. qcase (a <? b); lra. Qed.

Lemma py_min_l (a b : Q) : py_min a b <= a.
Proof. unfold py_min. qcase (b <? a); lra. Qed.

Lemma py_min_r (a b : Q) : py_min a b <= b.
Proof. unfold py_min. qcase (b <? a); lra. Qed.

Lemma py_max_cases (a b : Q) :
  (a < b /\ py_max a b = b) \/ (b <= a /\ py_max a b = a).
Proof. unfold py_max. qcase (a <? b); auto. Qed.

Lemma py_min_cases (a b : Q) :
  (b < a /\ py_min a b = b) \/ (a <= b /\ py_min a b = a).
Proof. unfold py_min. qcase (b <? a); auto. Qed.

Lemma bind_Some {A B} (m : exc A) (k : A -> exc B) (b : B) :
  bind m k = Some b -> exists a, m = Some a /\ k a = Some b.
Proof. destruct m as [a|]; simpl; [eauto | discriminate]. Qed.

(** Inversion of a successful sequence of binds. *)
Ltac bind_inv H :=
  let x := fresh "x" in
  let Hx := fresh "Hx" in
  apply bind_Some in H; destruct H as (x & Hx & H).

(** ** Velocity floor *)

Lemma step_dynamics_v_nonneg (sim sim' : Sim) :
  step_dynamics sim = Some sim' -> 0 <= State.v (Sim.state sim').
Proof.
  unfold step_dynamics. intro H.
  bind_inv H.
  destruct (_wsp_update _ _ _ _) as [sim1 a_brake].
  bind_inv H.
  injection H as <-. simpl.
  eapply Qle_trans; [|apply py_max_l]. lra.
Qed.

Lemma step_finish_v (sim sim' : Sim) :
  step_finish sim = Some sim' ->
  State.v (Sim.state sim') = State.v (Sim.state sim).
Proof.
  unfold step_finish. intro H.
  destruct (negb _ && _).
  - bind_inv H. bind_inv H. destruct x0 as [avg_jerk jerk_score].
    injection H as <-. reflexivity.
  - injection H as <-. reflexivity.
Qed.

Lemma step_v_floor (sim sim' : Sim) :
  step sim = Some sim' -> 0 <= State.v (Sim.state sim').
Proof.
  unfold step. intro H.
  destruct (State.finished _).
  - injection H as <-. simpl.
    eapply Qle_trans; [|apply py_max_l]. lra.
  - bind_inv H. bind_inv H. bind_inv H.
    rewrite (step_finish_v _ _ H).
    eapply step_dynamics_v_nonneg; eassumption.
Qed.

(** C7.  Whatever the state before the tick, a tick that returns leaves a
    non-negative velocity: the frozen branch and the integration both floor
    the velocity at 0, and the finish block does not touch it. *)
Theorem step_velocity_nonneg (sim sim' : Sim) :
  step sim = Some sim' -> 0 <= State.v (Sim.state sim').
Proof. apply step_v_floor. Qed.

(** The same over any number of ticks, from a non-negative velocity. *)
Lemma run_velocity_nonneg (n : nat) (sim sim' : Sim) :
  0 <= State.v (Sim.state sim) ->
  run n sim = Some sim' -> 0 <= State.v (Sim.state sim').
Proof.
  revert sim. induction n as [|n IH]; intros sim Hv H; simpl in H.
  - injection H as <-. exact Hv.
  - bind_inv H. apply (IH x); [|exact H].
    eapply step_v_floor; eassumption.
Qed.

(** ** A tick raises no exception on a well-formed configuration *)

Lemma py_div_total (a b : Q) : ~ b == 0 -> py_div a b = Some (a / b).
Proof.
  intro Hb. unfold py_div.
  destruct (b =? 0) eqn:E; [|reflexivity].
  apply Qeq_bool_iff in E. contradiction.
Qed.

Lemma py_div_Some (a b q : Q) : py_div a b = Some q -> ~ b == 0 /\ q = a / b.
Proof.
  unfold py_div. destruct (b =? 0) eqn:E; [discriminate|].
  intro H. injection H as <-. split; [|reflexivity].
  intro Hb. apply Qeq_bool_iff in Hb. congruence.
Qed.

Lemma davis_total (sim : Sim) (v : Q) :
  veh_ok (Sim.veh sim) -> exists q, _davis_accel sim v = Some q.
Proof.
  intros [Hm _]. unfold _davis_accel.
  destruct (v <? 0.01); [eexists; reflexivity|].
  rewrite py_div_total by exact Hm. eexists; reflexivity.
Qed.

Lemma py_index_total {A} (l : list A) (i : Z) :
  (0 <= i < len l)%Z -> exists x, py_index l i = Some x.
Proof.
  intros [Hlo Hhi]. unfold py_index, len in *.
  destruct (i <? 0)%Z eqn:E; [lia|].
  destruct (nth_error l (Z.to_nat i)) eqn:En; [eauto|].
  apply nth_error_None in En. lia.
Qed.

Lemma len_pos {A} (l : list A) : l <> [] -> (0 < len l)%Z.
Proof. destruct l; [congruence|]. unfold len. simpl. lia. Qed.

Lemma compute_power_accel_total (sim : Sim) (n : Z) (v : Q) :
  veh_ok (Sim.veh sim) -> exists q, compute_power_accel sim n v = Some q.
Proof.
  intros [Hm Hf]. unfold compute_power_accel.
  destruct (n >=? 0)%Z; [eexists; reflexivity|].
  destruct (_ && _).
  - destruct (Vehicle.maxSpeed_kmh _ >=? 200);
      destruct (_ <=? 1)%Z;
      rewrite py_div_total by exact Hm; eexists; reflexivity.
  - apply len_pos in Hf.
    destruct (py_index_total (Vehicle.forward_notch_accels (Sim.veh sim))
                (Z.max 0 (Z.min (- n - 1)
                   (len (Vehicle.forward_notch_accels (Sim.veh sim)) - 1))))
      as [x Hx]; [lia|].
    rewrite Hx. eexists; reflexivity.
Qed.

Lemma rollout_pass_total (sim : Sim) (notch : Z) (rem_now limit : Q)
    (r : Rollout) :
  veh_ok (Sim.veh sim) ->
  exists p, rollout_pass sim notch rem_now limit r = Some p.
Proof.
  intro Hok. unfold rollout_pass.
  assert (Hp : exists q,
             (if (notch <? 0)%Z then compute_power_accel sim notch (r_v r)
              else ret 0.0) = Some q).
  { destruct (notch <? 0)%Z; [|eexists; reflexivity].
    apply compute_power_accel_total; exact Hok. }
  destruct Hp as [q ->]. cbv beta iota delta [bind].
  destruct (brake_split_lag _ _ _ _ _ _) as [be ba].
  destruct (davis_total sim (r_v r) Hok) as [d Hd].
  destruct (match r_wsp_state r with
            | wsp_normal => _ | wsp_release => _ | wsp_reapply => _ end)
    as [[m tm] ab].
  rewrite Hd.
  destruct (notch =? 0)%Z; eexists; reflexivity.
Qed.

Lemma rollout_loop_total (sim : Sim) (notch : Z) (rem_now limit : Q)
    (n : nat) (r : Rollout) :
  veh_ok (Sim.veh sim) ->
  exists r', rollout_loop sim notch rem_now limit n r = Some r'.
Proof.
  intro Hok. revert r. induction n as [|n IH]; intro r; simpl.
  - eexists; reflexivity.
  - destruct (rollout_pass_total sim notch rem_now limit r Hok) as [[r1 b] ->].
    simpl. destruct b; [eexists; reflexivity | apply IH].
Qed.

Lemma stopping_distance_total (sim : Sim) (notch : Z) (v : Q) :
  veh_ok (Sim.veh sim) -> exists d, _stopping_distance sim notch v = Some d.
Proof.
  intro Hok. unfold _stopping_distance, _estimate_stop_distance.
  destruct (notch <=? 0)%Z; [eexists; reflexivity|].
  edestruct (rollout_loop_total sim notch) as [r' ->]; [exact Hok|].
  eexists; reflexivity.
Qed.

(** Destructs the scrutinee of some [match] or [if] of the goal. *)
Ltac break_goal :=
  match goal with
  | |- context [match ?c with _ => _ end] =>
      lazymatch c with
      | context [match _ with _ => _ end] => fail
      | _ => destruct c eqn:?
      end
  end.

Lemma frame_inv (sim sim' : Sim) :
  frame sim' = frame sim ->
  Sim.veh sim' = Sim.veh sim /\ Sim.scn sim' = Sim.scn sim
  /\ State.t (Sim.state sim') = State.t (Sim.state sim)
  /\ State.v (Sim.state sim') = State.v (Sim.state sim)
  /\ State.finished (Sim.state sim') = State.finished (Sim.state sim)
  /\ RunEval.first_brake_notch (Sim.ev sim')
     = RunEval.first_brake_notch (Sim.ev sim)
  /\ RunEval.first_brake_start_t (Sim.ev sim')
     = RunEval.first_brake_start_t (Sim.ev sim).
Proof.
  unfold frame. intro H. injection H. auto 10.
Qed.

Lemma apply_command_frame (sim : Sim) (cmd : Cmd) :
  frame (_apply_command sim cmd) = frame sim.
Proof.
  unfold _apply_command. repeat break_goal; reflexivity.
Qed.

Lemma drain_frame (queue : list Cmd) (sim : Sim) :
  frame (drain sim queue) = frame sim.
Proof.
  revert sim. induction queue as [|c q IH]; intro sim; simpl.
  - reflexivity.
  - destruct (_ <=? _); [|reflexivity].
    rewrite IH. apply apply_command_frame.
Qed.

Lemma tasc_predict_config (sim sim' : Sim) (n : Z) (v : Q) r :
  _tasc_predict sim n v = Some (sim', r) ->
  Sim.veh sim' = Sim.veh sim /\ Sim.scn sim' = Sim.scn sim
  /\ Sim.state sim' = Sim.state sim /\ Sim.ev sim' = Sim.ev sim.
Proof.
  unfold _tasc_predict. intro H.
  destruct (negb _).
  - injection H as <- <-. auto.
  - bind_inv H. bind_inv H. bind_inv H. injection H as <- <-. auto.
Qed.

Lemma tasc_predict_total (sim : Sim) (n : Z) (v : Q) :
  veh_ok (Sim.veh sim) -> exists p, _tasc_predict sim n v = Some p.
Proof.
  intro Hok. unfold _tasc_predict.
  destruct (negb _); [eexists; reflexivity|].
  assert (H1 : exists d,
            (if (n >? 0)%Z then _stopping_distance sim n v else ret Inf)
            = Some d).
  { destruct (n >? 0)%Z; [apply stopping_distance_total; exact Hok|].
    eexists; reflexivity. }
  assert (H2 : exists d,
            (if (n + 1 <=? Vehicle.notches (Sim.veh sim) - 2)%Z
             then _stopping_distance sim (n + 1) v else ret (Fin 0.0))
            = Some d).
  { destruct (_ <=? _)%Z; [apply stopping_distance_total; exact Hok|].
    eexists; reflexivity. }
  assert (H3 : exists d,
            (if (n - 1 >=? 1)%Z then _stopping_distance sim (n - 1) v
             else ret Inf) = Some d).
  { destruct (_ >=? _)%Z; [apply stopping_distance_total; exact Hok|].
    eexists; reflexivity. }
  destruct H1 as [d1 ->], H2 as [d2 ->], H3 as [d3 ->].
  eexists; reflexivity.
Qed.

Lemma step_tasc_config (sim sim' : Sim) :
  step_tasc sim = Some sim' ->
  Sim.veh sim' = Sim.veh sim /\ Sim.scn sim' = Sim.scn sim.
Proof.
  unfold step_tasc. intro H.
  destruct (Tasc.tasc_enabled (Sim.tasc sim)
            && negb (State.finished (Sim.state sim)));
    [|injection H as <-; auto].
  match type of H with
  | context [set_tasc sim ?tc] => set (tc1 := tc) in *
  end.
  destruct (Tasc.tasc_active tc1); [|injection H as <-; auto].
  destruct (negb (RunEval.first_brake_done (Sim.ev (set_tasc sim tc1))));
    [injection H as <-; auto|].
  bind_inv H. destruct x as [sim1 [[s_cur s_up] s_dn]].
  apply tasc_predict_config in Hx. destruct Hx as (Hv & Hs & _).
  simpl in Hv, Hs.
  revert H. cbv beta iota zeta.
  repeat (break_goal; cbv beta iota zeta);
    intro H; injection H as <-; simpl; auto.
Qed.

Lemma step_record_frame (sim : Sim) : frame (step_record sim) = frame sim.
Proof. reflexivity. Qed.

Lemma step_first_brake_total (sim : Sim) :
  (RunEval.first_brake_notch (Sim.ev sim) <> None ->
   RunEval.first_brake_start_t (Sim.ev sim) <> None) ->
  exists sim', step_first_brake sim = Some sim'
               /\ Sim.veh sim' = Sim.veh sim /\ Sim.scn sim' = Sim.scn sim.
Proof.
  intro Hc. unfold step_first_brake.
  destruct (negb (RunEval.seen_zero_notch (Sim.ev sim))
            && (State.lever_notch (Sim.state sim) =? 0)%Z);
    cbv beta iota zeta; simpl RunEval.first_brake_done;
    simpl RunEval.seen_zero_notch; simpl RunEval.first_brake_notch;
    simpl RunEval.first_brake_start_t; simpl RunEval.notch_history.
  all: destruct (negb (RunEval.first_brake_done (Sim.ev sim)) && _ && _);
    [|eexists; split; [reflexivity|auto]].
  all: destruct (RunEval.first_brake_notch (Sim.ev sim)) as [n|] eqn:En;
    [ destruct (State.lever_notch (Sim.state sim) =? n)%Z;
      [ destruct (RunEval.first_brake_start_t (Sim.ev sim)) as [t0|];
        [ destruct (_ >=? 0.999); eexists; (split; [reflexivity|auto])
        | exfalso; apply Hc; congruence ]
      | eexists; split; [reflexivity|auto] ]
    | destruct (_ && _); eexists; (split; [reflexivity|auto]) ].
Qed.

Lemma step_countdown_config (sim : Sim) :
  Sim.veh (step_countdown sim) = Sim.veh sim
  /\ Sim.scn (step_countdown sim) = Sim.scn sim.
Proof.
  unfold step_countdown. repeat break_goal; auto.
Qed.

Lemma step_tasc_total (sim : Sim) :
  veh_ok (Sim.veh sim) -> exists sim', step_tasc sim = Some sim'.
Proof.
  intro Hok. unfold step_tasc.
  destruct (Tasc.tasc_enabled (Sim.tasc sim)
            && negb (State.finished (Sim.state sim)));
    [|eexists; reflexivity].
  match goal with
  | |- context [set_tasc sim ?tc] => set (tc1 := tc)
  end.
  destruct (Tasc.tasc_active tc1); [|eexists; reflexivity].
  destruct (negb (RunEval.first_brake_done (Sim.ev (set_tasc sim tc1))));
    [eexists; reflexivity|].
  destruct (tasc_predict_total (set_tasc sim tc1)
              (State.internal_notch (Sim.state sim))
              (State.v (Sim.state sim)) Hok)
    as [[sim1 [[s_cur s_up] s_dn]] ->].
  cbv beta iota zeta delta [bind].
  repeat (break_goal; cbv beta iota zeta); eexists; reflexivity.
Qed.

Lemma step_dynamics_total (sim : Sim) :
  veh_ok (Sim.veh sim) ->
  exists sim', step_dynamics sim = Some sim'
               /\ Sim.veh sim' = Sim.veh sim /\ Sim.scn sim' = Sim.scn sim.
Proof.
  intro Hok. unfold step_dynamics.
  assert (Hp : exists q,
            (if State.atc_overspeed (Sim.state sim)
             then compute_power_accel sim
                    (Z.max (State.lever_notch (Sim.state sim))
                       (State.internal_notch (Sim.state sim)))
                    (State.v (Sim.state sim))
             else compute_power_accel sim (State.lever_notch (Sim.state sim))
                    (State.v (Sim.state sim))) = Some q).
  { destruct (State.atc_overspeed _); apply compute_power_accel_total; exact Hok. }
  destruct Hp as [q ->]. cbv beta iota zeta delta [bind].
  destruct (_wsp_update _ _ _ _) as [sim1 a_brake] eqn:Ew.
  assert (Hc : Sim.veh sim1 = Sim.veh sim /\ Sim.scn sim1 = Sim.scn sim
               /\ Brake.rr_factor (Sim.brk sim1) = Brake.rr_factor (Sim.brk sim)).
  { revert Ew. unfold _wsp_update, _update_brake_dyn_split.
    destruct (brake_split_lag _ _ _ _ _ _) as [e a].
    cbv beta iota zeta. simpl.
    repeat break_goal; intro H; injection H as <- _; auto. }
  destruct Hc as (Hv & Hs & Hr).
  assert (Hok1 : veh_ok (Sim.veh sim1)) by (rewrite Hv; exact Hok).
  destruct (davis_total sim1 (State.v (Sim.state sim)) Hok1) as [d ->].
  eexists. split; [reflexivity|]. simpl. auto.
Qed.

Lemma compute_jerk_score_total (sim : Sim) :
  ~ Scenario.dt (Sim.scn sim) == 0 -> exists p, compute_jerk_score sim = Some p.
Proof.
  intro Hdt. unfold compute_jerk_score.
  rewrite py_div_total by exact Hdt. cbv beta iota zeta delta [bind].
  repeat (break_goal; cbv beta iota zeta); eexists; reflexivity.
Qed.

Lemma step_finish_total (sim : Sim) :
  ~ Scenario.dt (Sim.scn sim) == 0 -> exists sim', step_finish sim = Some sim'.
Proof.
  intro Hdt. unfold step_finish.
  destruct (negb _ && _); [|eexists; reflexivity].
  rewrite py_div_total by exact Hdt. cbv beta iota zeta delta [bind].
  match goal with
  | |- context [compute_jerk_score ?s] =>
      destruct (compute_jerk_score_total s Hdt) as [[avg js] ->]
  end.
  eexists; reflexivity.
Qed.

(** On a vehicle of non-zero mass with a traction table, a non-zero time
    step and consistent first-brake bookkeeping, [step] returns a state. *)
Theorem step_total (sim : Sim) :
  veh_ok (Sim.veh sim) ->
  ~ Scenario.dt (Sim.scn sim) == 0 ->
  (RunEval.first_brake_notch (Sim.ev sim) <> None ->
   RunEval.first_brake_start_t (Sim.ev sim) <> None) ->
  exists sim', step sim = Some sim'.
Proof.
  intros Hok Hdt Hc. unfold step.
  pose proof (drain_frame (Sim._cmd_queue sim) sim) as Hf.
  set (sim0 := drain sim (Sim._cmd_queue sim)) in *.
  pose proof (step_record_frame sim0) as Hr. rewrite Hf in Hr.
  set (sim1 := step_record sim0) in *.
  apply frame_inv in Hr. destruct Hr as (Hveh & Hscn & _ & _ & _ & Hn & Ht).
  destruct (State.finished (Sim.state sim1)); [eexists; reflexivity|].
  destruct (step_first_brake_total sim1) as (sim2 & -> & Hv2 & Hs2).
  { rewrite Hn, Ht. exact Hc. }
  cbv beta iota zeta delta [bind].
  destruct (step_countdown_config sim2) as [Hv3 Hs3].
  destruct (step_tasc_total (step_countdown sim2)) as [sim4 H4].
  { rewrite Hv3, Hv2, Hveh. exact Hok. }
  rewrite H4. apply step_tasc_config in H4. destruct H4 as [Hv4 Hs4].
  destruct (step_dynamics_total sim4) as (sim5 & -> & Hv5 & Hs5).
  { rewrite Hv4, Hv3, Hv2, Hveh. exact Hok. }
  apply step_finish_total.
  rewrite Hs5, Hs4, Hs3, Hs2, Hscn. exact Hdt.
Qed.

(** ** Score normalisation *)

Lemma py_round_nearest (x : Q) :
  inject_Z (py_round x) - (1 # 2) <= x /\ x <= inject_Z (py_round x) + (1 # 2).
Proof.
  pose proof (Qfloor_le x) as Hlo.
  pose proof (Qlt_floor x) as Hhi.
  unfold py_round.
  rewrite inject_Z_plus in Hhi. change (inject_Z 1) with 1 in Hhi.
  qcase (x - inject_Z (Qfloor x) <? 0.5).
  - split; lra.
  - qcase (0.5 <? x - inject_Z (Qfloor x)).
    + rewrite inject_Z_plus. change (inject_Z 1) with 1. split; lra.
    + destruct (Z.even (Qfloor x)).
      * split; lra.
      * rewrite inject_Z_plus. change (inject_Z 1) with 1. split; lra.
Qed.

Lemma py_round_range (x : Q) (lo hi : Z) :
  inject_Z lo <= x -> x <= inject_Z hi -> (lo <= py_round x <= hi)%Z.
Proof.
  intros Hlo Hhi.
  destruct (py_round_nearest x) as [H1 H2].
  assert (Ha : inject_Z lo < inject_Z (py_round x) + 1) by lra.
  assert (Hb : inject_Z (py_round x) < inject_Z hi + 1) by lra.
  change 1 with (inject_Z 1) in Ha, Hb.
  rewrite <- inject_Z_plus in Ha, Hb.
  rewrite <- Zlt_Qlt in Ha, Hb. lia.
Qed.

Lemma normalize_score_eq (raw : Z) :
  exists norm : Q,
    normalize_score raw = py_round norm
    /\ norm == inject_Z (clamp_score raw - 300) * (100 # 900).
Proof.
  unfold normalize_score, clamp_score.
  set (c := if (_ >? 1200)%Z then _ else _).
  assert (Hc : c = Z.max 300 (Z.min 1200 raw)).
  { subst c. destruct (raw <? 300)%Z eqn:E1.
    - destruct (300 >? 1200)%Z eqn:E2; lia.
    - destruct (raw >? 1200)%Z eqn:E2; lia. }
  rewrite Hc.
  set (norm := inject_Z (Z.max 300 (Z.min 1200 raw) - 300)
               / inject_Z (1200 - 300) * 100).
  assert (Hn : norm == inject_Z (Z.max 300 (Z.min 1200 raw) - 300) * (100 # 900)).
  { subst norm. change (inject_Z (1200 - 300)) with (900 # 1). field. }
  assert (H0 : 0 <= norm /\ norm <= 100).
  { rewrite Hn.
    assert (Hz : (0 <= Z.max 300 (Z.min 1200 raw) - 300 <= 900)%Z) by lia.
    destruct Hz as [Hz1 Hz2].
    rewrite Zle_Qle in Hz1, Hz2.
    change (inject_Z 0) with 0 in Hz1.
    change (inject_Z 900) with (900 # 1) in Hz2.
    split; lra. }
  exists (py_max 0 (py_min 100 norm)). split; [reflexivity|].
  rewrite <- Hn.
  destruct (py_min_cases 100 norm) as [[Ha ->]|[Ha ->]].
  - destruct (py_max_cases 0 norm) as [[Hb ->]|[Hb ->]]; lra.
  - destruct (py_max_cases 0 100) as [[Hb ->]|[Hb ->]]; lra.
Qed.

Lemma normalize_score_range (raw : Z) : (0 <= normalize_score raw <= 100)%Z.
Proof.
  destruct (normalize_score_eq raw) as (norm & -> & Hn).
  assert (Hz : (0 <= clamp_score raw - 300 <= 900)%Z)
    by (unfold clamp_score; lia).
  destruct Hz as [Hz1 Hz2].
  rewrite Zle_Qle in Hz1, Hz2.
  change (inject_Z 0) with 0 in Hz1.
  change (inject_Z 900) with (900 # 1) in Hz2.
  apply py_round_range.
  - change (inject_Z 0) with 0. lra.
  - change (inject_Z 100) with 100. lra.
Qed.

Lemma normalize_score_nearest (raw : Z) :
  Qabs (inject_Z (normalize_score raw)
        - inject_Z (clamp_score raw - 300) * (100 # 900)) <= 1 # 2.
Proof.
  destruct (normalize_score_eq raw) as (norm & -> & Hn).
  destruct (py_round_nearest norm) as [H1 H2].
  apply Qabs_case; intro; lra.
Qed.

(** ** What the phases before the finish block keep *)

Lemma apply_command_kept (sim : Sim) (cmd : Cmd) :
  kept (_apply_command sim cmd) = kept sim.
Proof.
  unfold _apply_command. repeat break_goal; reflexivity.
Qed.

Lemma drain_kept (queue : list Cmd) (sim : Sim) :
  kept (drain sim queue) = kept sim.
Proof.
  revert sim. induction queue as [|c q IH]; intro sim; simpl.
  - reflexivity.
  - destruct (_ <=? _); [|reflexivity].
    rewrite IH. apply apply_command_kept.
Qed.

Lemma step_first_brake_kept (sim sim' : Sim) :
  step_first_brake sim = Some sim' -> kept sim' = kept sim.
Proof.
  unfold step_first_brake. cbv beta iota zeta.
  repeat (break_goal; cbv beta iota zeta);
    intro H; first [discriminate H | injection H as <-; reflexivity].
Qed.

Lemma step_countdown_kept (sim : Sim) : kept (step_countdown sim) = kept sim.
Proof.
  unfold step_countdown. repeat break_goal; reflexivity.
Qed.

Lemma step_tasc_kept (sim sim' : Sim) :
  step_tasc sim = Some sim' -> kept sim' = kept sim.
Proof.
  unfold step_tasc. intro H.
  destruct (Tasc.tasc_enabled (Sim.tasc sim)
            && negb (State.finished (Sim.state sim)));
    [|injection H as <-; auto].
  match type of H with
  | context [set_tasc sim ?tc] => set (tc1 := tc) in *
  end.
  destruct (Tasc.tasc_active tc1); [|injection H as <-; auto].
  destruct (negb (RunEval.first_brake_done (Sim.ev (set_tasc sim tc1))));
    [injection H as <-; auto|].
  bind_inv H. destruct x as [sim1 [[s_cur s_up] s_dn]].
  apply tasc_predict_config in Hx. destruct Hx as (_ & _ & Hst & Hev).
  simpl in Hst, Hev.
  revert H. cbv beta iota zeta.
  repeat (break_goal; cbv beta iota zeta);
    intro H; injection H as <-; unfold kept; simpl; rewrite ?Hst, ?Hev;
    reflexivity.
Qed.

Lemma step_dynamics_kept (sim sim' : Sim) :
  step_dynamics sim = Some sim' -> kept sim' = kept sim.
Proof.
  unfold step_dynamics. intro H.
  bind_inv H.
  destruct (_wsp_update _ _ _ _) as [sim1 a_brake] eqn:Ew.
  assert (Hc : Sim.ev sim1 = Sim.ev sim).
  { revert Ew. unfold _wsp_update, _update_brake_dyn_split.
    destruct (brake_split_lag _ _ _ _ _ _) as [e a].
    cbv beta iota zeta. simpl.
    repeat break_goal; intro H'; injection H' as <- _; auto. }
  bind_inv H. injection H as <-.
  unfold kept. simpl. rewrite Hc. reflexivity.
Qed.

(** The state after the phases that precede the finish block. *)
Lemma step_phases (sim sim' : Sim) :
  step sim = Some sim' ->
  State.finished (Sim.state sim) = false ->
  exists sim5,
    step_finish sim5 = Some sim'
    /\ State.finished (Sim.state sim5) = false
    /\ State.score (Sim.state sim5) = State.score (Sim.state sim)
    /\ RunEval.notch_history (Sim.ev sim5)
       = RunEval.notch_history
           (Sim.ev (step_record (drain sim (Sim._cmd_queue sim)))).
Proof.
  unfold step. intros H Hfin.
  pose proof (drain_kept (Sim._cmd_queue sim) sim) as Hk.
  set (sim0 := drain sim (Sim._cmd_queue sim)) in *.
  assert (Hk1 : State.finished (Sim.state (step_record sim0)) = false
                /\ State.score (Sim.state (step_record sim0))
                   = State.score (Sim.state sim)).
  { unfold kept in Hk. injection Hk as Hf Hs _. simpl. rewrite Hs, Hf. auto. }
  destruct Hk1 as [Hf1 Hs1].
  set (sim1 := step_record sim0) in *.
  rewrite Hf1 in H.
  bind_inv H. apply step_first_brake_kept in Hx.
  pose proof (step_countdown_kept x) as Hk3.
  bind_inv H. apply step_tasc_kept in Hx0.
  bind_inv H. apply step_dynamics_kept in Hx1.
  exists x1. split; [exact H|].
  rewrite Hx0, Hk3, Hx in Hx1. unfold kept in Hx1.
  injection Hx1 as -> -> ->. auto.
Qed.

(** The same tick with its phases named: each phase returns, and feeds
    the next one. *)
Lemma step_chain (sim sim' : Sim) :
  step sim = Some sim' ->
  State.finished (Sim.state sim) = false ->
  exists sim2 sim4 sim5,
    step_first_brake (step_record (drain sim (Sim._cmd_queue sim)))
    = Some sim2
    /\ step_tasc (step_countdown sim2) = Some sim4
    /\ step_dynamics sim4 = Some sim5
    /\ step_finish sim5 = Some sim'
    /\ State.finished (Sim.state sim5) = false
    /\ RunEval.notch_history (Sim.ev sim5)
       = RunEval.notch_history
           (Sim.ev (step_record (drain sim (Sim._cmd_queue sim)))).
Proof.
  unfold step. intros H Hfin.
  pose proof (drain_kept (Sim._cmd_queue sim) sim) as Hk.
  set (sim0 := drain sim (Sim._cmd_queue sim)) in *.
  assert (Hf1 : State.finished (Sim.state (step_record sim0)) = false).
  { unfold kept in Hk. injection Hk as Hf _ _. simpl. rewrite Hf. exact Hfin. }
  set (sim1 := step_record sim0) in *.
  rewrite Hf1 in H.
  bind_inv H. pose proof (step_first_brake_kept _ _ Hx) as Hk2.
  pose proof (step_countdown_kept x) as Hk3.
  bind_inv H. pose proof (step_tasc_kept _ _ Hx0) as Hk4.
  bind_inv H. pose proof (step_dynamics_kept _ _ Hx1) as Hk5.
  exists x, x0, x1.
  split; [exact Hx|]. split; [exact Hx0|]. split; [exact Hx1|].
  split; [exact H|].
  rewrite Hk4, Hk3, Hk2 in Hk5. unfold kept in Hk5.
  injection Hk5 as Hf5 _ Hn5. rewrite Hf5, Hn5. auto.
Qed.

(** ** Final score *)

Lemma step_finish_score (sim sim' : Sim) :
  step_finish sim = Some sim' ->
  State.finished (Sim.state sim) = false ->
  State.finished (Sim.state sim') = true ->
  exists raw : Z, State.score (Sim.state sim') = Some (normalize_score raw).
Proof.
  unfold step_finish. intros H Hf Hf'.
  destruct (negb _ && _).
  - bind_inv H. bind_inv H. destruct x0 as [avg_jerk jerk_score].
    injection H as <-. simpl. eexists; reflexivity.
  - injection H as <-. congruence.
Qed.


(** The jerk term of the finish block: the sample of the finishing tick is
    appended to the jerk history, and the score is computed on the history
    so extended. *)
Lemma step_finish_scored (sim sim' : Sim) :
  step_finish sim = Some sim' ->
  State.finished (Sim.state sim) = false ->
  State.finished (Sim.state sim') = true ->
  let st := Sim.state sim in
  let e := Sim.ev sim in
  let err := Scenario.L (Sim.scn sim) - State.s st in
  let jerk :=
    Qabs ((State.a st - RunEval.prev_a e) / Scenario.dt (Sim.scn sim)) in
  let scored :=
    set_ev sim (set_jerk e (State.a st) (RunEval.jerk_history e ++ [jerk])) in
  exists avg_jerk jerk_score : Q,
    compute_jerk_score scored = Some (avg_jerk, jerk_score)
    /\ State.score (Sim.state sim')
       = Some (normalize_score
                 (raw_score sim (score_before_jerk sim err) jerk_score)).
Proof.
  unfold step_finish. intros H Hf Hf'. cbv zeta.
  destruct (negb _ && _).
  - bind_inv H. apply py_div_Some in Hx. destruct Hx as [_ ->].
    bind_inv H. destruct x as [avg_jerk jerk_score].
    injection H as <-. exists avg_jerk, jerk_score.
    split; [exact Hx | reflexivity].
  - injection H as <-. congruence.
Qed.

(** C3.  On the tick that completes a run the finish block stores, as the
    score, the raw total of the run clamped to [[300, 1200]], rescaled to
    [[0, 100]] and rounded to the nearest integer: an integer between 0 and
    100, within one half of the rescaled value.  The raw total is the sum
    of the terms before the jerk term, of the integer part of the jerk
    score that [compute_jerk_score] returns on the jerk history extended by
    the sample of this tick, and of the obstacle penalty, all taken on the
    unfinished state that the phases of the tick before the finish block
    (due commands, recording, first-brake check, countdown, controller and
    dynamics) left. *)
Theorem final_score_normalized (sim sim' : Sim) :
  step sim = Some sim' ->
  State.finished (Sim.state sim) = false ->
  State.finished (Sim.state sim') = true ->
  exists (braked controlled before_finish : Sim) (avg_jerk jerk_score : Q),
    step_first_brake (step_record (drain sim (Sim._cmd_queue sim)))
    = Some braked
    /\ step_tasc (step_countdown braked) = Some controlled
    /\ step_dynamics controlled = Some before_finish
    /\ step_finish before_finish = Some sim'
    /\ State.finished (Sim.state before_finish) = false
    /\ RunEval.notch_history (Sim.ev before_finish)
       = RunEval.notch_history
           (Sim.ev (step_record (drain sim (Sim._cmd_queue sim))))
    /\ let st := Sim.state before_finish in
       let e := Sim.ev before_finish in
       let err := Scenario.L (Sim.scn before_finish) - State.s st in
       let jerk :=
         Qabs ((State.a st - RunEval.prev_a e)
               / Scenario.dt (Sim.scn before_finish)) in
       let scored :=
         set_ev before_finish
           (set_jerk e (State.a st) (RunEval.jerk_history e ++ [jerk])) in
       let raw :=
         raw_score before_finish (score_before_jerk before_finish err)
           jerk_score in
       compute_jerk_score scored = Some (avg_jerk, jerk_score)
       /\ State.score (Sim.state sim') = Some (normalize_score raw)
       /\ (0 <= normalize_score raw <= 100)%Z
       /\ Qabs (inject_Z (normalize_score raw)
                - inject_Z (clamp_score raw - 300) * (100 # 900)) <= 1 # 2.
Proof.
  intros H Hf Hf'.
  destruct (step_chain sim sim' H Hf)
    as (sim2 & sim4 & sim5 & H2 & H4 & H5 & Hfin & Hf5 & Hnh).
  destruct (step_finish_scored sim5 sim' Hfin Hf5 Hf')
    as (aj & js & Hjs & Hraw).
  exists sim2, sim4, sim5, aj, js.
  split; [exact H2|]. split; [exact H4|]. split; [exact H5|].
  split; [exact Hfin|]. split; [exact Hf5|]. split; [exact Hnh|].
  cbv zeta. split; [exact Hjs|]. split; [exact Hraw|]. split.
  - apply normalize_score_range.
  - apply normalize_score_nearest.
Qed.

(** A stored score stays a stored score in [[0, 100]] over every tick. *)
Lemma step_score_range (sim sim' : Sim) :
  (forall z, State.score (Sim.state sim) = Some z -> (0 <= z <= 100)%Z) ->
  step sim = Some sim' ->
  forall z, State.score (Sim.state sim') = Some z -> (0 <= z <= 100)%Z.
Proof.
  intros Hinv H z Hz.
  destruct (State.finished (Sim.state sim)) eqn:Hf.
  - unfold step in H.
    pose proof (drain_kept (Sim._cmd_queue sim) sim) as Hk.
    set (sim0 := drain sim (Sim._cmd_queue sim)) in *.
    unfold kept in Hk. injection Hk as Hf0 Hs0 _.
    change (State.finished (Sim.state (step_record sim0)))
      with (State.finished (Sim.state sim0)) in H.
    rewrite Hf0, Hf in H. injection H as <-.
    simpl in Hz. rewrite Hs0 in Hz. apply Hinv; exact Hz.
  - destruct (step_phases sim sim' H Hf) as (sim5 & Hfin & Hf5 & Hs5 & _).
    destruct (State.finished (Sim.state sim')) eqn:Hf'.
    + destruct (step_finish_score sim5 sim' Hfin Hf5 Hf') as [raw Hraw].
      rewrite Hraw in Hz. injection Hz as <-. apply normalize_score_range.
    + unfold step_finish in Hfin.
      destruct (negb _ && _).
      * bind_inv Hfin. bind_inv Hfin. destruct x0 as [aj js].
        injection Hfin as <-. simpl in Hf'. discriminate.
      * injection Hfin as <-. rewrite Hs5 in Hz. apply Hinv; exact Hz.
Qed.

(** ** Staircase classifier *)

(** C9.  A history whose collapsed sequence, cut after its last traction
    entry, has fewer than five elements is never a staircase. *)
Theorem stair_pattern_needs_five (notches : list Z) :
  (len (remove_negative_values (remove_adjacent_duplicates notches)) < 5)%Z ->
  is_stair_pattern notches = false.
Proof.
  intro H. unfold is_stair_pattern.
  destruct (_ <? 5)%Z eqn:E; [reflexivity|].
  apply Z.ltb_ge in E. lia.
Qed.

(** The two histories of the specification, and the short rise and fall. *)
Example stair_rise_and_fall :
  is_stair_pattern [0; 0; 1; 1; 2; 2; 3; 3; 2; 2; 1; 1]%Z = true.
Proof. reflexivity. Qed.

Example stair_never_descends :
  is_stair_pattern [0; 1; 2; 3; 4; 5]%Z = false.
Proof. reflexivity. Qed.

Example stair_short_rise_and_fall :
  remove_negative_values (remove_adjacent_duplicates [0; 1; 2; 1]%Z)
  = [0; 1; 2; 1]%Z
  /\ is_stair_pattern [0; 1; 2; 1]%Z = false.
Proof. split; reflexivity. Qed.

(** The cut keeps exactly what follows the last negative entry. *)
Lemma last_negative_below_spec (l : list Z) (i : nat) :
  match last_negative_below l i with
  | Some j =>
      (j < i)%nat
      /\ (exists x, nth_error l j = Some x /\ (x < 0)%Z)
      /\ forall k x, (j < k < i)%nat -> nth_error l k = Some x -> (0 <= x)%Z
  | None =>
      forall k x, (k < i)%nat -> nth_error l k = Some x -> (0 <= x)%Z
  end.
Proof.
  induction i as [|i IH]; simpl.
  - intros k x Hk. lia.
  - destruct (nth_error l i) as [y|] eqn:Ey.
    + destruct (y <? 0)%Z eqn:Ey0.
      * apply Z.ltb_lt in Ey0. split; [lia|]. split; [eauto|].
        intros k x Hk. lia.
      * apply Z.ltb_ge in Ey0.
        destruct (last_negative_below l i) as [j|].
        -- destruct IH as (Hj & Hx & Hall). split; [lia|]. split; [exact Hx|].
           intros k x Hk Hn.
           destruct (Nat.eq_dec k i) as [->|Hne].
           ++ congruence.
           ++ apply (Hall k x); [lia|exact Hn].
        -- intros k x Hk Hn.
           destruct (Nat.eq_dec k i) as [->|Hne].
           ++ congruence.
           ++ apply (IH k x); [lia|exact Hn].
    + destruct (last_negative_below l i) as [j|].
      * destruct IH as (Hj & Hx & Hall). split; [lia|]. split; [exact Hx|].
        intros k x Hk Hn.
        destruct (Nat.eq_dec k i) as [->|Hne].
        -- congruence.
        -- apply (Hall k x); [lia|exact Hn].
      * intros k x Hk Hn.
        destruct (Nat.eq_dec k i) as [->|Hne].
        -- congruence.
        -- apply (IH k x); [lia|exact Hn].
Qed.

Lemma remove_negative_values_nonneg (l : list Z) :
  Forall (fun x => (0 <= x)%Z) (remove_negative_values l).
Proof.
  unfold remove_negative_values.
  pose proof (last_negative_below_spec l (List.length l)) as H.
  destruct (last_negative_below l (List.length l)) as [j|].
  - destruct H as (Hj & _ & Hall).
    apply Forall_forall. intros x Hin.
    apply In_nth_error in Hin. destruct Hin as [k Hk].
    rewrite nth_error_skipn in Hk.
    apply (Hall (S j + k)%nat x); [|exact Hk].
    assert (S j + k < List.length l)%nat.
    { apply nth_error_Some. congruence. }
    lia.
  - apply Forall_forall. intros x Hin.
    apply In_nth_error in Hin. destruct Hin as [k Hk].
    apply (H k x); [|exact Hk].
    apply nth_error_Some. congruence.
Qed.

(** ** Final-notch comfort rule *)


Lemma py_last_app {A} (l : list A) (x : A) : py_last (l ++ [x]) = Some x.
Proof.
  unfold py_last. rewrite map_app. simpl. apply last_last.
Qed.

Lemma py_last_nonempty (l : list Z) :
  l <> [] -> py_last l = Some (last l 0%Z).
Proof.
  intro Hl. destruct (exists_last Hl) as (l' & x & ->).
  rewrite py_last_app, last_last. reflexivity.
Qed.



(** ** Emergency brake *)

Lemma effective_brake_accel_ext (sim1 sim2 : Sim) (n : Z) (v : Q) :
  Sim.veh sim1 = Sim.veh sim2 -> Sim.scn sim1 = Sim.scn sim2 ->
  _effective_brake_accel sim1 n v = _effective_brake_accel sim2 n v.
Proof.
  intros Hv Hs. unfold _effective_brake_accel. rewrite Hv, Hs. reflexivity.
Qed.

Lemma apply_emergency_brake (sim : Sim) (t0 : Q) (val : Z) :
  0 < State.v (Sim.state sim) ->
  _apply_command sim (mkCmd t0 "emergencyBrake" val)
  = set_ev
      (set_state sim
         (set_lever_notch (Sim.state sim) (Vehicle.notches (Sim.veh sim) - 1)))
      (set_eb_used (Sim.ev sim) true).
Proof.
  intro Hv. unfold _apply_command.
  cbn [cmd_name cmd_val String.eqb Ascii.eqb Bool.eqb].
  assert (E : (State.v (Sim.state sim) >? 0) = true) by (apply Qltb_true; exact Hv).
  rewrite E.
  cbn [Sim.state Sim.ev Sim.veh set_ev set_state set_lever_notch
       State.lever_notch State.v].
  assert (E0 : (State.v (Sim.state sim) =? 0.0) = false).
  { destruct (State.v (Sim.state sim) =? 0.0) eqn:E1; [|reflexivity].
    apply Qeq_bool_iff in E1. lra. }
  rewrite E0, andb_false_r. reflexivity.
Qed.

(** C6.  Issued at a positive velocity, the emergency-brake command sets
    [eb_used], leaves the latency queue and the clock as they are, puts the
    lever on the emergency notch, and writes the brake blend and the command
    filter to the emergency deceleration commanded at the current speed. *)
Theorem emergency_brake_immediate (sim : Sim) (val : Z) :
  0 < State.v (Sim.state sim) ->
  let sim' := queue_command sim "emergencyBrake" val in
  let v := State.v (Sim.state sim) in
  let a_eb := _effective_brake_accel sim (Vehicle.notches (Sim.veh sim) - 1) v in
  let w := _blend_w_regen v in
  RunEval.eb_used (Sim.ev sim') = true
  /\ Sim._cmd_queue sim' = Sim._cmd_queue sim
  /\ State.t (Sim.state sim') = State.t (Sim.state sim)
  /\ State.lever_notch (Sim.state sim') = (Vehicle.notches (Sim.veh sim) - 1)%Z
  /\ Brake.brk_elec (Sim.brk sim') = a_eb * w
  /\ Brake.brk_air (Sim.brk sim') = a_eb * (1.0 - w)
  /\ Brake.brk_accel (Sim.brk sim') == a_eb
  /\ Brake._a_cmd_filt (Sim.brk sim') = a_eb.
Proof.
  intros Hv sim' v a_eb w. subst sim'.
  unfold queue_command.
  cbn [String.eqb Ascii.eqb Bool.eqb].
  rewrite (apply_emergency_brake sim _ val Hv).
  cbn [Sim.state Sim.ev Sim.veh Sim.brk Sim._cmd_queue set_ev set_state
       set_lever_notch State.lever_notch State.v State.t].
  rewrite Z.eqb_refl.
  cbn [Sim.state Sim.ev Sim.veh Sim.brk Sim._cmd_queue set_ev set_state
       set_brk set_a_cmd_filt set_brake_split set_eb_used
       RunEval.eb_used State.lever_notch State.v State.t
       Brake.brk_elec Brake.brk_air Brake.brk_accel Brake._a_cmd_filt].
  match goal with
  | |- context [_effective_brake_accel ?s _ _] =>
      rewrite (effective_brake_accel_ext s sim) by reflexivity
  end.
  fold v. fold a_eb. fold w.
  repeat split; try reflexivity. ring.
Qed.

(** ** Reset *)

Lemma compute_time_budget_ext (sim1 sim2 : Sim) :
  Sim.timer sim1 = Sim.timer sim2 ->
  Sim.scn sim1 = Sim.scn sim2 ->
  State.timer_enabled (Sim.state sim1) = State.timer_enabled (Sim.state sim2) ->
  _compute_time_budget sim1 = _compute_time_budget sim2.
Proof.
  intros Ht Hs He.
  unfold _compute_time_budget, _compute_time_budget_auto, _idw_predict_time,
    _formula_time.
  rewrite Ht, Hs, He. reflexivity.
Qed.

(** The simulator a reset returns, given the budget it computed. *)
Lemma reset_inv (sim sim1 : Sim) :
  reset sim = Some sim1 ->
  exists budget : Q,
    (if State.timer_enabled (Sim.state sim)
     then _compute_time_budget sim else ret 0.0) = Some budget
    /\ sim1 = reset_to sim budget.
Proof.
  unfold reset. intro H.
  destruct (negb (Tasc.tasc_active (Sim.tasc sim))) eqn:Ea;
    cbv beta iota zeta in H; bind_inv H; injection H as <-;
    exists x;
    (split; [|unfold reset_to; rewrite Ea; reflexivity]);
    cbn [State.timer_enabled State.make] in Hx;
    rewrite <- Hx;
    (destruct (State.timer_enabled (Sim.state sim)) eqn:Ete; [|reflexivity]);
    apply compute_time_budget_ext; try reflexivity;
    cbn [Sim.state State.timer_enabled]; rewrite Ete; reflexivity.
Qed.




(** The controller phase is outside [State]: a reset keeps the phase and the
    peak notch of a controller that was active, and the next reset clears
    them.  From the second reset on, the whole simulator is a fixed point. *)
Lemma reset_phase_carried (sim sim1 : Sim) :
  reset sim = Some sim1 ->
  Tasc.tasc_active (Sim.tasc sim1) = false
  /\ Tasc._tasc_phase (Sim.tasc sim1)
     = (if Tasc.tasc_active (Sim.tasc sim) then Tasc._tasc_phase (Sim.tasc sim)
        else phase_build)
  /\ Tasc._tasc_peak_notch (Sim.tasc sim1)
     = (if Tasc.tasc_active (Sim.tasc sim)
        then Tasc._tasc_peak_notch (Sim.tasc sim) else 1%Z).
Proof.
  unfold reset. intro H.
  destruct (Tasc.tasc_active (Sim.tasc sim));
    cbv beta iota zeta in H; bind_inv H; injection H as <-;
    repeat split; reflexivity.
Qed.

(** ** Notch bounds *)

Lemma clamp_notch_ext (sim1 sim2 : Sim) (n : Z) :
  Sim.veh sim1 = Sim.veh sim2 -> _clamp_notch sim1 n = _clamp_notch sim2 n.
Proof. intro H. unfold _clamp_notch. rewrite H. reflexivity. Qed.

Lemma len_nonneg {A} (l : list A) : (0 <= len l)%Z.
Proof. unfold len. lia. Qed.

Lemma clamp_notch_range (sim : Sim) (n : Z) :
  (2 <= len (Vehicle.notch_accels (Sim.veh sim)))%Z ->
  (- len (Vehicle.forward_notch_accels (Sim.veh sim)) <= _clamp_notch sim n
   <= len (Vehicle.notch_accels (Sim.veh sim)) - 2)%Z.
Proof.
  intro H. unfold _clamp_notch.
  pose proof (len_nonneg (Vehicle.forward_notch_accels (Sim.veh sim))). lia.
Qed.

Lemma clamp_notch_id (sim : Sim) (n : Z) :
  (- len (Vehicle.forward_notch_accels (Sim.veh sim)) <= n
   <= len (Vehicle.notch_accels (Sim.veh sim)) - 2)%Z ->
  _clamp_notch sim n = n.
Proof. intro H. unfold _clamp_notch. lia. Qed.

Lemma apply_command_lever (sim : Sim) (cmd : Cmd) :
  State.lever_notch (Sim.state (_apply_command sim cmd))
  = if String.eqb (cmd_name cmd) "stepNotch" then
      _clamp_notch sim (State.lever_notch (Sim.state sim) + cmd_val cmd)
    else if String.eqb (cmd_name cmd) "release" then 0%Z
    else if String.eqb (cmd_name cmd) "emergencyBrake" then
      (Vehicle.notches (Sim.veh sim) - 1)%Z
    else if String.eqb (cmd_name cmd) "setNotch" then
      _clamp_notch sim (cmd_val cmd)
    else State.lever_notch (Sim.state sim).
Proof.
  unfold _apply_command. repeat break_goal; reflexivity.
Qed.

Lemma apply_command_internal (sim : Sim) (cmd : Cmd) :
  State.internal_notch (Sim.state (_apply_command sim cmd))
  = if String.eqb (cmd_name cmd) "stepNotch" then
      State.internal_notch (Sim.state sim)
    else if String.eqb (cmd_name cmd) "release" then
      State.internal_notch (Sim.state sim)
    else if String.eqb (cmd_name cmd) "emergencyBrake" then
      State.internal_notch (Sim.state sim)
    else if String.eqb (cmd_name cmd) "setNotch" then
      State.internal_notch (Sim.state sim)
    else if String.eqb (cmd_name cmd) "setInternalNotch" then
      _clamp_notch sim (cmd_val cmd)
    else State.internal_notch (Sim.state sim).
Proof.
  unfold _apply_command. repeat break_goal; reflexivity.
Qed.

(** The internal notch after the TASC block: unchanged, one up from a value
    below the strongest service notch, or one down from a value above 1,
    clamped in both cases. *)
Lemma step_tasc_internal (sim sim' : Sim) :
  step_tasc sim = Some sim' ->
  let cur := State.internal_notch (Sim.state sim) in
  State.internal_notch (Sim.state sim') = cur
  \/ ((cur < Vehicle.notches (Sim.veh sim) - 2)%Z
      /\ State.internal_notch (Sim.state sim') = _clamp_notch sim (cur + 1))
  \/ ((1 < cur)%Z
      /\ State.internal_notch (Sim.state sim') = _clamp_notch sim (cur - 1)).
Proof.
  intros H cur. unfold step_tasc in H.
  destruct (Tasc.tasc_enabled (Sim.tasc sim)
            && negb (State.finished (Sim.state sim)));
    [|injection H as <-; auto].
  match type of H with
  | context [set_tasc sim ?tc] => set (tc1 := tc) in *
  end.
  destruct (Tasc.tasc_active tc1); [|injection H as <-; auto].
  destruct (negb (RunEval.first_brake_done (Sim.ev (set_tasc sim tc1))));
    [injection H as <-; auto|].
  bind_inv H. destruct x as [sim1 [[s_cur s_up] s_dn]].
  apply tasc_predict_config in Hx. destruct Hx as (Hveh & _ & Hst & _).
  cbn [Sim.veh Sim.state set_tasc] in Hveh, Hst.
  revert H. cbv beta iota zeta.
  repeat (break_goal; cbv beta iota zeta);
    intro H; injection H as <-;
    cbn [Sim.state Sim.veh set_state set_tasc set_internal_notch
         State.internal_notch];
    rewrite ?Hst;
    repeat match goal with
           | H : _ && _ = true |- _ =>
               apply andb_true_iff in H; destruct H
           | H : (_ <? _)%Z = true |- _ => apply Z.ltb_lt in H
           | H : (_ >? _)%Z = true |- _ => apply Z.gtb_lt in H
           end;
    first
      [ left; reflexivity
      | right; left; split; [assumption|];
        apply clamp_notch_ext; cbn [Sim.veh set_state set_tasc]; congruence
      | right; right; split; [assumption|];
        apply clamp_notch_ext; cbn [Sim.veh set_state set_tasc]; congruence ].
Qed.

(** With no [setInternalNotch] command in the queue, the range
    [[0, notches - 2]] of the internal notch is kept by every tick; a reset
    puts the internal notch on 0. *)
Lemma drain_internal (queue : list Cmd) (sim : Sim) :
  no_internal_cmd queue ->
  State.internal_notch (Sim.state (drain sim queue))
  = State.internal_notch (Sim.state sim).
Proof.
  intro Hq. revert sim. induction Hq as [|c q Hc Hq IH]; intro sim; simpl.
  - reflexivity.
  - destruct (_ <=? _); [|reflexivity].
    rewrite IH, apply_command_internal.
    apply String.eqb_neq in Hc. rewrite Hc.
    repeat break_goal; reflexivity.
Qed.

Lemma step_first_brake_internal (sim sim' : Sim) :
  step_first_brake sim = Some sim' ->
  Sim.state sim' = Sim.state sim /\ Sim.veh sim' = Sim.veh sim.
Proof.
  unfold step_first_brake. cbv beta iota zeta.
  repeat (break_goal; cbv beta iota zeta);
    intro H; first [discriminate H | injection H as <-; split; reflexivity].
Qed.

Lemma step_countdown_internal (sim : Sim) :
  State.internal_notch (Sim.state (step_countdown sim))
  = State.internal_notch (Sim.state sim)
  /\ Sim.veh (step_countdown sim) = Sim.veh sim.
Proof.
  unfold step_countdown. repeat break_goal; split; reflexivity.
Qed.

Lemma step_dynamics_internal (sim sim' : Sim) :
  step_dynamics sim = Some sim' ->
  State.internal_notch (Sim.state sim') = State.internal_notch (Sim.state sim)
  /\ Sim.veh sim' = Sim.veh sim.
Proof.
  unfold step_dynamics. intro H.
  bind_inv H.
  destruct (_wsp_update _ _ _ _) as [sim1 a_brake] eqn:Ew.
  assert (Hc : Sim.veh sim1 = Sim.veh sim).
  { revert Ew. unfold _wsp_update, _update_brake_dyn_split.
    destruct (brake_split_lag _ _ _ _ _ _) as [e a].
    cbv beta iota zeta. simpl.
    repeat break_goal; intro H'; injection H' as <- _; auto. }
  bind_inv H. injection H as <-. split; [reflexivity | exact Hc].
Qed.

Lemma step_finish_internal (sim sim' : Sim) :
  step_finish sim = Some sim' ->
  State.internal_notch (Sim.state sim') = State.internal_notch (Sim.state sim)
  /\ Sim.veh sim' = Sim.veh sim.
Proof.
  unfold step_finish. intro H.
  destruct (negb _ && _).
  - bind_inv H. bind_inv H. destruct x0 as [avg_jerk jerk_score].
    injection H as <-. split; reflexivity.
  - injection H as <-. split; reflexivity.
Qed.

Lemma step_keeps_internal_range (sim sim' : Sim) :
  len (Vehicle.notch_accels (Sim.veh sim)) = Vehicle.notches (Sim.veh sim) ->
  (2 <= Vehicle.notches (Sim.veh sim))%Z ->
  no_internal_cmd (Sim._cmd_queue sim) ->
  internal_in_range sim ->
  step sim = Some sim' ->
  internal_in_range sim'.
Proof.
  unfold internal_in_range. intros Hlen Hn Hq Hr H.
  pose proof (drain_internal (Sim._cmd_queue sim) sim Hq) as Hd.
  pose proof (drain_frame (Sim._cmd_queue sim) sim) as Hfr.
  apply frame_inv in Hfr. destruct Hfr as (Hveh & _).
  unfold step in H.
  set (sim0 := drain sim (Sim._cmd_queue sim)) in *.
  assert (H1 : State.internal_notch (Sim.state (step_record sim0))
               = State.internal_notch (Sim.state sim)
               /\ Sim.veh (step_record sim0) = Sim.veh sim).
  { unfold step_record. simpl. auto. }
  destruct H1 as [Hi1 Hv1].
  set (sim1 := step_record sim0) in *.
  destruct (State.finished (Sim.state sim1)).
  - injection H as <-.
    change (0 <= State.internal_notch (Sim.state sim1)
            <= Vehicle.notches (Sim.veh sim1) - 2)%Z.
    rewrite Hi1, Hv1. exact Hr.
  - bind_inv H. apply step_first_brake_internal in Hx.
    destruct Hx as [Hs2 Hv2].
    destruct (step_countdown_internal x) as [Hi3 Hv3].
    bind_inv H.
    pose proof (step_tasc_config _ _ Hx) as [Hv4 _].
    pose proof (step_tasc_internal _ _ Hx) as Hi4. cbv zeta in Hi4.
    bind_inv H. apply step_dynamics_internal in Hx0.
    destruct Hx0 as [Hi5 Hv5].
    apply step_finish_internal in H. destruct H as [Hi6 Hv6].
    assert (Hvs : Sim.veh (step_countdown x) = Sim.veh sim)
      by (rewrite Hv3, Hv2; exact Hv1).
    assert (His : State.internal_notch (Sim.state (step_countdown x))
                  = State.internal_notch (Sim.state sim))
      by (rewrite Hi3, Hs2; exact Hi1).
    rewrite Hi6, Hi5, Hv6, Hv5, Hv4, Hvs.
    pose proof (len_nonneg
                  (Vehicle.forward_notch_accels (Sim.veh (step_countdown x))))
      as Hfw.
    assert (Hid : forall n,
               (0 <= n <= Vehicle.notches (Sim.veh sim) - 2)%Z ->
               _clamp_notch (step_countdown x) n = n).
    { intros n Hb. apply clamp_notch_id. rewrite Hvs, Hlen.
      rewrite Hvs in Hfw. lia. }
    rewrite His, Hvs in Hi4.
    destruct Hi4 as [Hi | [[Hlt Hi] | [Hgt Hi]]]; rewrite Hi.
    + exact Hr.
    + rewrite Hid; lia.
    + rewrite Hid; lia.
Qed.

Lemma reset_internal_range (sim sim1 : Sim) :
  (2 <= Vehicle.notches (Sim.veh sim))%Z ->
  reset sim = Some sim1 ->
  internal_in_range sim1 /\ no_internal_cmd (Sim._cmd_queue sim1).
Proof.
  intros Hn H. destruct (reset_inv sim sim1 H) as (b & _ & ->).
  unfold internal_in_range. cbn. split; [lia | constructor].
Qed.

(** The internal notch over a whole tick whose queue holds no
    [setInternalNotch] command: unchanged, or written by the controller. *)
Lemma step_internal_written (sim sim' : Sim) :
  len (Vehicle.notch_accels (Sim.veh sim)) = Vehicle.notches (Sim.veh sim) ->
  (2 <= Vehicle.notches (Sim.veh sim))%Z ->
  no_internal_cmd (Sim._cmd_queue sim) ->
  step sim = Some sim' ->
  let cur := State.internal_notch (Sim.state sim) in
  let new := State.internal_notch (Sim.state sim') in
  let hi := (Vehicle.notches (Sim.veh sim) - 2)%Z in
  (0 <= cur <= hi)%Z -> new = cur \/ (1 <= new <= hi)%Z.
Proof.
  intros Hlen Hn Hq H. cbv zeta. intro Hr.
  pose proof (drain_internal (Sim._cmd_queue sim) sim Hq) as Hd.
  pose proof (drain_frame (Sim._cmd_queue sim) sim) as Hfr.
  apply frame_inv in Hfr. destruct Hfr as (Hveh & _).
  unfold step in H.
  set (sim0 := drain sim (Sim._cmd_queue sim)) in *.
  assert (H1 : State.internal_notch (Sim.state (step_record sim0))
               = State.internal_notch (Sim.state sim)
               /\ Sim.veh (step_record sim0) = Sim.veh sim).
  { unfold step_record. simpl. auto. }
  destruct H1 as [Hi1 Hv1].
  set (sim1 := step_record sim0) in *.
  destruct (State.finished (Sim.state sim1)).
  - injection H as <-. left.
    change (State.internal_notch (Sim.state sim1)
            = State.internal_notch (Sim.state sim)).
    exact Hi1.
  - bind_inv H. apply step_first_brake_internal in Hx.
    destruct Hx as [Hs2 Hv2].
    destruct (step_countdown_internal x) as [Hi3 Hv3].
    bind_inv H.
    pose proof (step_tasc_config _ _ Hx) as [Hv4 _].
    pose proof (step_tasc_internal _ _ Hx) as Hi4. cbv zeta in Hi4.
    bind_inv H. apply step_dynamics_internal in Hx0.
    destruct Hx0 as [Hi5 Hv5].
    apply step_finish_internal in H. destruct H as [Hi6 Hv6].
    assert (Hvs : Sim.veh (step_countdown x) = Sim.veh sim)
      by (rewrite Hv3, Hv2; exact Hv1).
    assert (His : State.internal_notch (Sim.state (step_countdown x))
                  = State.internal_notch (Sim.state sim))
      by (rewrite Hi3, Hs2; exact Hi1).
    rewrite Hi6, Hi5.
    pose proof (len_nonneg
                  (Vehicle.forward_notch_accels (Sim.veh (step_countdown x))))
      as Hfw.
    assert (Hid : forall n,
               (0 <= n <= Vehicle.notches (Sim.veh sim) - 2)%Z ->
               _clamp_notch (step_countdown x) n = n).
    { intros n Hb. apply clamp_notch_id. rewrite Hvs, Hlen.
      rewrite Hvs in Hfw. lia. }
    rewrite His, Hvs in Hi4.
    destruct Hi4 as [Hi | [[Hlt Hi] | [Hgt Hi]]]; rewrite Hi.
    + left. reflexivity.
    + right. rewrite Hid; lia.
    + right. rewrite Hid; lia.
Qed.

(** C5, as the code has it.  On a vehicle whose notch table has [notches]
    entries, at least two: the driver commands [stepNotch], [setNotch] and
    [release] leave the lever in [[-len(forward table), notches - 2]], the
    emergency-brake command puts it on [notches - 1], and no other command
    moves it; the [setInternalNotch] command writes an internal notch in
    the same range as the lever; a notch written by the controller block is
    never above [notches - 2]; from an internal notch in [[0, notches - 2]]
    at its entry the controller block writes only values in
    [[1, notches - 2]]; and over a whole tick whose queue holds no
    [setInternalNotch] command, an internal notch that is in
    [[0, notches - 2]] before the tick is unchanged after it or in
    [[1, notches - 2]]. *)
Theorem notch_bounds (sim : Sim) :
  len (Vehicle.notch_accels (Sim.veh sim)) = Vehicle.notches (Sim.veh sim) ->
  (2 <= Vehicle.notches (Sim.veh sim))%Z ->
  let lo := (- len (Vehicle.forward_notch_accels (Sim.veh sim)))%Z in
  let hi := (Vehicle.notches (Sim.veh sim) - 2)%Z in
  (forall sim',
     step_tasc sim = Some sim' ->
     let cur := State.internal_notch (Sim.state sim) in
     let new := State.internal_notch (Sim.state sim') in
     (new <> cur -> (lo <= new <= hi)%Z)
     /\ ((0 <= cur <= hi)%Z -> new = cur \/ (1 <= new <= hi)%Z))
  /\ (forall cmd,
        let new := State.lever_notch (Sim.state (_apply_command sim cmd)) in
        let new_internal :=
          State.internal_notch (Sim.state (_apply_command sim cmd)) in
        (cmd_name cmd = "emergencyBrake"%string -> new = (hi + 1)%Z)
        /\ (cmd_name cmd = "stepNotch"%string
            \/ cmd_name cmd = "setNotch"%string
            \/ cmd_name cmd = "release"%string -> (lo <= new <= hi)%Z)
        /\ (cmd_name cmd <> "emergencyBrake"%string ->
            cmd_name cmd <> "stepNotch"%string ->
            cmd_name cmd <> "setNotch"%string ->
            cmd_name cmd <> "release"%string ->
            new = State.lever_notch (Sim.state sim))
        /\ (cmd_name cmd = "setInternalNotch"%string ->
            (lo <= new_internal <= hi)%Z)
        /\ (cmd_name cmd <> "setInternalNotch"%string ->
            new_internal = State.internal_notch (Sim.state sim)))
  /\ (forall sim',
        step sim = Some sim' ->
        no_internal_cmd (Sim._cmd_queue sim) ->
        let cur := State.internal_notch (Sim.state sim) in
        let new := State.internal_notch (Sim.state sim') in
        (0 <= cur <= hi)%Z -> new = cur \/ (1 <= new <= hi)%Z).
Proof.
  intros Hlen Hn lo hi.
  assert (Hlen2 : (2 <= len (Vehicle.notch_accels (Sim.veh sim)))%Z)
    by (rewrite Hlen; exact Hn).
  pose proof (len_nonneg (Vehicle.forward_notch_accels (Sim.veh sim))) as Hf.
  split; [|split].
  - intros sim' H cur new.
    pose proof (step_tasc_internal sim sim' H) as Hi.
    cbv zeta in Hi. fold cur new in Hi.
    pose proof (clamp_notch_range sim (cur + 1) Hlen2) as Hup.
    pose proof (clamp_notch_range sim (cur - 1) Hlen2) as Hdn.
    rewrite Hlen in Hup, Hdn. fold lo hi in Hup, Hdn.
    split.
    + intro Hne.
      destruct Hi as [Hi | [[_ Hi] | [_ Hi]]];
        [contradiction | rewrite Hi; exact Hup | rewrite Hi; exact Hdn].
    + intro Hcur.
      destruct Hi as [Hi | [[Hlt Hi] | [Hgt Hi]]]; [left; exact Hi | |].
      * right. rewrite Hi. rewrite clamp_notch_id; [subst hi; lia|].
        rewrite Hlen. subst hi. lia.
      * right. rewrite Hi. rewrite clamp_notch_id; [subst hi; lia|].
        rewrite Hlen. subst hi. lia.
  - intros cmd new new_internal. subst new new_internal.
    rewrite apply_command_lever, apply_command_internal.
    pose proof (clamp_notch_range sim
                  (State.lever_notch (Sim.state sim) + cmd_val cmd) Hlen2) as H1.
    pose proof (clamp_notch_range sim (cmd_val cmd) Hlen2) as H2.
    rewrite Hlen in H1, H2. fold lo hi in H1, H2.
    split; [|split; [|split; [|split]]].
    + intros ->. cbn. subst hi. lia.
    + intros [-> | [-> | ->]]; cbn; [exact H1 | exact H2 | subst lo hi; lia].
    + intros He Hs Hn' Hr.
      apply String.eqb_neq in He, Hs, Hn', Hr.
      rewrite Hs, Hr, He, Hn'. reflexivity.
    + intros ->. cbn. exact H2.
    + intro Hi. apply String.eqb_neq in Hi. rewrite Hi.
      repeat break_goal; reflexivity.
  - intros sim' H Hq cur new Hcur.
    exact (step_internal_written sim sim' Hlen Hn Hq H Hcur).
Qed.

(** ** Effective notch *)

(** C1, as the code has it.  The tick is the pipeline of the specification
    with two notches: the traction term uses the maximum of the driver and
    the internal notch when the overspeed flag is set and the driver notch
    otherwise; the braking term, the non-positive clamp and the jerk
    relaxation use the maximum of the two whatever the flag. *)
Theorem tick_uses_two_notches (sim : Sim) :
  step_dynamics sim
  = dynamics_with (spec_effective_notch (Sim.state sim))
      (Z.max (State.lever_notch (Sim.state sim))
             (State.internal_notch (Sim.state sim)))
      sim.
Proof.
  unfold step_dynamics, dynamics_with, spec_effective_notch.
  destruct (State.atc_overspeed (Sim.state sim)); reflexivity.
Qed.

(** With the flag unset and the internal notch not above the driver notch,
    the driver notch alone drives the tick. *)
Lemma tick_driver_notch_alone (sim : Sim) :
  State.atc_overspeed (Sim.state sim) = false ->
  (State.internal_notch (Sim.state sim) <= State.lever_notch (Sim.state sim))%Z ->
  step_dynamics sim
  = dynamics_with (State.lever_notch (Sim.state sim))
      (State.lever_notch (Sim.state sim)) sim.
Proof.
  intros Hf Hle. unfold step_dynamics, dynamics_with.
  rewrite Hf. rewrite Z.max_l by exact Hle. reflexivity.
Qed.

(** ** Jerk score *)

(** The window is a trailing part of the jerk history, of [int(1.0 / dt)]
    samples once the history holds that many. *)
Lemma jerk_window_trailing (sim : Sim) (w : list Q) :
  jerk_window sim = Some w ->
  exists earlier, RunEval.jerk_history (Sim.ev sim) = earlier ++ w.
Proof.
  unfold jerk_window. intro H. bind_inv H. injection H as <-.
  destruct (_ >=? _)%Z.
  - unfold py_slice_from.
    eexists. symmetry. apply firstn_skipn.
  - exists []. reflexivity.
Qed.

Lemma jerk_window_length (sim : Sim) (w : list Q) (q : Q) :
  py_div 1.0 (Scenario.dt (Sim.scn sim)) = Some q ->
  (0 < py_int q <= len (RunEval.jerk_history (Sim.ev sim)))%Z ->
  jerk_window sim = Some w ->
  len w = py_int q.
Proof.
  intros Hq [Hlo Hhi] H. unfold jerk_window in H. rewrite Hq in H.
  cbv beta iota zeta delta [bind] in H. injection H as <-.
  destruct (_ >=? _)%Z eqn:E; [|rewrite Z.geb_leb in E; apply Z.leb_gt in E; lia].
  unfold py_slice_from.
  destruct (- py_int q <? 0)%Z eqn:E2; [|apply Z.ltb_ge in E2; lia].
  unfold len in *. rewrite length_skipn. lia.
Qed.

(** C2, as the code has it, for an adjusted jerk above 10.  The adjusted
    jerk is the mean of the window times [1 + min(1, k / 10)], [k] the
    number of samples of the window above 30.  Above 10 and up to 21.6 the
    score is 500; between 21.6 and 24 it falls linearly to 0; above 24 it
    is 0.  The multiplier exceeds 1 as soon as one sample is above 30, so
    also when more than a tenth of the samples are, and is 2 from ten such
    samples on. *)
Theorem jerk_score_bands (sim : Sim) (w : list Q) :
  jerk_window sim = Some w ->
  w <> [] ->
  let k := window_high_count w in
  let m := 1 + py_min 1 (inject_Z k / 10) in
  let adj := window_mean w * m in
  exists sc : Q,
    compute_jerk_score sim = Some (adj, sc)
    /\ (10 < adj -> adj <= 21.6 -> sc == 500)
    /\ (21.6 < adj -> adj <= 24 ->
        sc == 500 * (24 - adj) / (24 - 21.6) /\ 0 <= sc /\ sc < 500)
    /\ (24 < adj -> sc == 0)
    /\ ((len w < 10 * k)%Z -> 1 < m)
    /\ ((1 <= k)%Z -> 1 < m) /\ ((10 <= k)%Z -> m == 2) /\ (k = 0%Z -> m == 1).
Proof.
  intros Hw Hne k m adj.
  unfold jerk_window in Hw. bind_inv Hw. injection Hw as Hw.
  unfold compute_jerk_score. rewrite Hx. cbv beta iota zeta delta [bind].
  rewrite Hw.
  destruct w as [|j0 w']; [congruence|].
  fold (window_mean (j0 :: w')). fold (window_high_count (j0 :: w')).
  fold k. fold m. fold adj.
  assert (Hk0 : (0 <= k)%Z) by (subst k; unfold window_high_count; apply len_nonneg).
  assert (Hm : forall z : Z, (z <= k)%Z -> (0 < z)%Z ->
               1 + py_min 1 (inject_Z z / 10) <= m).
  { intros z Hz Hz0. subst m.
    rewrite Zle_Qle in Hz.
    destruct (py_min_cases 1 (inject_Z z / 10)) as [[Ha ->]|[Ha ->]];
      destruct (py_min_cases 1 (inject_Z k / 10)) as [[Hb ->]|[Hb ->]];
      qdiv_const; lra. }
  assert (Hk1 : (1 <= k)%Z -> 1 < m).
  { intro H1. specialize (Hm 1%Z H1 eq_refl).
    change (1 + py_min 1 (inject_Z 1 / 10)) with (1 + py_min 1 (1 / 10)) in Hm.
    destruct (py_min_cases 1 (1 / 10)) as [[_ E]|[Hc _]]; [rewrite E in Hm|];
      qdiv_const; lra. }
  qcase (adj <=? 10).
  - exists 0. split; [reflexivity|].
    repeat split; try (intros; exfalso; lra); try assumption.
    + intro Hlen.
      assert (0 < len (j0 :: w'))%Z by (apply len_pos; congruence).
      apply Hk1. lia.
    + intro H10. subst m. rewrite Zle_Qle in H10.
      change (inject_Z 10) with 10 in H10.
      destruct (py_min_cases 1 (inject_Z k / 10)) as [[Hb ->]|[Hb ->]];
        qdiv_const; lra.
    + intros ->. subst m. change (inject_Z 0 / 10) with (0 / 10).
      destruct (py_min_cases 1 (0 / 10)) as [[Hb ->]|[Hb ->]];
        qdiv_const; lra.
  - eexists. split; [reflexivity|].
    split; [|split; [|split; [|split; [|split; [|split]]]]].
    + intros _ Hle. qcase (adj <=? 21.6); [reflexivity | exfalso; lra].
    + intros Hlo Hhi. qcase (adj <=? 21.6); [exfalso; lra|].
      qcase (adj <=? 24); [|exfalso; lra].
      split; [reflexivity|].
      assert (Heq : 500 * (24 - adj) / (24 - 21.6) == (24 - adj) * (500 / 2.4))
        by field.
      rewrite Heq. qdiv_const. split; lra.
    + intro Hhi. qcase (adj <=? 21.6); [exfalso; lra|].
      qcase (adj <=? 24); [exfalso; lra | reflexivity].
    + intro Hlen.
      assert (0 < len (j0 :: w'))%Z by (apply len_pos; congruence).
      apply Hk1. lia.
    + exact Hk1.
    + intro H10. subst m. rewrite Zle_Qle in H10.
      change (inject_Z 10) with 10 in H10.
      destruct (py_min_cases 1 (inject_Z k / 10)) as [[Hb ->]|[Hb ->]];
        qdiv_const; lra.
    + intros ->. subst m. change (inject_Z 0 / 10) with (0 / 10).
      destruct (py_min_cases 1 (0 / 10)) as [[Hb ->]|[Hb ->]];
        qdiv_const; lra.
Qed.

(** ** Braking command and predicted stopping distance *)

Lemma effective_brake_accel_within (sim : Sim) (n : Z) (v : Q) :
  (0 < n < len (Vehicle.notch_accels (Sim.veh sim)))%Z ->
  within_adhesion sim n ->
  _effective_brake_accel sim n v = table_accel sim n.
Proof.
  intros [Hlo Hhi] Hw. unfold within_adhesion, adhesion_cap in Hw.
  unfold _effective_brake_accel, table_accel in *.
  destruct (n <=? 0)%Z eqn:E1; [apply Z.leb_le in E1; lia|].
  destruct (n >=? len _)%Z eqn:E2; [apply Z.geb_le in E2; lia|].
  cbv zeta.
  set (base := nth (Z.to_nat n) (Vehicle.notch_accels (Sim.veh sim)) 0) in *.
  set (a_cap := - (if (n =? Vehicle.notches (Sim.veh sim) - 1)%Z
                   then 0.98 else 0.85)
                * Scenario.mu (Sim.scn sim) * 9.81) in *.
  destruct (py_max_cases base a_cap) as [[Hc E]|[Hc E]]; [lra|].
  rewrite E.
  qcase (base <=? a_cap + 0.000001); [lra | reflexivity].
Qed.

Lemma effective_brake_accel_derated (sim : Sim) (n : Z) (v : Q) :
  (0 < n < len (Vehicle.notch_accels (Sim.veh sim)))%Z ->
  table_accel sim n <= adhesion_cap sim n + 0.000001 ->
  _effective_brake_accel sim n v
  = adhesion_cap sim n * (if v >? 8.0 then 0.90 else 0.85).
Proof.
  intros [Hlo Hhi] Hw. unfold adhesion_cap in *.
  unfold _effective_brake_accel, table_accel in *.
  destruct (n <=? 0)%Z eqn:E1; [apply Z.leb_le in E1; lia|].
  destruct (n >=? len _)%Z eqn:E2; [apply Z.geb_le in E2; lia|].
  cbv zeta.
  set (base := nth (Z.to_nat n) (Vehicle.notch_accels (Sim.veh sim)) 0) in *.
  set (a_cap := - (if (n =? Vehicle.notches (Sim.veh sim) - 1)%Z
                   then 0.98 else 0.85)
                * Scenario.mu (Sim.scn sim) * 9.81) in *.
  destruct (py_max_cases base a_cap) as [[Hc E]|[Hc E]]; rewrite E.
  - qcase (a_cap <=? a_cap + 0.000001); [reflexivity | lra].
  - qcase (base <=? a_cap + 0.000001); [reflexivity | lra].
Qed.

(** C4, as the code has it.  What is ordered by the notch is the commanded
    deceleration: for adjacent braking notches whose table values are
    ordered and both clear of the adhesion ceiling, the command of notch
    [n + 1] is at least as strong as that of notch [n] at every speed.  A
    table value at or beyond the ceiling is replaced by the derated
    ceiling, which is weaker than any command of notch [n] below it.  A
    notch that does not brake has an infinite predicted distance, a braking
    notch a finite one. *)
Theorem brake_command_monotone (sim : Sim) (n : Z) (v : Q) :
  (0 < n)%Z ->
  (n + 1 < len (Vehicle.notch_accels (Sim.veh sim)))%Z ->
  within_adhesion sim n ->
  (within_adhesion sim (n + 1) ->
   table_accel sim (n + 1) <= table_accel sim n ->
   _effective_brake_accel sim (n + 1) v <= _effective_brake_accel sim n v)
  /\ (table_accel sim (n + 1) <= adhesion_cap sim (n + 1) + 0.000001 ->
      table_accel sim n
      < adhesion_cap sim (n + 1) * (if v >? 8.0 then 0.90 else 0.85) ->
      _effective_brake_accel sim n v < _effective_brake_accel sim (n + 1) v)
  /\ (forall m : Z, (m <= 0)%Z -> _stopping_distance sim m v = Some Inf)
  /\ (veh_ok (Sim.veh sim) ->
      forall m : Z, (0 < m)%Z ->
      exists d : Q, _stopping_distance sim m v = Some (Fin d)).
Proof.
  intros Hn Hlen Hw. split; [|split; [|split]].
  - intros Hw' Hord.
    rewrite (effective_brake_accel_within sim n v) by (auto; lia).
    rewrite (effective_brake_accel_within sim (n + 1) v) by (auto; lia).
    exact Hord.
  - intros Hd Hlt.
    rewrite (effective_brake_accel_within sim n v) by (auto; lia).
    rewrite (effective_brake_accel_derated sim (n + 1) v) by (auto; lia).
    exact Hlt.
  - intros m Hm. unfold _stopping_distance.
    destruct (m <=? 0)%Z eqn:E; [reflexivity|].
    apply Z.leb_gt in E. lia.
  - intros Hok m Hm. unfold _stopping_distance, _estimate_stop_distance.
    destruct (m <=? 0)%Z eqn:E; [apply Z.leb_le in E; lia|].
    edestruct (rollout_loop_total sim m) as [r' ->]; [exact Hok|].
    eexists; reflexivity.
Qed.

(** * Further properties of the engine *)

(** ** The filters of the notch history *)

Lemma adjacent_distinct_tail (x : Z) (l : list Z) :
  adjacent_distinct (x :: l) -> adjacent_distinct l.
Proof. destruct l as [|y l]; simpl; [auto | intros [_ H]; exact H]. Qed.

Lemma adjacent_distinct_skipn (n : nat) (l : list Z) :
  adjacent_distinct l -> adjacent_distinct (skipn n l).
Proof.
  revert l. induction n as [|n IH]; intros l H; [exact H|].
  destruct l as [|x l]; [exact H|].
  simpl. apply IH. eapply adjacent_distinct_tail; exact H.
Qed.

Lemma dedup_after_distinct (p : Z) (l : list Z) :
  adjacent_distinct (p :: dedup_after p l).
Proof.
  revert p. induction l as [|x l IH]; intro p.
  - exact I.
  - cbn [dedup_after]. destruct (x =? p)%Z eqn:E; cbn [negb].
    + apply IH.
    + apply Z.eqb_neq in E. split; [congruence | apply IH].
Qed.

Lemma dedup_after_fixed (p : Z) (l : list Z) :
  adjacent_distinct (p :: l) -> dedup_after p l = l.
Proof.
  revert p. induction l as [|x l IH]; intros p H; [reflexivity|].
  destruct H as [Hne H]. cbn [dedup_after].
  destruct (x =? p)%Z eqn:E.
  - apply Z.eqb_eq in E. congruence.
  - cbn [negb]. f_equal. apply IH. exact H.
Qed.

Lemma dedup_after_last (p : Z) (l : list Z) :
  last (p :: dedup_after p l) 0%Z = last (p :: l) 0%Z.
Proof.
  revert p. induction l as [|x l IH]; intro p; [reflexivity|].
  cbn [dedup_after]. destruct (x =? p)%Z eqn:E; cbn [negb].
  - apply Z.eqb_eq in E. subst x. rewrite IH. reflexivity.
  - change (last (x :: dedup_after x l) 0%Z = last (x :: l) 0%Z). apply IH.
Qed.

Lemma remove_adjacent_duplicates_distinct (lst : list Z) :
  adjacent_distinct (remove_adjacent_duplicates lst).
Proof. destruct lst as [|x l]; [exact I | apply dedup_after_distinct]. Qed.

Lemma remove_adjacent_duplicates_fixed (lst : list Z) :
  adjacent_distinct lst -> remove_adjacent_duplicates lst = lst.
Proof.
  destruct lst as [|x l]; intro H; [reflexivity|].
  unfold remove_adjacent_duplicates. f_equal.
  apply dedup_after_fixed. exact H.
Qed.

Lemma remove_adjacent_duplicates_last (lst : list Z) :
  py_last (remove_adjacent_duplicates lst) = py_last lst.
Proof.
  destruct lst as [|x l]; [reflexivity|].
  unfold remove_adjacent_duplicates.
  rewrite !py_last_nonempty by discriminate.
  rewrite dedup_after_last. reflexivity.
Qed.

(** X1.  [remove_adjacent_duplicates] leaves no two equal neighbours, keeps
    the first and the last entry, changes nothing in a list that has no
    equal neighbours, and so does nothing when applied a second time. *)
Theorem remove_adjacent_duplicates_collapses (lst : list Z) :
  adjacent_distinct (remove_adjacent_duplicates lst)
  /\ hd_error (remove_adjacent_duplicates lst) = hd_error lst
  /\ py_last (remove_adjacent_duplicates lst) = py_last lst
  /\ (adjacent_distinct lst -> remove_adjacent_duplicates lst = lst)
  /\ remove_adjacent_duplicates (remove_adjacent_duplicates lst)
     = remove_adjacent_duplicates lst.
Proof.
  split; [apply remove_adjacent_duplicates_distinct|].
  split; [destruct lst; reflexivity|].
  split; [apply remove_adjacent_duplicates_last|].
  split; [apply remove_adjacent_duplicates_fixed|].
  apply remove_adjacent_duplicates_fixed,
    remove_adjacent_duplicates_distinct.
Qed.

Lemma remove_negative_values_prefix (notches : list Z) :
  exists pre : list Z,
    notches = pre ++ remove_negative_values notches
    /\ (pre = [] \/ exists pre' x, pre = pre' ++ [x] /\ (x < 0)%Z).
Proof.
  unfold remove_negative_values.
  pose proof (last_negative_below_spec notches (List.length notches)) as H.
  destruct (last_negative_below notches (List.length notches)) as [j|].
  - destruct H as (Hj & (x & Hx & Hneg) & _).
    exists (firstn (S j) notches). split.
    + symmetry. apply firstn_skipn.
    + right. exists (firstn j notches), x. split; [|exact Hneg].
      clear - Hx. revert j Hx.
      induction notches as [|y l IH]; intros [|j] Hx; simpl in Hx;
        try discriminate.
      * injection Hx as ->. reflexivity.
      * change (y :: firstn (S j) l = y :: (firstn j l ++ [x])).
        f_equal. apply IH. exact Hx.
  - exists []. split; [reflexivity | left; reflexivity].
Qed.

(** X2.  [remove_negative_values] returns the part of the list after its
    last negative entry: the result has no negative entry, the list is a
    prefix followed by the result, the prefix is empty or ends in a negative
    entry, and a list without negative entries is returned whole. *)
Theorem remove_negative_values_cut (notches : list Z) :
  Forall (fun x => (0 <= x)%Z) (remove_negative_values notches)
  /\ (exists pre : list Z,
        notches = pre ++ remove_negative_values notches
        /\ (pre = [] \/ exists pre' x, pre = pre' ++ [x] /\ (x < 0)%Z))
  /\ (Forall (fun x => (0 <= x)%Z) notches ->
      remove_negative_values notches = notches).
Proof.
  split; [apply remove_negative_values_nonneg|].
  split; [apply remove_negative_values_prefix|].
  intro Hall. unfold remove_negative_values.
  pose proof (last_negative_below_spec notches (List.length notches)) as H.
  destruct (last_negative_below notches (List.length notches)) as [j|];
    [|reflexivity].
  destruct H as (_ & (x & Hx & Hneg) & _). exfalso.
  apply nth_error_In in Hx.
  rewrite Forall_forall in Hall. specialize (Hall x Hx). lia.
Qed.

(** ** The staircase classifier *)

Lemma remove_negative_values_last (l : list Z) :
  remove_negative_values l <> [] ->
  py_last (remove_negative_values l) = py_last l.
Proof.
  intro Hne.
  destruct (remove_negative_values_prefix l) as (pre & Hl & _).
  destruct (exists_last Hne) as (m & x & Hm).
  rewrite Hl at 2. rewrite Hm, app_assoc, !py_last_app. reflexivity.
Qed.

Lemma is_stair_pattern_inv (notches : list Z) :
  is_stair_pattern notches = true ->
  let r := remove_negative_values (remove_adjacent_duplicates notches) in
  (5 <= len r)%Z
  /\ (exists prev rest, r = prev :: rest /\ stair_scan false prev rest = true)
  /\ (py_last r = Some 1%Z \/ py_last r = Some 2%Z).
Proof.
  unfold is_stair_pattern. cbv zeta.
  set (r := remove_negative_values (remove_adjacent_duplicates notches)).
  destruct (len r <? 5)%Z eqn:E; [discriminate|].
  apply Z.ltb_ge in E.
  destruct r as [|prev rest] eqn:Er; [discriminate|].
  destruct (stair_scan false prev rest) eqn:Es; [|discriminate].
  cbn [negb].
  destruct (py_last (prev :: rest)) as [n|]; [|discriminate].
  destruct (n =? 1)%Z eqn:E1.
  - apply Z.eqb_eq in E1. subst n. intros _.
    split; [exact E|]. split; [eauto | left; reflexivity].
  - destruct (n =? 2)%Z eqn:E2; [|discriminate].
    apply Z.eqb_eq in E2. subst n. intros _.
    split; [exact E|]. split; [eauto | right; reflexivity].
Qed.

(** A history that is classified as a staircase ends on B1 or B2. *)
Lemma stair_pattern_ends_on_b1_b2 (notches : list Z) :
  is_stair_pattern notches = true ->
  exists (pre : list Z) (n : Z),
    notches = pre ++ [n] /\ (n = 1%Z \/ n = 2%Z).
Proof.
  intro H. apply is_stair_pattern_inv in H. cbv zeta in H.
  destruct H as (Hlen & _ & Hlast).
  assert (Hne : remove_negative_values (remove_adjacent_duplicates notches)
                <> []).
  { intro E. rewrite E in Hlen. unfold len in Hlen. simpl in Hlen. lia. }
  rewrite (remove_negative_values_last _ Hne) in Hlast.
  rewrite remove_adjacent_duplicates_last in Hlast.
  assert (Hn : notches <> []).
  { intro E. rewrite E in Hlast. destruct Hlast; discriminate. }
  destruct (exists_last Hn) as (pre & n & ->).
  rewrite py_last_app in Hlast.
  exists pre, n. split; [reflexivity|].
  destruct Hlast as [E|E]; injection E as ->; auto.
Qed.

Lemma dedup_after_repeat (p x : Z) (l1 l2 : list Z) :
  dedup_after p (l1 ++ x :: x :: l2) = dedup_after p (l1 ++ x :: l2).
Proof.
  revert p. induction l1 as [|y l1 IH]; intro p.
  - cbn [app dedup_after]. rewrite Z.eqb_refl. cbn [negb].
    destruct (x =? p)%Z; reflexivity.
  - cbn [app dedup_after]. destruct (y =? p)%Z; cbn [negb];
      rewrite IH; reflexivity.
Qed.

(** X3.  Holding a notch for one more tick does not change the verdict of
    the classifier: a history and the same history with one entry repeated
    in place are classified alike. *)
Theorem stair_pattern_ignores_repeats (l1 l2 : list Z) (x : Z) :
  is_stair_pattern (l1 ++ x :: x :: l2) = is_stair_pattern (l1 ++ x :: l2).
Proof.
  assert (H : remove_adjacent_duplicates (l1 ++ x :: x :: l2)
              = remove_adjacent_duplicates (l1 ++ x :: l2)).
  { destruct l1 as [|y l1].
    - cbn [app remove_adjacent_duplicates dedup_after].
      rewrite Z.eqb_refl. reflexivity.
    - cbn [app remove_adjacent_duplicates]. f_equal.
      apply dedup_after_repeat. }
  unfold is_stair_pattern. rewrite H. reflexivity.
Qed.

Lemma stair_scan_falls (prev : Z) (l : list Z) :
  adjacent_distinct (prev :: l) ->
  stair_scan true prev l = true ->
  rises_then_falls 0 (prev :: l).
Proof.
  revert prev. induction l as [|cur l IH]; intros prev Hd Hs.
  - intros [|i] x y Hx Hy; simpl in Hy; [discriminate|].
    destruct i; discriminate.
  - destruct Hd as [Hne Hd]. cbn [stair_scan negb] in Hs.
    destruct (cur >? prev)%Z eqn:E; [discriminate|].
    assert (Hlt : (cur < prev)%Z).
    { rewrite Z.gtb_ltb in E. apply Z.ltb_ge in E. lia. }
    specialize (IH cur Hd Hs).
    intros [|i] x y Hx Hy.
    + simpl in Hx, Hy. injection Hx as <-. injection Hy as <-. exact Hlt.
    + exact (IH i x y Hx Hy).
Qed.

Lemma stair_scan_rises_then_falls (prev : Z) (l : list Z) :
  adjacent_distinct (prev :: l) ->
  stair_scan false prev l = true ->
  exists k : nat, rises_then_falls k (prev :: l).
Proof.
  revert prev. induction l as [|cur l IH]; intros prev Hd Hs.
  - exists 0%nat. intros [|i] x y Hx Hy; simpl in Hy; [discriminate|].
    destruct i; discriminate.
  - destruct Hd as [Hne Hd]. cbn [stair_scan negb] in Hs.
    destruct (cur <? prev)%Z eqn:E.
    + apply Z.ltb_lt in E. exists 0%nat.
      pose proof (stair_scan_falls cur l Hd Hs) as Hf.
      intros [|i] x y Hx Hy.
      * simpl in Hx, Hy. injection Hx as <-. injection Hy as <-. exact E.
      * exact (Hf i x y Hx Hy).
    + apply Z.ltb_ge in E.
      destruct (IH cur Hd Hs) as [k Hk]. exists (S k).
      intros [|i] x y Hx Hy.
      * simpl in Hx, Hy. injection Hx as <-. injection Hy as <-.
        cbn. lia.
      * change (S i <? S k)%nat with (i <? k)%nat.
        exact (Hk i x y Hx Hy).
Qed.

Lemma falls_stair_scan (prev : Z) (l : list Z) :
  rises_then_falls 0 (prev :: l) -> stair_scan true prev l = true.
Proof.
  revert prev. induction l as [|cur l IH]; intros prev H; [reflexivity|].
  cbn [stair_scan negb].
  pose proof (H 0%nat prev cur eq_refl eq_refl) as H0. cbn in H0.
  destruct (cur >? prev)%Z eqn:E.
  - rewrite Z.gtb_ltb in E. apply Z.ltb_lt in E. lia.
  - apply IH. intros i x y Hx Hy. exact (H (S i) x y Hx Hy).
Qed.

Lemma rises_then_falls_stair_scan (k : nat) (prev : Z) (l : list Z) :
  rises_then_falls k (prev :: l) -> stair_scan false prev l = true.
Proof.
  revert k prev. induction l as [|cur l IH]; intros k prev H; [reflexivity|].
  cbn [stair_scan negb].
  pose proof (H 0%nat prev cur eq_refl eq_refl) as H0.
  destruct k as [|k].
  - cbn in H0. apply Z.ltb_lt in H0. rewrite H0.
    apply falls_stair_scan. intros i x y Hx Hy. exact (H (S i) x y Hx Hy).
  - cbn in H0. assert (E : (cur <? prev)%Z = false) by (apply Z.ltb_ge; lia).
    rewrite E. apply (IH k). intros i x y Hx Hy.
    exact (H (S i) x y Hx Hy).
Qed.

(** X4.  What the classifier accepts: a history is a staircase exactly when
    its collapsed form, cut after the last traction entry, has at least five
    entries, rises strictly up to one peak, falls strictly after it, and
    ends on B1 or B2. *)
Theorem stair_pattern_shape (notches : list Z) :
  let r := remove_negative_values (remove_adjacent_duplicates notches) in
  is_stair_pattern notches = true
  <-> (5 <= len r)%Z
      /\ (exists k : nat, rises_then_falls k r)
      /\ (py_last r = Some 1%Z \/ py_last r = Some 2%Z).
Proof.
  cbv zeta. split.
  - intro H. apply is_stair_pattern_inv in H. cbv zeta in H.
    destruct H as (Hlen & (prev & rest & Hr & Hs) & Hlast).
    split; [exact Hlen|]. split; [|exact Hlast].
    rewrite Hr. apply stair_scan_rises_then_falls; [|exact Hs].
    rewrite <- Hr.
    pose proof (remove_adjacent_duplicates_distinct notches) as Hd.
    unfold remove_negative_values.
    destruct (last_negative_below _ _); [|exact Hd].
    apply adjacent_distinct_skipn. exact Hd.
  - intros (Hlen & (k & Hk) & Hlast).
    unfold is_stair_pattern. cbv zeta.
    destruct (remove_negative_values (remove_adjacent_duplicates notches))
      as [|prev rest].
    + destruct Hlast; discriminate.
    + destruct (len (prev :: rest) <? 5)%Z eqn:E;
        [apply Z.ltb_lt in E; lia|].
      rewrite (rises_then_falls_stair_scan k prev rest Hk). cbn [negb].
      destruct Hlast as [-> | ->]; reflexivity.
Qed.

(** ** Braking command and brake channels *)

(** X5.  With a non-negative adhesion coefficient and a notch table without
    positive entries, the commanded brake acceleration of any notch at any
    speed is never positive and never beyond the adhesion ceiling of the
    notch. *)
Theorem effective_brake_accel_bounded (sim : Sim) (notch : Z) (v : Q) :
  0 <= Scenario.mu (Sim.scn sim) ->
  Forall (fun a => a <= 0) (Vehicle.notch_accels (Sim.veh sim)) ->
  adhesion_cap sim notch <= _effective_brake_accel sim notch v
  /\ _effective_brake_accel sim notch v <= 0.
Proof.
  intros Hmu Hall. unfold _effective_brake_accel, adhesion_cap. cbv zeta.
  set (k := if (notch =? Vehicle.notches (Sim.veh sim) - 1)%Z
            then 0.98 else 0.85).
  assert (Hk : 0 < k) by (unfold k; destruct (notch =? _)%Z; lra).
  assert (Hcap : - k * Scenario.mu (Sim.scn sim) * 9.81 <= 0) by nra.
  destruct (notch <=? 0)%Z eqn:E1; [split; lra|].
  destruct (notch >=? len _)%Z eqn:E2; [split; lra|].
  apply Z.leb_gt in E1. rewrite Z.geb_leb in E2. apply Z.leb_gt in E2.
  set (base := nth (Z.to_nat notch) (Vehicle.notch_accels (Sim.veh sim)) 0).
  assert (Hbase : base <= 0).
  { unfold base. rewrite Forall_nth in Hall. apply Hall.
    unfold len in E2. lia. }
  set (a_cap := - k * Scenario.mu (Sim.scn sim) * 9.81) in *.
  destruct (py_max_cases base a_cap) as [[Hc E]|[Hc E]]; rewrite E.
  - qcase (a_cap <=? a_cap + 0.000001); [|lra].
    destruct (v >? 8.0); split; lra.
  - qcase (base <=? a_cap + 0.000001).
    + destruct (v >? 8.0); split; lra.
    + split; lra.
Qed.

(** X6.  The regenerative share of the brake command lies in [[0, 1]] and
    never decreases with speed. *)
Theorem blend_w_regen_range_monotone (v1 v2 : Q) :
  (0 <= _blend_w_regen v1 /\ _blend_w_regen v1 <= 1)
  /\ (v1 <= v2 -> _blend_w_regen v1 <= _blend_w_regen v2).
Proof.
  unfold _blend_w_regen. cbv zeta. split.
  - qcase (v1 * 3.6 >=? 20.0); [split; lra|].
    qcase (v1 * 3.6 <=? 8.0); [split; lra|].
    qdiv_const. split; lra.
  - intro H.
    qcase (v1 * 3.6 >=? 20.0); qcase (v2 * 3.6 >=? 20.0);
      try qcase (v1 * 3.6 <=? 8.0); try qcase (v2 * 3.6 <=? 8.0);
      qdiv_const; lra.
Qed.

Lemma lag_between (x c k : Q) :
  0 <= k -> k <= 1 -> between x c (x + (c - x) * k).
Proof.
  intros H0 H1. unfold between.
  destruct (Qlt_le_dec c x) as [Hc|Hc]; [right | left]; split; nra.
Qed.

(** X7.  With a time step between 0 and 0.15 s, the lag of the electric and
    of the air brake moves each channel towards its share of the command
    and never past it. *)
Theorem brake_split_lag_no_overshoot
    (brk_elec brk_air a_total_cmd v : Q) (is_eb : bool) (dt : Q) :
  0 <= dt -> dt <= 0.15 ->
  let w := _blend_w_regen v in
  between brk_elec (a_total_cmd * w)
    (fst (brake_split_lag brk_elec brk_air a_total_cmd v is_eb dt))
  /\ between brk_air (a_total_cmd * (1.0 - w))
       (snd (brake_split_lag brk_elec brk_air a_total_cmd v is_eb dt)).
Proof.
  intros H0 H1 w. unfold brake_split_lag. fold w.
  destruct (v * 3.6 >=? 15); destruct (v * 3.6 <? 10); destruct is_eb;
    cbv beta iota zeta;
    destruct (a_total_cmd * w <? brk_elec);
    destruct (a_total_cmd * (1.0 - w) <? brk_air);
    cbn [fst snd];
    (split; apply lag_between;
     match goal with
     | |- context [py_max ?a ?b] =>
         let c := eval vm_compute in (py_max a b) in
         change (py_max a b) with c
     end; qdiv_const; lra).
Qed.

(** X8.  Wheel-slide protection never hands back less braking than it was
    asked for; in the normal mode, on a non-negative adhesion coefficient,
    it hands the demand back unchanged even on the tick that triggers the
    release; in the release and re-apply modes it applies at least 30 % and
    80 % of the service adhesion ceiling whatever the demand.  The mode
    only moves along normal, release, re-apply, normal. *)
Theorem wsp_update_never_relieves (sim : Sim) (v a_demand dt : Q) :
  let a_cap := - 0.85 * Scenario.mu (Sim.scn sim) * 9.81 in
  let mode := Brake.wsp_state (Sim.brk sim) in
  let mode' := Brake.wsp_state (Sim.brk (fst (_wsp_update sim v a_demand dt))) in
  let a := snd (_wsp_update sim v a_demand dt) in
  a <= a_demand
  /\ (0 <= Scenario.mu (Sim.scn sim) -> mode = wsp_normal -> a = a_demand)
  /\ (mode = wsp_release -> a <= 0.3 * a_cap)
  /\ (mode = wsp_reapply -> a <= 0.8 * a_cap)
  /\ match mode, mode' with
     | wsp_normal, wsp_reapply => False
     | wsp_release, wsp_normal => False
     | wsp_reapply, wsp_release => False
     | _, _ => True
     end.
Proof.
  cbv zeta. unfold _wsp_update. cbv zeta.
  destruct (Brake.wsp_state (Sim.brk sim)) eqn:Em.
  - destruct ((a_demand <? _) && (v * 3.6 >? 3.0)) eqn:E; cbn [fst snd].
    + apply andb_prop in E. destruct E as [E _]. apply Qltb_true in E.
      split; [apply py_min_l|].
      split; [|split; [discriminate | split; [discriminate | exact I]]].
      intros Hmu _. unfold py_min.
      qcase (0.5 * (- 0.85 * Scenario.mu (Sim.scn sim) * 9.81) <? a_demand);
        [lra | reflexivity].
    + rewrite Em.
      split; [lra|]. split; [reflexivity|].
      split; [discriminate | split; [discriminate | exact I]].
  - cbn [fst snd].
    split; [apply py_min_l|]. split; [discriminate|].
    split; [intros _; apply py_min_r|]. split; [discriminate|].
    destruct (_ <=? 0.0); exact I.
  - cbn [fst snd].
    split; [apply py_min_l|]. split; [discriminate|].
    split; [discriminate|]. split; [intros _; apply py_min_r|].
    destruct (_ <=? 0.0); exact I.
Qed.

(** ** Running resistance and traction *)

(** X9.  With non-negative Davis coefficients the running resistance never
    accelerates the train: on a vehicle of positive mass it is a
    non-positive acceleration, exactly zero below 0.01 m/s; on a vehicle of
    mass zero it raises from 0.01 m/s on. *)
Theorem davis_accel_resists (sim : Sim) (v : Q) :
  0 <= Vehicle.A0 (Sim.veh sim) ->
  0 <= Vehicle.B1 (Sim.veh sim) ->
  0 <= Vehicle.C2 (Sim.veh sim) ->
  0 <= Brake.rr_factor (Sim.brk sim) ->
  (0 < Vehicle.mass_kg (Sim.veh sim) ->
   exists a : Q,
     _davis_accel sim v = Some a /\ a <= 0 /\ (v < 0.01 -> a = 0.0))
  /\ (Vehicle.mass_kg (Sim.veh sim) == 0 ->
      _davis_accel sim v = if v <? 0.01 then Some 0.0 else None).
Proof.
  intros HA HB HC Hr. unfold _davis_accel. cbv zeta. split.
  - intro Hm. qcase (v <? 0.01).
    + exists 0.0. split; [reflexivity|]. split; [lra | reflexivity].
    + rewrite py_div_total by lra.
      eexists. split; [reflexivity|]. split; [|intro; lra].
      apply Qle_shift_div_r; [exact Hm|].
      assert (0 <= Vehicle.A0 (Sim.veh sim) * Brake.rr_factor (Sim.brk sim))
        by nra.
      assert (0 <= Vehicle.B1 (Sim.veh sim) * Brake.rr_factor (Sim.brk sim))
        by nra.
      assert (0 <= v * v) by nra.
      nra.
  - intro Hm. destruct (v <? 0.01); [reflexivity|].
    unfold py_div. apply Qeq_bool_iff in Hm. rewrite Hm. reflexivity.
Qed.

Lemma tbl_bounds (l : list Q) (lo hi : Q) (i : Z) :
  Forall (fun x => lo <= x /\ x <= hi) l -> lo <= 0 -> 0 <= hi ->
  lo <= tbl l i /\ tbl l i <= hi.
Proof.
  intros Hall Hlo Hhi. unfold tbl.
  destruct (nth_in_or_default (Z.to_nat i) l 0) as [Hin | ->].
  - rewrite Forall_forall in Hall. exact (Hall _ Hin).
  - split; assumption.
Qed.

Lemma py_min_max_bounds (f m : Q) :
  py_min 1 m <= py_min 1.0 (py_max f m) /\ py_min 1.0 (py_max f m) <= 1.
Proof.
  destruct (py_max_cases f m) as [[H ->]|[H ->]];
    destruct (py_min_cases 1 m) as [[H1 ->]|[H1 ->]];
    try (destruct (py_min_cases 1.0 f) as [[H2 ->]|[H2 ->]]);
    try (destruct (py_min_cases 1.0 m) as [[H3 ->]|[H3 ->]]);
    split; lra.
Qed.

(** X10.  Traction without the force model (no maximum force or no maximum
    power configured): a neutral or braking notch gives no traction, and a
    traction notch gives between 0.03 % and 100 % of the table acceleration
    of the notch, the notch index capped at the last table entry, at every
    speed and whatever the value of the exponential in the high-speed
    tail. *)
Theorem power_accel_legacy_bounds (sim : Sim) (lever_notch : Z) (v : Q) :
  let veh := Sim.veh sim in
  let fwd := Vehicle.forward_notch_accels veh in
  Vehicle.T_max_kN veh <= 0 \/ Vehicle.P_max_kW veh <= 0 ->
  fwd <> [] ->
  Forall (fun a => 0 <= a) fwd ->
  ((0 <= lever_notch)%Z -> compute_power_accel sim lever_notch v = Some 0.0)
  /\ ((lever_notch < 0)%Z ->
      exists a : Q,
        compute_power_accel sim lever_notch v = Some a
        /\ let base :=
             nth (Z.to_nat (Z.min (- lever_notch - 1) (len fwd - 1))) fwd 0 in
           0.0003 * base <= a /\ a <= base).
Proof.
  cbv zeta. intros Hoff Hne Hall. unfold compute_power_accel. cbv zeta.
  split.
  - intro Hn. destruct (lever_notch >=? 0)%Z eqn:E; [reflexivity|].
    rewrite Z.geb_leb in E. apply Z.leb_gt in E. lia.
  - intro Hn. destruct (lever_notch >=? 0)%Z eqn:E;
      [rewrite Z.geb_leb in E; apply Z.leb_le in E; lia|].
    assert (Hc : (Vehicle.T_max_kN (Sim.veh sim) >? 0.0)
                 && (Vehicle.P_max_kW (Sim.veh sim) >? 0.0) = false).
    { apply andb_false_iff.
      destruct Hoff as [H|H]; [left | right]; apply Qltb_false; lra. }
    rewrite Hc.
    pose proof (len_pos _ Hne) as Hlen.
    set (fwd := Vehicle.forward_notch_accels (Sim.veh sim)) in *.
    assert (Hidx : Z.max 0 (Z.min (- lever_notch - 1) (len fwd - 1))
                   = Z.min (- lever_notch - 1) (len fwd - 1)) by lia.
    rewrite Hidx.
    set (idx := Z.min (- lever_notch - 1) (len fwd - 1)) in *.
    assert (Hi : (0 <= idx < len fwd)%Z) by (unfold idx; lia).
    assert (Hbase : py_index fwd idx = Some (nth (Z.to_nat idx) fwd 0)).
    { unfold py_index. destruct (idx <? 0)%Z eqn:E0;
        [apply Z.ltb_lt in E0; lia|].
      apply nth_error_nth'. unfold len in Hi. lia. }
    rewrite Hbase. cbn [bind].
    set (base := nth (Z.to_nat idx) fwd 0).
    assert (Hb : 0 <= base).
    { unfold base. rewrite Forall_nth in Hall. apply Hall.
      unfold len in Hi. lia. }
    eexists. split; [reflexivity|].
    set (min_factor := tbl min_factors (Z.min idx (len min_factors - 1))).
    assert (Hmf : 0.0003 <= min_factor /\ min_factor <= 0.27).
    { unfold min_factor, tbl.
      assert (Hz : (0 <= Z.min idx (len min_factors - 1) <= 4)%Z)
        by (change (len min_factors) with 5%Z; lia).
      set (j := Z.min idx (len min_factors - 1)) in *.
      assert (Hj : (Z.to_nat j = 0 \/ Z.to_nat j = 1 \/ Z.to_nat j = 2
                    \/ Z.to_nat j = 3 \/ Z.to_nat j = 4)%nat) by lia.
      destruct Hj as [-> | [-> | [-> | [-> | ->]]]];
        cbn [nth min_factors]; split; lra. }
    match goal with
    | |- _ <= base * ?f /\ _ => set (factor := f)
    end.
    assert (Hf : 0.0003 <= factor /\ factor <= 1).
    { unfold factor.
      destruct (v * 3.6 <=? _).
      - destruct (py_min_cases 1.0 1.0) as [[H1 ->]|[H1 ->]]; split; lra.
      - destruct (v * 3.6 <=? _).
        + match goal with
          | |- context [py_min 1.0 (py_max ?f min_factor)] =>
              pose proof (py_min_max_bounds f min_factor) as [Hlo Hhi]
          end.
          destruct (py_min_cases 1 min_factor) as [[H1 E1]|[H1 E1]];
            rewrite E1 in Hlo; split; lra.
        + match goal with
          | |- context [py_min 1.0 (py_max ?f min_factor)] =>
              pose proof (py_min_max_bounds f min_factor) as [Hlo Hhi]
          end.
          destruct (py_min_cases 1 min_factor) as [[H1 E1]|[H1 E1]];
            rewrite E1 in Hlo; split; lra. }
    split; nra.
Qed.

Lemma Qdiv_nonneg (a b : Q) : 0 <= a -> 0 < b -> 0 <= a / b.
Proof. intros Ha Hb. apply Qle_shift_div_l; [exact Hb | lra]. Qed.

(** X11.  Traction with the force model (maximum force and maximum power
    configured) on a vehicle of positive mass and positive acceleration
    limit: a traction notch always returns an acceleration, which is never
    negative and never above the acceleration limit [a_max], at every
    speed. *)
Theorem power_accel_physical_bounds (sim : Sim) (lever_notch : Z) (v : Q) :
  let veh := Sim.veh sim in
  (lever_notch < 0)%Z ->
  0 < Vehicle.T_max_kN veh ->
  0 < Vehicle.P_max_kW veh ->
  0 < Vehicle.mass_kg veh ->
  0 < Vehicle.a_max veh ->
  exists a : Q,
    compute_power_accel sim lever_notch v = Some a
    /\ 0 <= a /\ a <= Vehicle.a_max veh.
Proof.
  cbv zeta. intros Hn HT HP Hm Ha. unfold compute_power_accel. cbv zeta.
  destruct (lever_notch >=? 0)%Z eqn:E;
    [rewrite Z.geb_leb in E; apply Z.leb_le in E; lia|].
  assert (Hc : (Vehicle.T_max_kN (Sim.veh sim) >? 0.0)
               && (Vehicle.P_max_kW (Sim.veh sim) >? 0.0) = true).
  { apply andb_true_iff. split; apply Qltb_true; lra. }
  rewrite Hc.
  set (nf := Z.max 1 (if (len (Vehicle.forward_notch_accels (Sim.veh sim)) =? 0)%Z
                      then Vehicle.forward_notches (Sim.veh sim)
                      else len (Vehicle.forward_notch_accels (Sim.veh sim)))).
  set (idx := Z.max 0 (Z.min (Z.abs lever_notch - 1) (nf - 1))).
  assert (Hnf : 0 < inject_Z nf).
  { change 0 with (inject_Z 0). rewrite <- Zlt_Qlt. unfold nf. lia. }
  assert (Hi1 : 0 <= inject_Z (idx + 1)).
  { change 0 with (inject_Z 0). rewrite <- Zle_Qle. unfold idx. lia. }
  match goal with
  | |- context [if Vehicle.maxSpeed_kmh _ >=? 200 then ?p1 else ?p2] =>
      assert (Hr : exists rT rP : Q,
                 (if Vehicle.maxSpeed_kmh (Sim.veh sim) >=? 200
                  then p1 else p2) = (rT, rP)
                 /\ 0 <= rT /\ 0 <= rP)
  end.
  { destruct (Vehicle.maxSpeed_kmh (Sim.veh sim) >=? 200).
    - eexists; eexists. split; [reflexivity|].
      split; eapply (tbl_bounds _ 0 1); try lra;
        unfold torque_table, power_table;
        repeat constructor; lra.
    - eexists; eexists. split; [reflexivity|].
      split; apply Qdiv_nonneg; assumption. }
  destruct Hr as (rT & rP & -> & HrT & HrP).
  match goal with
  | |- context [Vehicle.maxSpeed_kmh ?veh * tbl ?l ?i] =>
      set (nms := Vehicle.maxSpeed_kmh veh * tbl l i)
  end.
  set (F0 := py_min (Vehicle.T_max_kN (Sim.veh sim) * 1000.0 * rT)
               (Vehicle.P_max_kW (Sim.veh sim) * 1000.0 * rP / py_max 0.1 v)).
  assert (HF0 : 0 <= F0).
  { unfold F0.
    assert (0 <= Vehicle.T_max_kN (Sim.veh sim) * 1000.0 * rT) by nra.
    assert (0 <= Vehicle.P_max_kW (Sim.veh sim) * 1000.0 * rP / py_max 0.1 v).
    { apply Qdiv_nonneg; [nra|]. pose proof (py_max_l 0.1 v). lra. }
    match goal with
    | |- 0 <= py_min ?a ?b =>
        destruct (py_min_cases a b) as [[_ ->]|[_ ->]]; assumption
    end. }
  assert (HF : exists F : Q,
             0 <= F
             /\ forall k : Q -> exc Q,
                  (let '(cutoff_range, min_residual) :=
                     if (idx <=? 1)%Z then (15.0, 0.05) else (40.0, 0.4) in
                   a_pwr <- py_div
                     (if v * 3.6 >? nms then F0 * min_residual
                      else if v * 3.6 >? nms - cutoff_range
                           then F0 * (1.0 - (v * 3.6 - (nms - cutoff_range))
                                            / cutoff_range
                                            * (1.0 - min_residual))
                           else F0)
                     (Vehicle.mass_kg (Sim.veh sim)) ;;
                   k a_pwr)
                  = k (F / Vehicle.mass_kg (Sim.veh sim))).
  { destruct (idx <=? 1)%Z; cbv beta iota.
    - qcase (v * 3.6 >? nms).
      + exists (F0 * 0.05). split; [nra|].
        intro k. rewrite py_div_total by lra. reflexivity.
      + qcase (v * 3.6 >? nms - 15.0).
        * eexists. split; [|intro k; rewrite py_div_total by lra; reflexivity].
          assert (0 <= 1.0 - (v * 3.6 - (nms - 15.0)) / 15.0 * (1.0 - 0.05))
            by (qdiv_const; lra).
          nra.
        * exists F0. split; [exact HF0|].
          intro k. rewrite py_div_total by lra. reflexivity.
    - qcase (v * 3.6 >? nms).
      + exists (F0 * 0.4). split; [nra|].
        intro k. rewrite py_div_total by lra. reflexivity.
      + qcase (v * 3.6 >? nms - 40.0).
        * eexists. split; [|intro k; rewrite py_div_total by lra; reflexivity].
          assert (0 <= 1.0 - (v * 3.6 - (nms - 40.0)) / 40.0 * (1.0 - 0.4))
            by (qdiv_const; lra).
          nra.
        * exists F0. split; [exact HF0|].
          intro k. rewrite py_div_total by lra. reflexivity. }
  destruct HF as (F & HFn & HFe).
  cbv beta iota. rewrite HFe.
  set (a0 := F / Vehicle.mass_kg (Sim.veh sim)).
  assert (Ha0 : 0 <= a0) by (apply Qdiv_nonneg; assumption).
  assert (Ha' : (Vehicle.a_max (Sim.veh sim) >? 0) = true)
    by (apply Qltb_true; exact Ha).
  rewrite Ha'.
  eexists. split; [reflexivity|].
  match goal with
  | |- 0 <= py_min ?x ?m /\ _ =>
      assert (Hx : 0 <= x);
      [ destruct ((5.0 >? v * 3.6) && (idx >=? 0)%Z);
        [ pose proof (py_max_l a0 (0.15 * (rT / 0.30))); lra | exact Ha0 ]
      | destruct (py_min_cases x m) as [[_ ->]|[Hle ->]]; split; lra ]
  end.
Qed.

(** ** What each phase of a tick leaves alone *)

Lemma flags_kept_refl (sim : Sim) : flags_kept sim sim.
Proof. unfold flags_kept. auto 10. Qed.

Lemma flags_kept_trans (sim1 sim2 sim3 : Sim) :
  flags_kept sim1 sim2 -> flags_kept sim2 sim3 -> flags_kept sim1 sim3.
Proof.
  unfold flags_kept.
  intros (A1 & A2 & A3 & A4 & A5 & A6) (B1 & B2 & B3 & B4 & B5 & B6).
  rewrite B6, A6. auto 10.
Qed.

Ltac flags_by_cases :=
  unfold flags_kept; simpl in *;
  repeat split;
  first [ reflexivity
        | intro; assumption
        | intro; reflexivity
        | let H := fresh in
          intro H; rewrite ?H in *; simpl in *; congruence ].

Lemma apply_command_quiet (sim : Sim) (cmd : Cmd) :
  countdown_view (_apply_command sim cmd) = countdown_view sim
  /\ kinematic_view (_apply_command sim cmd) = kinematic_view sim
  /\ flags_kept sim (_apply_command sim cmd).
Proof.
  unfold _apply_command.
  repeat break_goal; (split; [reflexivity|]; split; [reflexivity|]);
    flags_by_cases.
Qed.

Lemma drain_quiet (queue : list Cmd) (sim : Sim) :
  countdown_view (drain sim queue) = countdown_view sim
  /\ kinematic_view (drain sim queue) = kinematic_view sim
  /\ flags_kept sim (drain sim queue).
Proof.
  revert sim. induction queue as [|c q IH]; intro sim; simpl.
  - split; [reflexivity|]. split; [reflexivity|]. flags_by_cases.
  - destruct (_ <=? _).
    + destruct (IH (_apply_command sim c)) as (H1 & H2 & H3).
      destruct (apply_command_quiet sim c) as (G1 & G2 & G3).
      rewrite H1, H2. split; [exact G1|]. split; [exact G2|].
      eapply flags_kept_trans; eassumption.
    + split; [reflexivity|]. split; [reflexivity|]. flags_by_cases.
Qed.

Lemma step_first_brake_quiet (sim sim' : Sim) :
  step_first_brake sim = Some sim' ->
  lever_view sim' = lever_view sim
  /\ countdown_view sim' = countdown_view sim
  /\ kinematic_view sim' = kinematic_view sim
  /\ flags_kept sim sim'.
Proof.
  unfold step_first_brake. cbv beta iota zeta.
  repeat (break_goal; cbv beta iota zeta);
    intro H; first [discriminate H | injection H as <-];
    (split; [reflexivity|]; split; [reflexivity|]; split; [reflexivity|]);
    flags_by_cases.
Qed.

Lemma step_countdown_quiet (sim : Sim) :
  lever_view (step_countdown sim) = lever_view sim
  /\ kinematic_view (step_countdown sim) = kinematic_view sim
  /\ Sim.ev (step_countdown sim) = Sim.ev sim
  /\ State.finished (Sim.state (step_countdown sim))
     = State.finished (Sim.state sim).
Proof.
  unfold step_countdown. repeat break_goal; auto.
Qed.

Lemma tasc_predict_shape (sim sim' : Sim) (n : Z) (v : Q) r :
  _tasc_predict sim n v = Some (sim', r) ->
  exists tc' : Tasc.Tasc, sim' = set_tasc sim tc'.
Proof.
  unfold _tasc_predict. intro H.
  destruct (negb _).
  - injection H as <- _. exists (Sim.tasc sim). destruct sim; reflexivity.
  - bind_inv H. bind_inv H. bind_inv H. injection H as <- _.
    eexists; reflexivity.
Qed.

Lemma step_tasc_quiet (sim sim' : Sim) :
  step_tasc sim = Some sim' ->
  lever_view sim' = lever_view sim
  /\ countdown_view sim' = countdown_view sim
  /\ kinematic_view sim' = kinematic_view sim
  /\ flags_kept sim sim'.
Proof.
  unfold step_tasc. intro H.
  destruct (Tasc.tasc_enabled (Sim.tasc sim)
            && negb (State.finished (Sim.state sim)));
    [|injection H as <-; repeat split; auto; apply flags_kept_refl].
  match type of H with
  | context [set_tasc sim ?tc] => set (tc1 := tc) in *
  end.
  destruct (Tasc.tasc_active tc1);
    [|injection H as <-; repeat (split; [reflexivity|]); flags_by_cases].
  destruct (negb (RunEval.first_brake_done (Sim.ev (set_tasc sim tc1))));
    [injection H as <-; repeat (split; [reflexivity|]); flags_by_cases|].
  bind_inv H. destruct x as [sim1 [[s_cur s_up] s_dn]].
  apply tasc_predict_shape in Hx. destruct Hx as [tc' ->].
  revert H. cbv beta iota zeta.
  repeat (break_goal; cbv beta iota zeta);
    intro H; injection H as <-;
    repeat (split; [reflexivity|]); flags_by_cases.
Qed.

Lemma step_dynamics_quiet (sim sim' : Sim) :
  step_dynamics sim = Some sim' ->
  lever_view sim' = lever_view sim
  /\ countdown_view sim' = countdown_view sim
  /\ flags_kept sim sim'.
Proof.
  unfold step_dynamics. intro H.
  bind_inv H.
  destruct (_wsp_update _ _ _ _) as [sim1 a_brake] eqn:Ew.
  assert (Hc : Sim.ev sim1 = Sim.ev sim
               /\ Sim._cmd_queue sim1 = Sim._cmd_queue sim).
  { revert Ew. unfold _wsp_update, _update_brake_dyn_split.
    destruct (brake_split_lag _ _ _ _ _ _) as [e a].
    cbv beta iota zeta. simpl.
    repeat break_goal; intro H'; injection H' as <- _; auto. }
  destruct Hc as [He Hq].
  bind_inv H. injection H as <-.
  unfold lever_view, countdown_view, flags_kept. simpl.
  rewrite He, Hq. auto 10.
Qed.

Lemma step_finish_quiet (sim sim' : Sim) :
  step_finish sim = Some sim' ->
  lever_view sim' = lever_view sim
  /\ countdown_view sim' = countdown_view sim
  /\ kinematic_view sim' = kinematic_view sim
  /\ flags_kept sim sim'.
Proof.
  unfold step_finish. intro H.
  destruct (negb _ && _).
  - bind_inv H. bind_inv H. destruct x0 as [avg_jerk jerk_score].
    injection H as <-.
    repeat (split; [reflexivity|]). flags_by_cases.
  - injection H as <-. repeat (split; [reflexivity|]). apply flags_kept_refl.
Qed.

(** The phases of a tick on a run that is not finished. *)
Lemma step_unfinished (sim sim' : Sim) :
  step sim = Some sim' ->
  State.finished (Sim.state sim) = false ->
  exists sim2 sim4 sim5 : Sim,
    step_first_brake (step_record (drain sim (Sim._cmd_queue sim))) = Some sim2
    /\ step_tasc (step_countdown sim2) = Some sim4
    /\ step_dynamics sim4 = Some sim5
    /\ step_finish sim5 = Some sim'.
Proof.
  unfold step. intros H Hfin.
  pose proof (drain_kept (Sim._cmd_queue sim) sim) as Hk.
  set (sim0 := drain sim (Sim._cmd_queue sim)) in *.
  assert (Hf1 : State.finished (Sim.state (step_record sim0)) = false).
  { unfold kept in Hk. injection Hk as Hf _ _. simpl. rewrite Hf. exact Hfin. }
  rewrite Hf1 in H.
  bind_inv H. bind_inv H. bind_inv H. eauto 10.
Qed.

(** The tick on a finished run. *)
Lemma step_finished (sim : Sim) :
  State.finished (Sim.state sim) = true ->
  let sim1 := step_record (drain sim (Sim._cmd_queue sim)) in
  step sim
  = Some (set_state sim1
            (set_a_v (Sim.state sim1) 0.0
               (py_max 0.0 (State.v (Sim.state sim1))))).
Proof.
  intro Hfin. cbv zeta. unfold step.
  pose proof (drain_kept (Sim._cmd_queue sim) sim) as Hk.
  set (sim0 := drain sim (Sim._cmd_queue sim)) in *.
  assert (Hf1 : State.finished (Sim.state (step_record sim0)) = true).
  { unfold kept in Hk. injection Hk as Hf _ _. simpl. rewrite Hf. exact Hfin. }
  rewrite Hf1. reflexivity.
Qed.

Lemma step_first_brake_config (sim sim' : Sim) :
  step_first_brake sim = Some sim' ->
  Sim.veh sim' = Sim.veh sim /\ Sim.scn sim' = Sim.scn sim.
Proof.
  unfold step_first_brake. cbv beta iota zeta.
  repeat (break_goal; cbv beta iota zeta);
    intro H; first [discriminate H | injection H as <-; split; reflexivity].
Qed.

Lemma step_dynamics_config (sim sim' : Sim) :
  step_dynamics sim = Some sim' ->
  Sim.veh sim' = Sim.veh sim /\ Sim.scn sim' = Sim.scn sim.
Proof.
  unfold step_dynamics. intro H.
  bind_inv H.
  destruct (_wsp_update _ _ _ _) as [sim1 a_brake] eqn:Ew.
  assert (Hc : Sim.veh sim1 = Sim.veh sim /\ Sim.scn sim1 = Sim.scn sim).
  { revert Ew. unfold _wsp_update, _update_brake_dyn_split.
    destruct (brake_split_lag _ _ _ _ _ _) as [e a].
    cbv beta iota zeta. simpl.
    repeat break_goal; intro H'; injection H' as <- _; auto. }
  bind_inv H. injection H as <-. exact Hc.
Qed.

Lemma step_finish_config (sim sim' : Sim) :
  step_finish sim = Some sim' ->
  Sim.veh sim' = Sim.veh sim /\ Sim.scn sim' = Sim.scn sim.
Proof.
  unfold step_finish. intro H.
  destruct (negb _ && _).
  - bind_inv H. bind_inv H. destruct x0 as [avg_jerk jerk_score].
    injection H as <-. split; reflexivity.
  - injection H as <-. split; reflexivity.
Qed.

(** A tick changes neither the vehicle nor the scenario. *)
Lemma step_config (sim sim' : Sim) :
  step sim = Some sim' ->
  Sim.veh sim' = Sim.veh sim /\ Sim.scn sim' = Sim.scn sim.
Proof.
  intro H.
  pose proof (drain_frame (Sim._cmd_queue sim) sim) as Hf.
  apply frame_inv in Hf. destruct Hf as (Hv0 & Hs0 & _).
  destruct (State.finished (Sim.state sim)) eqn:Hfin.
  - rewrite (step_finished sim Hfin) in H. injection H as <-.
    simpl. auto.
  - destruct (step_unfinished sim sim' H Hfin)
      as (sim2 & sim4 & sim5 & H2 & H4 & H5 & H6).
    apply step_first_brake_config in H2. destruct H2 as [Hv2 Hs2].
    destruct (step_countdown_config sim2) as [Hv3 Hs3].
    apply step_tasc_config in H4. destruct H4 as [Hv4 Hs4].
    apply step_dynamics_config in H5. destruct H5 as [Hv5 Hs5].
    apply step_finish_config in H6. destruct H6 as [Hv6 Hs6].
    simpl in Hv2, Hs2.
    split; congruence.
Qed.

(** ** The command queue *)

Lemma apply_command_clock (sim : Sim) (cmd : Cmd) :
  State.t (Sim.state (_apply_command sim cmd)) = State.t (Sim.state sim).
Proof.
  pose proof (apply_command_frame sim cmd) as H.
  apply frame_inv in H. tauto.
Qed.

Lemma drain_due_prefix (queue : list Cmd) (sim : Sim) :
  exists due rest : list Cmd,
    queue = due ++ rest
    /\ Forall (fun c => cmd_t c <= State.t (Sim.state sim)) due
    /\ match rest with
       | [] => True
       | c :: _ => State.t (Sim.state sim) < cmd_t c
       end
    /\ drain sim queue
       = set_cmd_queue (fold_left _apply_command due sim) rest.
Proof.
  revert sim. induction queue as [|c q IH]; intro sim.
  - exists [], []. simpl. auto.
  - simpl. qcase (cmd_t c <=? State.t (Sim.state sim)).
    + destruct (IH (_apply_command sim c)) as (due & rest & Hq & Hd & Hr & He).
      rewrite apply_command_clock in Hd, Hr.
      exists (c :: due), rest. subst q. simpl.
      split; [reflexivity|]. split; [constructor; assumption|].
      split; assumption.
    + exists [], (c :: q). simpl. auto.
Qed.

(** X12.  The drain at the head of a tick applies, oldest first, the
    longest prefix of the queue whose commands are all due at the clock of
    the tick, and leaves the rest queued in order: it stops at the first
    command that is not yet due, even when later entries are. *)
Theorem drain_applies_due_prefix (queue : list Cmd) (sim : Sim) :
  exists due rest : list Cmd,
    queue = due ++ rest
    /\ Forall (fun c => cmd_t c <= State.t (Sim.state sim)) due
    /\ match rest with
       | [] => True
       | c :: _ => State.t (Sim.state sim) < cmd_t c
       end
    /\ drain sim queue
       = set_cmd_queue (fold_left _apply_command due sim) rest.
Proof. apply drain_due_prefix. Qed.

Lemma drain_not_due (queue : list Cmd) (sim : Sim) :
  match queue with
  | [] => True
  | c :: _ => State.t (Sim.state sim) < cmd_t c
  end ->
  drain sim queue = set_cmd_queue sim queue.
Proof.
  destruct queue as [|c q]; intro H; simpl; [reflexivity|].
  apply Qleb_false in H. rewrite H. reflexivity.
Qed.

Lemma step_lever_view (sim sim' : Sim) :
  step sim = Some sim' ->
  lever_view sim' = lever_view (drain sim (Sim._cmd_queue sim))
  /\ (match Sim._cmd_queue sim with
      | [] => True
      | c :: _ => State.t (Sim.state sim) < cmd_t c
      end ->
      lever_view sim' = lever_view sim).
Proof.
  intro H.
  assert (Hl : lever_view sim' = lever_view (drain sim (Sim._cmd_queue sim))).
  { destruct (State.finished (Sim.state sim)) eqn:Hfin.
    - rewrite (step_finished sim Hfin) in H. injection H as <-. reflexivity.
    - destruct (step_unfinished sim sim' H Hfin)
        as (sim2 & sim4 & sim5 & H2 & H4 & H5 & H6).
      apply step_first_brake_quiet in H2. destruct H2 as (L2 & _).
      destruct (step_countdown_quiet sim2) as (L3 & _).
      apply step_tasc_quiet in H4. destruct H4 as (L4 & _).
      apply step_dynamics_quiet in H5. destruct H5 as (L5 & _).
      apply step_finish_quiet in H6. destruct H6 as (L6 & _).
      rewrite L6, L5, L4, L3, L2. reflexivity. }
  split; [exact Hl|].
  intro Hd. rewrite Hl, (drain_not_due _ _ Hd).
  unfold lever_view. destruct sim; reflexivity.
Qed.

(** X13.  Within a tick only the command drain moves the driver's lever,
    the overspeed flag and the queue: the automatic stop controller, the
    dynamics and the finish block leave all three as the drain left them.
    When no queued command is due, the tick leaves the lever and the flag
    untouched and the queue as it was. *)
Theorem step_lever_only_by_commands (sim sim' : Sim) :
  step sim = Some sim' ->
  lever_view sim' = lever_view (drain sim (Sim._cmd_queue sim))
  /\ (match Sim._cmd_queue sim with
      | [] => True
      | c :: _ => State.t (Sim.state sim) < cmd_t c
      end ->
      lever_view sim' = lever_view sim).
Proof. apply step_lever_view. Qed.

Lemma step_flags_kept (sim sim' : Sim) :
  step sim = Some sim' -> flags_kept sim sim'.
Proof.
  intro H.
  destruct (drain_quiet (Sim._cmd_queue sim) sim) as (_ & _ & F0).
  set (sim0 := drain sim (Sim._cmd_queue sim)) in *.
  assert (F1 : flags_kept sim0 (step_record sim0)) by flags_by_cases.
  destruct (State.finished (Sim.state sim)) eqn:Hfin.
  - rewrite (step_finished sim Hfin) in H. injection H as <-.
    fold sim0. eapply flags_kept_trans; [exact F0|].
    eapply flags_kept_trans; [exact F1|]. flags_by_cases.
  - destruct (step_unfinished sim sim' H Hfin)
      as (sim2 & sim4 & sim5 & H2 & H4 & H5 & H6).
    fold sim0 in H2.
    apply step_first_brake_quiet in H2. destruct H2 as (_ & _ & _ & F2).
    assert (F3 : flags_kept sim2 (step_countdown sim2)).
    { unfold step_countdown. repeat break_goal; flags_by_cases. }
    apply step_tasc_quiet in H4. destruct H4 as (_ & _ & _ & F4).
    apply step_dynamics_quiet in H5. destruct H5 as (_ & _ & F5).
    apply step_finish_quiet in H6. destruct H6 as (_ & _ & _ & F6).
    repeat (eapply flags_kept_trans; [eassumption|]). apply flags_kept_refl.
Qed.

(** X14.  A tick never clears the flags of a run: once set, "finished",
    "first brake done", "emergency brake used", "neutral seen" and
    "overrun started" stay set through every later tick, and the obstacle
    flag is never written by a tick. *)
Theorem step_never_clears_flags (sim sim' : Sim) :
  step sim = Some sim' -> flags_kept sim sim'.
Proof. apply step_flags_kept. Qed.

Lemma step_dynamics_kinematics (sim sim' : Sim) :
  step_dynamics sim = Some sim' ->
  let st := Sim.state sim in
  let st' := Sim.state sim' in
  let dt := Scenario.dt (Sim.scn sim) in
  State.t st' = State.t st + dt
  /\ State.v st' = py_max 0.0 (State.v st + State.a st' * dt)
  /\ State.s st' = State.s st + (State.v st' * dt + 0.5 * State.a st' * dt * dt)
  /\ (0 <= dt -> 0 <= Vehicle.j_max (Sim.veh sim) -> 0 <= State.v st ->
      Qabs (State.a st' - State.a st) <= Vehicle.j_max (Sim.veh sim) * dt).
Proof.
  unfold step_dynamics. intro H. cbv zeta.
  bind_inv H.
  destruct (_wsp_update _ _ _ _) as [sim1 a_brake] eqn:Ew.
  assert (Hc : Sim.veh sim1 = Sim.veh sim).
  { revert Ew. unfold _wsp_update, _update_brake_dyn_split.
    destruct (brake_split_lag _ _ _ _ _ _) as [e a].
    cbv beta iota zeta. simpl.
    repeat break_goal; intro H'; injection H' as <- _; auto. }
  bind_inv H. injection H as <-.
  split; [reflexivity|]. split; [reflexivity|]. split; [reflexivity|].
  intros Hdt Hj Hv.
  cbn [Sim.state set_state State.a set_kinematics]. rewrite Hc.
  match goal with
  | |- context [if ?d >? ?m then ?m else _] => set (M := m); set (D := d)
  end.
  assert (HM : 0 <= M /\ M <= Vehicle.j_max (Sim.veh sim)
                                * Scenario.dt (Sim.scn sim)).
  { unfold M.
    assert (0 <= Vehicle.j_max (Sim.veh sim) * Scenario.dt (Sim.scn sim))
      by nra.
    destruct ((State.v (Sim.state sim) * 3.6 <=? 5.0) && _) eqn:E;
      [|split; lra].
    apply andb_prop in E. destruct E as [E _]. apply Qleb_true in E.
    set (j := Vehicle.j_max (Sim.veh sim) * Scenario.dt (Sim.scn sim)) in *.
    assert (Hs : 0.25 <= 0.25 + 0.75 * (State.v (Sim.state sim) * 3.6 / 5.0)
                 /\ 0.25 + 0.75 * (State.v (Sim.state sim) * 3.6 / 5.0) <= 1)
      by (qdiv_const; split; lra).
    destruct Hs. split; nra. }
  destruct HM as [HM0 HM1].
  apply Qabs_Qle_condition.
  qcase (D >? M); [split; lra|].
  qcase (D <? - M); split; lra.
Qed.

(** X15.  On a tick of an unfinished run the acceleration changes by at
    most [j_max * dt] (non-negative time step, jerk limit and velocity);
    the clock advances by [dt], the velocity is the old one plus the new
    acceleration times [dt], floored at zero, and the position advances by
    the new velocity and acceleration. *)
Theorem step_jerk_limited (sim sim' : Sim) :
  step sim = Some sim' ->
  State.finished (Sim.state sim) = false ->
  0 <= Scenario.dt (Sim.scn sim) ->
  0 <= Vehicle.j_max (Sim.veh sim) ->
  0 <= State.v (Sim.state sim) ->
  let st := Sim.state sim in
  let st' := Sim.state sim' in
  let dt := Scenario.dt (Sim.scn sim) in
  Qabs (State.a st' - State.a st) <= Vehicle.j_max (Sim.veh sim) * dt
  /\ State.t st' = State.t st + dt
  /\ State.v st' = py_max 0.0 (State.v st + State.a st' * dt)
  /\ State.s st' = State.s st + (State.v st' * dt + 0.5 * State.a st' * dt * dt).
Proof.
  intros H Hfin Hdt Hj Hv. cbv zeta.
  destruct (step_unfinished sim sim' H Hfin)
    as (sim2 & sim4 & sim5 & H2 & H4 & H5 & H6).
  pose proof (drain_frame (Sim._cmd_queue sim) sim) as Hf.
  apply frame_inv in Hf. destruct Hf as (Hv0 & Hs0 & _).
  destruct (drain_quiet (Sim._cmd_queue sim) sim) as (_ & K0 & _).
  set (sim0 := drain sim (Sim._cmd_queue sim)) in *.
  pose proof (step_first_brake_config _ _ H2) as [Hv2 Hs2].
  apply step_first_brake_quiet in H2. destruct H2 as (_ & _ & K2 & _).
  destruct (step_countdown_config sim2) as [Hv3 Hs3].
  destruct (step_countdown_quiet sim2) as (_ & K3 & _).
  pose proof (step_tasc_config _ _ H4) as [Hv4 Hs4].
  apply step_tasc_quiet in H4. destruct H4 as (_ & _ & K4 & _).
  apply step_finish_quiet in H6. destruct H6 as (_ & _ & K6 & _).
  assert (K : kinematic_view sim4 = kinematic_view sim).
  { rewrite K4, K3, K2. exact K0. }
  assert (Hveh : Sim.veh sim4 = Sim.veh sim) by (simpl in Hv2; congruence).
  assert (Hscn : Sim.scn sim4 = Sim.scn sim) by (simpl in Hs2; congruence).
  pose proof (step_dynamics_kinematics sim4 sim5 H5) as Hk. cbv zeta in Hk.
  unfold kinematic_view in K, K6. cbv zeta in K, K6.
  injection K as Kt Ks Kv Ka. injection K6 as Kt6 Ks6 Kv6 Ka6.
  rewrite Kt6, Ks6, Kv6, Ka6.
  rewrite Kt, Ks, Kv, Ka, Hveh, Hscn in Hk.
  destruct Hk as (Et & Ev & Es & Ej).
  split; [apply Ej; assumption|]. auto.
Qed.

(** ** A finished run *)

Lemma apply_command_record (sim : Sim) (cmd : Cmd) :
  record_view (_apply_command sim cmd) = record_view sim.
Proof.
  unfold _apply_command. repeat break_goal; reflexivity.
Qed.

Lemma drain_record (queue : list Cmd) (sim : Sim) :
  record_view (drain sim queue) = record_view sim.
Proof.
  revert sim. induction queue as [|c q IH]; intro sim; simpl.
  - reflexivity.
  - destruct (_ <=? _); [|reflexivity].
    rewrite IH. apply apply_command_record.
Qed.

(** X16.  A tick on a finished run raises nothing and freezes the motion:
    clock and position stand still, the acceleration is zeroed, the
    velocity is floored at zero, and the stop error, the residual speed,
    the score and the countdown keep their values.  The tick still drains
    the commands that are due and still appends the clock to the time
    log. *)
Theorem step_finished_frozen (sim : Sim) :
  State.finished (Sim.state sim) = true ->
  exists sim' : Sim,
    step sim = Some sim'
    /\ (let st := Sim.state sim in
        let st' := Sim.state sim' in
        State.finished st' = true
        /\ State.t st' = State.t st
        /\ State.s st' = State.s st
        /\ State.a st' = 0.0
        /\ State.v st' = py_max 0.0 (State.v st)
        /\ State.stop_error_m st' = State.stop_error_m st
        /\ State.residual_speed_kmh st' = State.residual_speed_kmh st
        /\ State.score st' = State.score st)
    /\ countdown_view sim' = countdown_view sim
    /\ lever_view sim' = lever_view (drain sim (Sim._cmd_queue sim))
    /\ RunEval.time_history (Sim.ev sim')
       = RunEval.time_history (Sim.ev sim) ++ [State.t (Sim.state sim)].
Proof.
  intro Hfin. eexists. split; [apply (step_finished sim Hfin)|].
  destruct (drain_quiet (Sim._cmd_queue sim) sim) as (C0 & K0 & F0).
  pose proof (drain_record (Sim._cmd_queue sim) sim) as R0.
  set (sim0 := drain sim (Sim._cmd_queue sim)) in *.
  unfold kinematic_view in K0. cbv zeta in K0. injection K0 as Kt Ks Kv Ka.
  unfold record_view in R0. injection R0 as Re Rr Rs _ Rt _ _.
  cbv zeta. cbn [Sim.state set_state set_a_v State.finished State.t State.s
                 State.a State.v State.stop_error_m State.residual_speed_kmh
                 State.score step_record set_ev].
  rewrite Kt, Ks, Kv, Re, Rr, Rs.
  split.
  - split; [apply F0; exact Hfin|]. auto 10.
  - split; [exact C0|]. split; [reflexivity|].
    cbn. rewrite Rt, Kt. reflexivity.
Qed.

(** ** The finish test *)

Lemma step_finish_verdict (sim sim' : Sim) :
  step_finish sim = Some sim' ->
  State.finished (Sim.state sim) = false ->
  let rem := Scenario.L (Sim.scn sim) - State.s (Sim.state sim) in
  (State.finished (Sim.state sim') = true
   <-> rem <= - 5.0 \/ (rem <= 1.0 /\ State.v (Sim.state sim) <= 0.0))
  /\ (State.finished (Sim.state sim') = true ->
      State.stop_error_m (Sim.state sim') = Some rem
      /\ State.residual_speed_kmh (Sim.state sim')
         = Some (State.v (Sim.state sim) * 3.6)
      /\ Sim.final_notch_on_finish sim'
         = State.lever_notch (Sim.state sim)).
Proof.
  unfold step_finish. intros H Hf. cbv zeta. rewrite Hf in H.
  cbn [negb andb] in H.
  set (rem := Scenario.L (Sim.scn sim) - State.s (Sim.state sim)) in *.
  destruct ((rem <=? - 5.0) || ((rem <=? 1.0) && (State.v (Sim.state sim) <=? 0.0)))
    eqn:E.
  - bind_inv H. bind_inv H. destruct x0 as [avg_jerk jerk_score].
    injection H as <-. cbn.
    split; [|auto].
    split; [intros _|reflexivity].
    apply orb_prop in E. destruct E as [E|E].
    + left. apply Qleb_true in E. exact E.
    + right. apply andb_prop in E. destruct E as [E1 E2].
      apply Qleb_true in E1. apply Qleb_true in E2. auto.
  - injection H as <-. rewrite Hf.
    split; [|discriminate].
    split; [discriminate|]. intro Hc. exfalso.
    apply orb_false_elim in E. destruct E as [E1 E2].
    apply Qleb_false in E1.
    destruct Hc as [Hc|[Hc1 Hc2]]; [lra|].
    apply andb_false_elim in E2.
    destruct E2 as [E2|E2]; apply Qleb_false in E2; lra.
Qed.

(** X17.  When a run finishes.  A tick on an unfinished run sets the
    finished flag exactly when, after the integration of the tick, the
    train is five metres or more past the mark, or stands still (velocity
    at most zero) no more than one metre before it.  The stop error
    recorded is the remaining distance at that moment, so it is never more
    than one metre; the residual speed is the velocity in km/h, and the
    lever notch is saved as the final notch. *)
Theorem step_finish_condition (sim sim' : Sim) :
  step sim = Some sim' ->
  State.finished (Sim.state sim) = false ->
  let st' := Sim.state sim' in
  let rem := Scenario.L (Sim.scn sim) - State.s st' in
  (State.finished st' = true
   <-> rem <= - 5.0 \/ (rem <= 1.0 /\ State.v st' <= 0.0))
  /\ (State.finished st' = true ->
      State.stop_error_m st' = Some rem
      /\ rem <= 1.0
      /\ State.residual_speed_kmh st' = Some (State.v st' * 3.6)
      /\ Sim.final_notch_on_finish sim' = State.lever_notch st').
Proof.
  intros H Hfin. cbv zeta.
  destruct (step_unfinished sim sim' H Hfin)
    as (sim2 & sim4 & sim5 & H2 & H4 & H5 & H6).
  assert (Hscn : Sim.scn sim5 = Sim.scn sim).
  { pose proof (drain_frame (Sim._cmd_queue sim) sim) as Hf.
    apply frame_inv in Hf. destruct Hf as (_ & Hs0 & _).
    apply step_first_brake_config in H2. destruct H2 as [_ Hs2].
    destruct (step_countdown_config sim2) as [_ Hs3].
    apply step_tasc_config in H4. destruct H4 as [_ Hs4].
    apply step_dynamics_config in H5. destruct H5 as [_ Hs5].
    simpl in Hs2. congruence. }
  assert (Hf5 : State.finished (Sim.state sim5) = false).
  { pose proof (drain_kept (Sim._cmd_queue sim) sim) as K0.
    apply step_first_brake_kept in H2.
    pose proof (step_countdown_kept sim2) as K3.
    apply step_tasc_kept in H4. apply step_dynamics_kept in H5.
    rewrite H4, K3, H2 in H5. unfold kept in H5, K0. simpl in H5.
    injection H5 as E5 _ _. injection K0 as E0 _ _. congruence. }
  pose proof (step_finish_verdict sim5 sim' H6 Hf5) as Hv. cbv zeta in Hv.
  apply step_finish_quiet in H6. destruct H6 as (L6 & _ & K6 & _).
  unfold kinematic_view in K6. cbv zeta in K6. injection K6 as _ Ks Kv _.
  unfold lever_view in L6. injection L6 as Ll _ _.
  rewrite Hscn, <- Ks, <- Kv, <- Ll in Hv.
  destruct Hv as [Hiff Hres]. split; [exact Hiff|].
  intro Hf'. destruct (Hres Hf') as (E1 & E2 & E3).
  split; [exact E1|]. split; [|auto].
  apply Hiff in Hf'. destruct Hf' as [Hc|[Hc _]]; lra.
Qed.

(** ** Clock and countdown over a run *)

Lemma step_countdown_ext (sim1 sim2 : Sim) :
  countdown_view sim1 = countdown_view sim2 ->
  Sim.scn sim1 = Sim.scn sim2 ->
  State.finished (Sim.state sim1) = State.finished (Sim.state sim2) ->
  countdown_view (step_countdown sim1) = countdown_view (step_countdown sim2).
Proof.
  unfold countdown_view, step_countdown. cbv zeta.
  intros H Hs Hf. injection H as E1 E2 E3 E4 E5 E6 E7.
  rewrite Hs, Hf, E2, E3, E7.
  repeat break_goal; cbn; congruence.
Qed.

Lemma step_countdown_lifted (sim sim' : Sim) :
  step sim = Some sim' ->
  countdown_view sim' = countdown_view (step_countdown sim).
Proof.
  intro H.
  destruct (drain_quiet (Sim._cmd_queue sim) sim) as (C0 & _ & _).
  pose proof (drain_frame (Sim._cmd_queue sim) sim) as Hf.
  apply frame_inv in Hf. destruct Hf as (_ & Hs0 & _ & _ & Hf0 & _).
  destruct (State.finished (Sim.state sim)) eqn:Hfin.
  - rewrite (step_finished sim Hfin) in H. injection H as <-.
    assert (E : step_countdown sim = sim).
    { unfold step_countdown. rewrite Hfin, andb_false_r. reflexivity. }
    rewrite E. exact C0.
  - destruct (step_unfinished sim sim' H Hfin)
      as (sim2 & sim4 & sim5 & H2 & H4 & H5 & H6).
    pose proof (step_first_brake_config _ _ H2) as [_ Hs2].
    pose proof (step_first_brake_kept _ _ H2) as K2.
    apply step_first_brake_quiet in H2. destruct H2 as (_ & C2 & _).
    apply step_tasc_quiet in H4. destruct H4 as (_ & C4 & _).
    apply step_dynamics_quiet in H5. destruct H5 as (_ & C5 & _).
    apply step_finish_quiet in H6. destruct H6 as (_ & C6 & _).
    rewrite C6, C5, C4. apply step_countdown_ext.
    + rewrite C2. exact C0.
    + simpl in Hs2. congruence.
    + unfold kept in K2. injection K2 as E _ _. simpl in E. congruence.
Qed.

Lemma step_clock (sim sim' : Sim) :
  step sim = Some sim' ->
  State.finished (Sim.state sim) = false ->
  State.t (Sim.state sim')
  = State.t (Sim.state sim) + Scenario.dt (Sim.scn sim).
Proof.
  intros H Hfin.
  destruct (step_unfinished sim sim' H Hfin)
    as (sim2 & sim4 & sim5 & H2 & H4 & H5 & H6).
  pose proof (drain_frame (Sim._cmd_queue sim) sim) as Hf.
  apply frame_inv in Hf. destruct Hf as (_ & Hs0 & Ht0 & _).
  pose proof (step_first_brake_config _ _ H2) as [_ Hs2].
  apply step_first_brake_quiet in H2. destruct H2 as (_ & _ & K2 & _).
  destruct (step_countdown_config sim2) as [_ Hs3].
  destruct (step_countdown_quiet sim2) as (_ & K3 & _).
  pose proof (step_tasc_config _ _ H4) as [_ Hs4].
  apply step_tasc_quiet in H4. destruct H4 as (_ & _ & K4 & _).
  pose proof (step_dynamics_kinematics sim4 sim5 H5) as (Et & _).
  apply step_finish_quiet in H6. destruct H6 as (_ & _ & K6 & _).
  unfold kinematic_view in K2, K3, K4, K6. cbv zeta in K2, K3, K4, K6.
  injection K2 as T2 _ _ _. injection K3 as T3 _ _ _.
  injection K4 as T4 _ _ _. injection K6 as T6 _ _ _.
  simpl in Hs2, T2. rewrite T6, Et. congruence.
Qed.

Lemma run_flags_kept (n : nat) (sim sim' : Sim) :
  run n sim = Some sim' -> flags_kept sim sim'.
Proof.
  revert sim. induction n as [|n IH]; intros sim H; simpl in H.
  - injection H as <-. apply flags_kept_refl.
  - bind_inv H. eapply flags_kept_trans; [|apply (IH x H)].
    apply step_flags_kept. exact Hx.
Qed.

(** X18.  Over any number of ticks: while the run is unfinished the clock
    has advanced by the time step per tick and, with the timer on, the
    remaining time has dropped by the same amount; the budget and the timer
    switch never change; and once the overrun has started the overrun
    fields are never written again, so they keep the first overshoot and
    not the running one. *)
Theorem run_clock_and_countdown (n : nat) (sim sim' : Sim) :
  run n sim = Some sim' ->
  let st := Sim.state sim in
  let st' := Sim.state sim' in
  let elapsed := inject_Z (Z.of_nat n) * Scenario.dt (Sim.scn sim) in
  (State.finished st' = false ->
   State.t st' == State.t st + elapsed
   /\ (State.timer_enabled st = true ->
       State.time_remaining_s st' == State.time_remaining_s st - elapsed))
  /\ (State.time_overrun_started st = true ->
      State.time_overrun_s st' = State.time_overrun_s st
      /\ State.time_overrun_int st' = State.time_overrun_int st)
  /\ State.time_budget_s st' = State.time_budget_s st
  /\ State.timer_enabled st' = State.timer_enabled st.
Proof.
  cbv zeta. revert sim. induction n as [|n IH]; intros sim H; simpl in H.
  - injection H as <-. simpl Z.of_nat. change (inject_Z 0) with 0.
    split; [intros _; split; [|intros _]; lra|]. auto.
  - bind_inv H.
    destruct (IH x H) as (IH1 & IH2 & IH3 & IH4).
    pose proof (step_countdown_lifted sim x Hx) as Hc.
    pose proof (step_config sim x Hx) as [_ Hs].
    pose proof (run_flags_kept n x sim' H) as (Fx & _).
    pose proof (step_flags_kept sim x Hx) as (F1 & _).
    rewrite Hs in IH1.
    assert (Hn : inject_Z (Z.of_nat (S n)) == 1 + inject_Z (Z.of_nat n)).
    { rewrite Nat2Z.inj_succ. unfold Z.succ. rewrite inject_Z_plus.
      change (inject_Z 1) with 1. lra. }
    unfold countdown_view, step_countdown in Hc. cbv zeta in Hc.
    split; [|split].
    + intro Hf'.
      assert (Hfx : State.finished (Sim.state x) = false).
      { destruct (State.finished (Sim.state x)); [|reflexivity].
        rewrite Fx in Hf' by reflexivity. discriminate. }
      assert (Hf : State.finished (Sim.state sim) = false).
      { destruct (State.finished (Sim.state sim)); [|reflexivity].
        rewrite F1 in Hfx by reflexivity. discriminate. }
      destruct (IH1 Hf') as [Et Er].
      rewrite (step_clock sim x Hx Hf) in Et.
      split; [rewrite Et, Hn; lra|].
      intro Hen. rewrite Hen, Hf in Hc. cbn [negb andb] in Hc.
      assert (Hx' : State.time_remaining_s (Sim.state x)
                    = State.time_remaining_s (Sim.state sim)
                      - Scenario.dt (Sim.scn sim)
                    /\ State.timer_enabled (Sim.state x) = true).
      { revert Hc. break_goal; cbn; intro Hc;
          injection Hc as _ E2 E3 _ _ _ _; split; congruence. }
      destruct Hx' as [E2 E3].
      rewrite (Er E3), E2, Hn. lra.
    + intro Hst. rewrite Hst in Hc. rewrite andb_false_r in Hc.
      assert (Hx' : State.time_overrun_s (Sim.state x)
                    = State.time_overrun_s (Sim.state sim)
                    /\ State.time_overrun_int (Sim.state x)
                       = State.time_overrun_int (Sim.state sim)
                    /\ State.time_overrun_started (Sim.state x) = true).
      { revert Hc. break_goal; cbn; intro Hc;
          injection Hc as _ _ _ _ E5 E6 E7; repeat split; congruence. }
      destruct Hx' as (E5 & E6 & E7).
      destruct (IH2 E7) as [G1 G2]. split; congruence.
    + assert (Hx' : State.time_budget_s (Sim.state x)
                    = State.time_budget_s (Sim.state sim)
                    /\ State.timer_enabled (Sim.state x)
                       = State.timer_enabled (Sim.state sim)).
      { revert Hc. repeat break_goal; cbn; intro Hc;
          injection Hc as E1 _ E3 _ _ _ _; split; congruence. }
      destruct Hx' as [E1 E3]. split; congruence.
Qed.

(** ** The prediction cache of the controller *)


(** ** The countdown budget *)

Lemma time_budget_auto_clamped (sim : Sim) (v_kmh L_m t : Q) :
  _compute_time_budget_auto sim v_kmh L_m = Some t ->
  Timer.timer_min_s (Sim.timer sim) <= t
  /\ (Timer.timer_min_s (Sim.timer sim) <= Timer.timer_max_s (Sim.timer sim) ->
      t <= Timer.timer_max_s (Sim.timer sim)).
Proof.
  unfold _compute_time_budget_auto. intro H.
  bind_inv H. bind_inv H. bind_inv H. injection H as <-.
  split; [apply py_max_l|].
  intro Hle.
  match goal with
  | |- py_max ?a (py_min ?b ?c) <= _ =>
      pose proof (py_min_l b c);
      destruct (py_max_cases a (py_min b c)) as [[_ ->]|[_ ->]]; lra
  end.
Qed.

(** X20.  With the timer on and a calibration table present, the budget
    that a reset hands out is never below [timer_min_s] and, when the two
    limits are in order, never above [timer_max_s]; the countdown starts at
    the budget and its integer display at the floor of the budget. *)
Theorem reset_budget_within_limits (sim sim1 : Sim) :
  reset sim = Some sim1 ->
  State.timer_enabled (Sim.state sim) = true ->
  Timer.timer_calib (Sim.timer sim) <> [] ->
  let tm := Sim.timer sim in
  let st1 := Sim.state sim1 in
  Timer.timer_min_s tm <= State.time_budget_s st1
  /\ (Timer.timer_min_s tm <= Timer.timer_max_s tm ->
      State.time_budget_s st1 <= Timer.timer_max_s tm)
  /\ State.time_remaining_s st1 = State.time_budget_s st1
  /\ State.time_remaining_int st1 = Qfloor (State.time_budget_s st1)
  /\ State.timer_enabled st1 = true.
Proof.
  intros H Hen Hcal. cbv zeta.
  destruct (reset_inv sim sim1 H) as (b & Hb & ->).
  rewrite Hen in Hb. unfold _compute_time_budget in Hb.
  rewrite Hen in Hb. cbn [negb] in Hb.
  destruct (Timer.timer_calib (Sim.timer sim)) as [|p ps] eqn:Ec;
    [contradiction|].
  apply time_budget_auto_clamped in Hb.
  cbn [reset_to Sim.state State.time_budget_s State.time_remaining_s
       State.time_remaining_int State.timer_enabled].
  destruct Hb as [H1 H2]. auto.
Qed.

Lemma nearest_key_first_least (v0_round : Z) (best : Z * Q)
    (l : list (Z * Q)) :
  let dist := fun kv : Z * Q => Z.abs (fst kv - v0_round) in
  let r := nearest_key v0_round best l in
  exists l1 l2 : list (Z * Q),
    best :: l = l1 ++ r :: l2
    /\ Forall (fun kv => (dist r < dist kv)%Z) l1
    /\ Forall (fun kv => (dist r <= dist kv)%Z) l2.
Proof.
  cbv zeta. revert best. induction l as [|kv l IH]; intro best.
  - exists [], []. simpl. auto.
  - cbn [nearest_key].
    destruct (Z.abs (fst kv - v0_round) <? Z.abs (fst best - v0_round))%Z
      eqn:E.
    + apply Z.ltb_lt in E.
      destruct (IH kv) as (l1 & l2 & Hl & H1 & H2).
      exists (best :: l1), l2. split; [cbn [app]; f_equal; exact Hl|].
      split; [|exact H2]. constructor; [|exact H1].
      assert (Hr : (Z.abs (fst (nearest_key v0_round kv l) - v0_round)
                    <= Z.abs (fst kv - v0_round))%Z).
      { destruct l1 as [|x l1].
        - injection Hl as <- _. lia.
        - injection Hl as <- _. inversion H1; subst. lia. }
      lia.
    + apply Z.ltb_ge in E.
      destruct (IH best) as (l1 & l2 & Hl & H1 & H2).
      destruct l1 as [|x l1].
      * injection Hl as Hb Hl2. exists [], (kv :: l2).
        split; [cbn [app]; rewrite <- Hb; congruence|].
        split; [constructor|]. constructor; [rewrite <- Hb; exact E|exact H2].
      * injection Hl as <- Hl2. inversion H1 as [|? ? Hx H1']; subst.
        exists (best :: kv :: l1), l2.
        split; [cbn [app]; do 2 f_equal; exact Hl2|].
        split; [|exact H2].
        constructor; [exact Hx|]. constructor; [lia | exact H1'].
Qed.

(** X21.  With the timer on, no calibration table and the static table in
    use, the budget is the value of the table entry whose speed key is
    nearest to the initial speed in km/h, rounded half to even; among
    entries at the same distance the first one of the table wins. *)
Theorem time_budget_table_nearest (sim : Sim) :
  State.timer_enabled (Sim.state sim) = true ->
  Timer.timer_calib (Sim.timer sim) = [] ->
  Timer.timer_use_table (Sim.timer sim) = true ->
  Timer.timer_table (Sim.timer sim) <> [] ->
  let v0_round := py_round (Scenario.v0 (Sim.scn sim) * 3.6) in
  let dist := fun kv : Z * Q => Z.abs (fst kv - v0_round) in
  exists (l1 l2 : list (Z * Q)) (k : Z) (t : Q),
    Timer.timer_table (Sim.timer sim) = l1 ++ (k, t) :: l2
    /\ _compute_time_budget sim = Some t
    /\ Forall (fun kv => (dist (k, t) < dist kv)%Z) l1
    /\ Forall (fun kv => (dist (k, t) <= dist kv)%Z) l2.
Proof.
  intros Hen Hcal Huse Htab. cbv zeta.
  unfold _compute_time_budget. rewrite Hen, Hcal, Huse. cbn [negb].
  destruct (Timer.timer_table (Sim.timer sim)) as [|kv l]; [contradiction|].
  destruct (nearest_key_first_least
              (py_round (Scenario.v0 (Sim.scn sim) * 3.6)) kv l)
    as (l1 & l2 & Hl & H1 & H2).
  cbv zeta in Hl, H1, H2.
  destruct (nearest_key (py_round (Scenario.v0 (Sim.scn sim) * 3.6)) kv l)
    as [k t] eqn:Ek.
  exists l1, l2, k, t. split; [exact Hl|]. split; [reflexivity|].
  split; assumption.
Qed.

(** ** Whole runs *)

Lemma step_queue_suffix (sim sim' : Sim) :
  step sim = Some sim' ->
  exists due : list Cmd, Sim._cmd_queue sim = due ++ Sim._cmd_queue sim'.
Proof.
  intro H. destruct (step_lever_view sim sim' H) as [Hl _].
  unfold lever_view in Hl. injection Hl as _ _ Hq.
  destruct (drain_due_prefix (Sim._cmd_queue sim) sim)
    as (due & rest & Hd & _ & _ & He).
  rewrite He in Hq. simpl in Hq. exists due. congruence.
Qed.

(** X22.  From a state whose internal notch is neutral or a service notch
    and whose queue holds no "setInternalNotch" command, on a vehicle whose
    notch table has as many entries as it has notches (at least two), any
    number of ticks keeps the internal notch between 0 and the strongest
    service notch: the controller never reaches the emergency notch and
    never a traction notch. *)
Theorem run_keeps_internal_range (n : nat) (sim sim' : Sim) :
  len (Vehicle.notch_accels (Sim.veh sim)) = Vehicle.notches (Sim.veh sim) ->
  (2 <= Vehicle.notches (Sim.veh sim))%Z ->
  no_internal_cmd (Sim._cmd_queue sim) ->
  internal_in_range sim ->
  run n sim = Some sim' ->
  internal_in_range sim' /\ no_internal_cmd (Sim._cmd_queue sim').
Proof.
  revert sim. induction n as [|n IH]; intros sim Hlen Hn Hq Hr H;
    simpl in H.
  - injection H as <-. auto.
  - bind_inv H.
    destruct (step_config sim x Hx) as [Hv _].
    apply (IH x); [rewrite Hv; exact Hlen | rewrite Hv; exact Hn | |
                   | exact H].
    + destruct (step_queue_suffix sim x Hx) as [due Hd].
      unfold no_internal_cmd in *. rewrite Hd in Hq.
      apply Forall_app in Hq. tauto.
    + eapply step_keeps_internal_range; eassumption.
Qed.

Lemma step_bookkeeping (sim sim' : Sim) :
  step sim = Some sim' -> bookkeeping_ok sim -> bookkeeping_ok sim'.
Proof.
  intros H Hb.
  pose proof (drain_frame (Sim._cmd_queue sim) sim) as Hf.
  apply frame_inv in Hf. destruct Hf as (_ & _ & _ & _ & _ & Hn0 & Ht0).
  set (sim0 := drain sim (Sim._cmd_queue sim)) in *.
  assert (B1 : bookkeeping_ok (step_record sim0)).
  { unfold bookkeeping_ok. simpl. rewrite Hn0, Ht0. exact Hb. }
  destruct (State.finished (Sim.state sim)) eqn:Hfin.
  - rewrite (step_finished sim Hfin) in H. injection H as <-. exact B1.
  - destruct (step_unfinished sim sim' H Hfin)
      as (sim2 & sim4 & sim5 & H2 & H4 & H5 & H6).
    fold sim0 in H2.
    assert (B2 : bookkeeping_ok sim2).
    { revert H2 B1. generalize (step_record sim0). intros s H2 B1.
      unfold step_first_brake in H2. cbv beta iota zeta in H2.
      unfold bookkeeping_ok in *.
      revert H2.
      repeat (break_goal; cbv beta iota zeta);
        intro H2; first [discriminate H2 | injection H2 as <-];
        simpl in *; try congruence; auto. }
    assert (B3 : bookkeeping_ok (step_countdown sim2)).
    { unfold bookkeeping_ok.
      destruct (step_countdown_quiet sim2) as (_ & _ & -> & _). exact B2. }
    assert (B4 : bookkeeping_ok sim4).
    { revert H4 B3. generalize (step_countdown sim2). intros s H4 B3.
      unfold step_tasc in H4.
      destruct (Tasc.tasc_enabled (Sim.tasc s)
                && negb (State.finished (Sim.state s)));
        [|injection H4 as <-; exact B3].
      match type of H4 with
      | context [set_tasc s ?tc] => set (tc1 := tc) in *
      end.
      destruct (Tasc.tasc_active tc1); [|injection H4 as <-; exact B3].
      destruct (negb (RunEval.first_brake_done (Sim.ev (set_tasc s tc1))));
        [injection H4 as <-; exact B3|].
      bind_inv H4. destruct x as [sim1 [[s_cur s_up] s_dn]].
      apply tasc_predict_shape in Hx. destruct Hx as [tc' ->].
      revert H4. cbv beta iota zeta.
      repeat (break_goal; cbv beta iota zeta);
        intro H4; injection H4 as <-; exact B3. }
    assert (B5 : bookkeeping_ok sim5).
    { apply step_dynamics_kept in H5 as K5.
      unfold step_dynamics in H5. bind_inv H5.
      destruct (_wsp_update _ _ _ _) as [sim1 a_brake] eqn:Ew.
      assert (Hc : Sim.ev sim1 = Sim.ev sim4).
      { revert Ew. unfold _wsp_update, _update_brake_dyn_split.
        destruct (brake_split_lag _ _ _ _ _ _) as [e a].
        cbv beta iota zeta. simpl.
        repeat break_goal; intro H'; injection H' as <- _; auto. }
      bind_inv H5. injection H5 as <-.
      unfold bookkeeping_ok. simpl. rewrite Hc. exact B4. }
    unfold step_finish in H6.
    destruct (negb _ && _).
    + bind_inv H6. bind_inv H6. destruct x0 as [avg_jerk jerk_score].
      injection H6 as <-. exact B5.
    + injection H6 as <-. exact B5.
Qed.

(** X23.  A run raises no exception: on a vehicle of non-zero mass with a
    traction table, a non-zero time step and consistent first-brake
    bookkeeping, any number of ticks returns a state. *)
Theorem run_total (n : nat) (sim : Sim) :
  veh_ok (Sim.veh sim) ->
  ~ Scenario.dt (Sim.scn sim) == 0 ->
  bookkeeping_ok sim ->
  exists sim' : Sim, run n sim = Some sim'.
Proof.
  revert sim. induction n as [|n IH]; intros sim Hok Hdt Hb; simpl.
  - eexists; reflexivity.
  - destruct (step_total sim Hok Hdt Hb) as [x Hx]. rewrite Hx. cbn [bind].
    destruct (step_config sim x Hx) as [Hv Hs].
    apply IH; [rewrite Hv; exact Hok | rewrite Hs; exact Hdt |].
    eapply step_bookkeeping; eassumption.
Qed.

Ltac eval_string_eqb :=
  repeat match goal with
         | |- context [String.eqb ?a ?b] =>
             let r := eval vm_compute in (String.eqb a b) in
             change (String.eqb a b) with r
         end.

(** X24.  Command latency.  A notch command ("stepNotch", "setNotch" or
    "release") issued at 0.05 m/s or slower is applied at once and never
    queued.  Issued on a moving train it only joins the queue, due
    [tau_cmd] later; with an empty queue and a positive latency the next
    tick leaves the lever where it was and the command queued. *)
Theorem notch_command_latency (sim : Sim) (name : string) (val : Z) :
  name = "stepNotch"%string \/ name = "setNotch"%string
  \/ name = "release"%string ->
  let t := State.t (Sim.state sim) in
  let cmd := mkCmd (t + Vehicle.tau_cmd (Sim.veh sim)) name val in
  (State.v (Sim.state sim) <= 0.05 ->
   queue_command sim name val = _apply_command sim (mkCmd t name val))
  /\ (0.05 < State.v (Sim.state sim) ->
      queue_command sim name val
      = set_cmd_queue sim (Sim._cmd_queue sim ++ [cmd])
      /\ (Sim._cmd_queue sim = [] ->
          0 < Vehicle.tau_cmd (Sim.veh sim) ->
          forall sim' : Sim,
            step (queue_command sim name val) = Some sim' ->
            lever_view sim'
            = (State.lever_notch (Sim.state sim),
               State.atc_overspeed (Sim.state sim), [cmd]))).
Proof.
  intros Hname. cbv zeta.
  assert (Hq : forall b : bool,
             (State.v (Sim.state sim) <=? 0.05) = b ->
             queue_command sim name val
             = if b then _apply_command sim
                           (mkCmd (State.t (Sim.state sim)) name val)
               else set_cmd_queue sim
                      (Sim._cmd_queue sim
                       ++ [mkCmd (State.t (Sim.state sim)
                                  + Vehicle.tau_cmd (Sim.veh sim)) name val])).
  { intros b Hb. unfold queue_command. cbv zeta. rewrite Hb.
    destruct Hname as [-> | [-> | ->]]; eval_string_eqb;
      destruct b; reflexivity. }
  split.
  - intro Hv. apply (Hq true). apply Qleb_true. exact Hv.
  - intro Hv.
    assert (E : queue_command sim name val
                = set_cmd_queue sim
                    (Sim._cmd_queue sim
                     ++ [mkCmd (State.t (Sim.state sim)
                                + Vehicle.tau_cmd (Sim.veh sim)) name val]))
      by (apply (Hq false); apply Qleb_false; exact Hv).
    split; [exact E|].
    intros Hempty Htau sim' H. rewrite E, Hempty in H.
    destruct (step_lever_view _ _ H) as [_ Hl].
    rewrite Hl; [reflexivity|].
    cbn. lra.
Qed.

(** * Properties of the vehicle data and of the session *)

(** ** Davis coefficients *)

Lemma apply_load_inputs (vo1 vo2 : vehicle_obj) (cur_length : Z)
    (cur_load_rate : Q) :
  load_inputs vo1 = load_inputs vo2 ->
  apply_load vo1 cur_length cur_load_rate
  = apply_load vo2 cur_length cur_load_rate.
Proof.
  destruct vo1 as [veh1 dv1], vo2 as [veh2 dv2].
  destruct veh1, veh2, dv1, dv2. unfold load_inputs. cbn.
  intro H. injection H. intros. subst. reflexivity.
Qed.

Lemma apply_load_keeps_inputs (vo vo' : vehicle_obj) (cur_length : Z)
    (cur_load_rate : Q) :
  apply_load vo cur_length cur_load_rate = Some vo' ->
  load_inputs vo' = load_inputs vo.
Proof.
  destruct vo as [veh dv]. destruct veh, dv.
  unfold apply_load, update_mass, recompute_davis, calibrate_C2_from_power,
    load_inputs.
  cbn [fst snd set_mass_kg set_davis_coeffs set_Cd_A Vehicle.type_high_speed
       Vehicle.P_max_kW Vehicle.mass_kg Davis.mass_t].
  destruct type_high_speed; cbv beta iota zeta;
    cbn [fst snd set_mass_kg set_davis_coeffs set_Cd_A
         Vehicle.type_high_speed Vehicle.P_max_kW Vehicle.mass_kg
         Davis.mass_t];
    destruct (P_max_kW <=? 0); intro H;
    try (bind_inv H); injection H as <-; reflexivity.
Qed.

Lemma apply_load_result (vo : vehicle_obj) (cur_length : Z)
    (cur_load_rate : Q) :
  0 < Davis.mass_t (snd vo) ->
  (0 < cur_length)%Z ->
  0 <= cur_load_rate ->
  0 <= Davis.davis_k0 (snd vo) ->
  0 <= Davis.davis_B1_ref (snd vo) ->
  0 <= Davis.rho_air (snd vo) ->
  exists vo' : vehicle_obj,
    apply_load vo cur_length cur_load_rate = Some vo'
    /\ Vehicle.mass_kg (fst vo')
       = inject_Z cur_length
         * (Davis.mass_t (snd vo) + 10.5 * cur_load_rate) * 1000.0
    /\ 0 < Vehicle.mass_kg (fst vo')
    /\ 0 <= Vehicle.A0 (fst vo')
    /\ 0 <= Vehicle.B1 (fst vo')
    /\ 0 <= Vehicle.C2 (fst vo').
Proof.
  intros Hmt Hlen Hload Hk Hb Hr.
  assert (Hl : 0 < inject_Z cur_length).
  { change 0 with (inject_Z 0). rewrite <- Zlt_Qlt. exact Hlen. }
  destruct vo as [veh dv]. destruct veh, dv.
  cbn [fst snd Davis.mass_t Davis.davis_k0 Davis.davis_B1_ref Davis.rho_air]
    in *.
  set (m := inject_Z cur_length * (mass_t + 10.5 * cur_load_rate) * 1000.0).
  assert (Hm : 0 < m) by (unfold m; nra).
  assert (Hv : ~ 300.0 / 3.6 * (300.0 / 3.6) == 0)
    by (intro E; vm_compute in E; discriminate).
  assert (Hd : 0 <= m / py_max 1.0 davis_m_ref).
  { apply Qdiv_nonneg; [lra|]. pose proof (py_max_l 1.0 davis_m_ref). lra. }
  unfold apply_load, update_mass, recompute_davis, calibrate_C2_from_power.
  destruct type_high_speed; cbv beta iota zeta;
    cbn [fst snd set_mass_kg set_davis_coeffs set_Cd_A
         Vehicle.type_high_speed Vehicle.P_max_kW Vehicle.mass_kg
         Vehicle.A0 Vehicle.B1 Vehicle.C2
         Davis.mass_t Davis.rho_air Davis.Cd Davis.A Davis.davis_k0
         Davis.davis_m_ref Davis.davis_B1_ref];
    fold m;
    (destruct (P_max_kW <=? 0);
     [|rewrite py_div_total by exact Hv; cbn [bind]]);
    eexists; (split; [reflexivity|]);
    cbn [fst snd set_davis_coeffs Vehicle.mass_kg Vehicle.A0 Vehicle.B1
         Vehicle.C2];
    (split; [reflexivity|]); (split; [exact Hm|]);
    repeat split;
    try match goal with
        | |- 0 <= py_max 0.0 ?x => pose proof (py_max_l 0.0 x); lra
        end;
    try (qdiv_const; nra); try nra.
Qed.

(** X25.  The load block of the session (length, load rate, Davis
    recomputation, calibration at 300 km/h) on a vehicle with a positive
    mass per car, at least one car, a non-negative load rate and
    non-negative Davis parameters: it raises nothing, the total mass is the
    number of cars times the sum of the empty mass and 10.5 t times the
    load rate, in kg and positive, and the three Davis coefficients are
    non-negative.  The result does not depend on the total mass, Davis
    coefficients, drag coefficient and frontal area that were there before,
    so applying the block a second time changes nothing. *)
Theorem apply_load_well_formed (vo : vehicle_obj) (cur_length : Z)
    (cur_load_rate : Q) :
  0 < Davis.mass_t (snd vo) ->
  (0 < cur_length)%Z ->
  0 <= cur_load_rate ->
  0 <= Davis.davis_k0 (snd vo) ->
  0 <= Davis.davis_B1_ref (snd vo) ->
  0 <= Davis.rho_air (snd vo) ->
  exists vo' : vehicle_obj,
    apply_load vo cur_length cur_load_rate = Some vo'
    /\ Vehicle.mass_kg (fst vo')
       = inject_Z cur_length
         * (Davis.mass_t (snd vo) + 10.5 * cur_load_rate) * 1000.0
    /\ 0 < Vehicle.mass_kg (fst vo')
    /\ 0 <= Vehicle.A0 (fst vo')
    /\ 0 <= Vehicle.B1 (fst vo')
    /\ 0 <= Vehicle.C2 (fst vo')
    /\ (forall vo2 : vehicle_obj,
          load_inputs vo2 = load_inputs vo ->
          apply_load vo2 cur_length cur_load_rate = Some vo')
    /\ apply_load vo' cur_length cur_load_rate = Some vo'.
Proof.
  intros Hmt Hlen Hload Hk Hb Hr.
  destruct (apply_load_result vo cur_length cur_load_rate
              Hmt Hlen Hload Hk Hb Hr)
    as (vo' & H & H1 & H2 & H3 & H4 & H5).
  exists vo'. repeat (split; [assumption|]).
  split.
  - intros vo2 Hin. rewrite <- H. apply apply_load_inputs. exact Hin.
  - rewrite <- H. apply apply_load_inputs.
    eapply apply_load_keeps_inputs. exact H.
Qed.

(** X26.  The calibration of the quadratic Davis coefficient.  Without a
    configured maximum power it changes nothing.  With one, and a target
    speed of at least 0.36 km/h, it returns, keeps every member but [C2],
    and makes [C2] non-negative; when the force available at the target
    speed, [P_max * eta / v], covers the constant and the linear
    resistance, the new [C2] makes the whole resistance at the target speed
    equal to that force, and otherwise it is zero. *)
Theorem calibrate_C2_balances (vo : vehicle_obj) (v_target_kmh eta : Q) :
  let veh := fst vo in
  let v := v_target_kmh / 3.6 in
  let F_avail := Vehicle.P_max_kW veh * 1000.0 * eta / v in
  (Vehicle.P_max_kW veh <= 0 ->
   calibrate_C2_from_power vo v_target_kmh eta = Some vo)
  /\ (0 < Vehicle.P_max_kW veh -> 0.36 <= v_target_kmh ->
      exists c2 : Q,
        calibrate_C2_from_power vo v_target_kmh eta
        = Some (set_davis_coeffs veh (Vehicle.A0 veh) (Vehicle.B1 veh) c2,
                snd vo)
        /\ 0 <= c2
        /\ (Vehicle.A0 veh + Vehicle.B1 veh * v <= F_avail ->
            Vehicle.A0 veh + Vehicle.B1 veh * v + c2 * v * v == F_avail)
        /\ (F_avail <= Vehicle.A0 veh + Vehicle.B1 veh * v -> c2 == 0)).
Proof.
  cbv zeta. unfold calibrate_C2_from_power. cbv zeta. split.
  - intro HP. apply Qleb_true in HP. rewrite HP. reflexivity.
  - intros HP Hv. apply Qleb_false in HP. rewrite HP.
    set (v := v_target_kmh / 3.6).
    assert (Hv1 : 0.1 <= v) by (unfold v; qdiv_const; lra).
    assert (Emax : py_max 0.1 v == v).
    { destruct (py_max_cases 0.1 v) as [[_ ->]|[Hc ->]]; lra. }
    assert (Hvv : ~ v * v == 0) by nra.
    rewrite py_div_total by exact Hvv. cbn [bind].
    set (F := Vehicle.P_max_kW (fst vo) * 1000.0 * eta).
    set (A0 := Vehicle.A0 (fst vo)). set (B1 := Vehicle.B1 (fst vo)).
    set (q := (F / py_max 0.1 v - A0 - B1 * v) / (v * v)).
    assert (Hq : q * v * v == F / v - A0 - B1 * v).
    { unfold q. rewrite Emax. field. lra. }
    eexists. split; [reflexivity|].
    split; [pose proof (py_max_l 0.0 q); lra|].
    split.
    + intro Hle.
      assert (Hq0 : 0 <= q).
      { assert (0 <= q * (v * v)) by lra.
        assert (0 < v * v) by nra. nra. }
      destruct (py_max_cases 0.0 q) as [[_ ->]|[Hc ->]]; [lra|].
      assert (Hz : q == 0) by lra. rewrite Hz in Hq. lra.
    + intro Hle.
      destruct (py_max_cases 0.0 q) as [[Hc ->]|[_ ->]]; [|lra].
      assert (0 < q * (v * v)) by (assert (0 < v * v) by nra; nra).
      lra.
Qed.

(** ** The vehicle of a session *)

Lemma recompute_davis_table (vo : vehicle_obj) (m : option Q) :
  Vehicle.notch_accels (fst (recompute_davis vo m))
  = Vehicle.notch_accels (fst vo)
  /\ Vehicle.notches (fst (recompute_davis vo m)) = Vehicle.notches (fst vo)
  /\ Vehicle.forward_notch_accels (fst (recompute_davis vo m))
     = Vehicle.forward_notch_accels (fst vo).
Proof.
  unfold recompute_davis.
  destruct (Vehicle.type_high_speed (fst vo)); cbv beta iota zeta;
    repeat split; reflexivity.
Qed.

Lemma apply_load_table (vo vo' : vehicle_obj) (n : Z) (r : Q) :
  apply_load vo n r = Some vo' ->
  Vehicle.notch_accels (fst vo') = Vehicle.notch_accels (fst vo)
  /\ Vehicle.notches (fst vo') = Vehicle.notches (fst vo)
  /\ Vehicle.forward_notch_accels (fst vo')
     = Vehicle.forward_notch_accels (fst vo).
Proof.
  intro H. apply apply_load_keeps_inputs in H.
  pose proof (f_equal (fun p => Vehicle.notch_accels (fst p)) H) as Ea.
  pose proof (f_equal (fun p => Vehicle.notches (fst p)) H) as En.
  pose proof (f_equal (fun p => Vehicle.forward_notch_accels (fst p)) H)
    as Ef.
  auto.
Qed.

Lemma reset_config (sim sim1 : Sim) :
  reset sim = Some sim1 ->
  Sim.veh sim1 = Sim.veh sim /\ Sim.scn sim1 = Sim.scn sim
  /\ Sim.timer sim1 = Sim.timer sim.
Proof.
  intro H. destruct (reset_inv sim sim1 H) as (b & _ & ->). auto.
Qed.

Lemma ws_init_vehicle (data : VehicleJson.VehicleJson)
    (scenario_json : ScenarioJson.ScenarioJson) (ses : Session) :
  ws_init data scenario_json = Some ses ->
  Vehicle.notch_accels (Sim.veh (ses_sim ses))
  = Vehicle.notch_accels (fst (session_vehicle data))
  /\ Vehicle.notches (Sim.veh (ses_sim ses))
     = Vehicle.notches (fst (session_vehicle data)).
Proof.
  unfold ws_init. cbv zeta.
  generalize (session_vehicle data) (Scenario_from_json scenario_json).
  intros vo scn H.
  destruct (reset (new_sim (fst vo) scn)) as [sim1|] eqn:E1;
    [|discriminate H].
  cbn [bind] in H.
  destruct (apply_load (Sim.veh sim1, snd vo) 10 0.70) as [vo1|] eqn:E2;
    [|discriminate H].
  cbn [bind] in H.
  destruct (reset (set_veh sim1 (fst vo1))) as [sim2|] eqn:E3;
    [|discriminate H].
  cbn [bind] in H. injection H as <-.
  apply reset_config in E1. destruct E1 as (Hv1 & _).
  apply apply_load_table in E2. destruct E2 as (Ea & En & _).
  apply reset_config in E3. destruct E3 as (Hv3 & _).
  change (Vehicle.notch_accels (Sim.veh sim2) = Vehicle.notch_accels (fst vo)
          /\ Vehicle.notches (Sim.veh sim2) = Vehicle.notches (fst vo)).
  rewrite Hv3.
  change (Sim.veh (set_veh sim1 (fst vo1))) with (fst vo1).
  change (fst (Sim.veh sim1, snd vo)) with (Sim.veh sim1) in Ea, En.
  rewrite Ea, En, Hv1. split; reflexivity.
Qed.

(** X27.  The vehicle of a session, whatever the vehicle file holds: the
    notch table is the table of the file reversed (the default table when
    the file has none), so the first entry of the file is the last notch
    and the last entry of the file is notch 0, and the number of notches is
    the length of the table; the member "notches" of the file is not used.
    The set-up of the connection hands the simulator a vehicle with that
    table and that number of notches. *)
Theorem session_vehicle_notch_table (data : VehicleJson.VehicleJson) :
  let table :=
    get (VehicleJson.notch_accels data)
      [-1.5; -1.10; -0.95; -0.80; -0.65; -0.50; -0.35; -0.20; 0.0] in
  let veh := fst (session_vehicle data) in
  Vehicle.notch_accels veh = rev table
  /\ Vehicle.notches veh = len table
  /\ len (Vehicle.notch_accels veh) = Vehicle.notches veh
  /\ (forall i : nat,
        (i < List.length table)%nat ->
        nth i (Vehicle.notch_accels veh) 0
        = nth (List.length table - S i) table 0)
  /\ (forall (scenario_json : ScenarioJson.ScenarioJson) (ses : Session),
        ws_init data scenario_json = Some ses ->
        Vehicle.notch_accels (Sim.veh (ses_sim ses)) = rev table
        /\ Vehicle.notches (Sim.veh (ses_sim ses)) = len table).
Proof.
  cbv zeta.
  set (table := get (VehicleJson.notch_accels data) _).
  assert (Ht : Vehicle.notch_accels (fst (Vehicle_from_json data)) = table).
  { unfold Vehicle_from_json. cbv zeta.
    rewrite (proj1 (recompute_davis_table _ _)). reflexivity. }
  assert (H1 : Vehicle.notch_accels (fst (session_vehicle data)) = rev table
               /\ Vehicle.notches (fst (session_vehicle data)) = len table).
  { unfold session_vehicle. cbv zeta.
    cbn [fst set_notch_table Vehicle.notch_accels Vehicle.notches].
    rewrite Ht. unfold len. rewrite length_rev. auto. }
  destruct H1 as [Ha Hn].
  split; [exact Ha|]. split; [exact Hn|].
  split; [rewrite Ha, Hn; unfold len; rewrite length_rev; reflexivity|].
  split; [intros i Hi; rewrite Ha; apply rev_nth; exact Hi|].
  intros sj ses H.
  destruct (ws_init_vehicle data sj ses H) as [-> ->]. auto.
Qed.

(** ** Calibration table *)

Lemma calib_loop_spec (points : list CalibInput) (acc : list CalibPoint) :
  exists (good bad : list CalibInput) (table : list CalibPoint),
    points = good ++ bad
    /\ map calib_point good = map Some table
    /\ match bad with
       | [] => True
       | p :: _ => calib_point p = None
       end
    /\ calib_loop points acc
       = (acc ++ table, match bad with [] => false | _ :: _ => true end).
Proof.
  revert acc. induction points as [|p ps IH]; intro acc.
  - exists [], [], []. cbn. rewrite app_nil_r. auto.
  - cbn [calib_loop]. destruct (calib_point p) as [c|] eqn:Ep.
    + destruct (IH (acc ++ [c])) as (good & bad & table & Hp & Hm & Hb & He).
      exists (p :: good), bad, (c :: table).
      split; [rewrite Hp; reflexivity|].
      split; [cbn [map]; rewrite Ep, Hm; reflexivity|].
      split; [exact Hb|].
      rewrite He, <- app_assoc. reflexivity.
    + exists [], (p :: ps), []. cbn. rewrite app_nil_r. auto.
Qed.

(** X28.  [set_timer_calibration] replaces the calibration table by the
    points of its argument, in order, up to the first point on which one of
    the three reads raises; a read raises when the member is missing under
    both of its names, and also when it is zero under the first name and
    missing under the second.  When no read raises the method returns, and
    each of the four optional parameters that is given replaces its
    attribute; otherwise it raises at that point, leaving the table cut
    there and the four attributes as they were. *)
Theorem set_timer_calibration_replaces (sim : Sim) (points : list CalibInput)
    (norm_v norm_L idw_power blend_threshold : option Q) :
  let tm := Sim.timer sim in
  let result :=
    set_timer_calibration sim points norm_v norm_L idw_power blend_threshold in
  (forall p : CalibInput,
     ci_v p = Some 0 -> ci_v_kmh p = None -> calib_point p = None)
  /\ exists (good bad : list CalibInput) (table : list CalibPoint),
       points = good ++ bad
       /\ map calib_point good = map Some table
       /\ match bad with
          | [] =>
              result
              = Returned
                  (set_timer sim
                     (set_timer_calib_fields tm table
                        (get idw_power (Timer.timer_idw_power tm))
                        (get norm_v (Timer.timer_norm_v tm))
                        (get norm_L (Timer.timer_norm_L tm))
                        (get blend_threshold (Timer.timer_blend_threshold tm))))
          | p :: _ =>
              calib_point p = None
              /\ result
                 = Raised
                     (set_timer sim
                        (set_timer_calib_fields tm table
                           (Timer.timer_idw_power tm) (Timer.timer_norm_v tm)
                           (Timer.timer_norm_L tm)
                           (Timer.timer_blend_threshold tm)))
          end.
Proof.
  cbv zeta. split.
  - intros p Hv Hk. unfold calib_point, py_or. rewrite Hv, Hk. reflexivity.
  - destruct (calib_loop_spec points [])
      as (good & bad & table & Hp & Hm & Hb & He).
    exists good, bad, table. split; [exact Hp|]. split; [exact Hm|].
    unfold set_timer_calibration. cbv zeta. rewrite He. cbn [app].
    destruct bad as [|p bad]; [reflexivity|]. split; [exact Hb | reflexivity].
Qed.

(** ** Handlers of the session *)

Lemma clamp_bounds (lo hi x : Q) :
  lo <= hi ->
  lo <= py_max lo (py_min hi x) /\ py_max lo (py_min hi x) <= hi
  /\ (lo <= x -> x <= hi -> py_max lo (py_min hi x) == x).
Proof.
  intro H.
  destruct (py_min_cases hi x) as [[H1 ->]|[H1 ->]];
    match goal with
    | |- context [py_max ?a ?b] =>
        destruct (py_max_cases a b) as [[H2 ->]|[H2 ->]]
    end; repeat split; intros; lra.
Qed.

(** X29.  "setInitial" with a speed and a distance: the speed is clamped to
    [[0, 300]] km/h and the distance to [[150, 60000]] m (values inside the
    ranges are taken as they are), the scenario gets the clamped speed in
    m/s and the clamped distance, and the simulator is reset: the train
    stands at position 0 with the speed kept as the planned speed.  A
    "start" that follows puts the train in motion at that speed, running,
    with the whole distance ahead. *)
Theorem set_initial_clamps (sim sim1 : Sim) (speed dist : Q)
    (grade mu : option Q) (random_mode : option bool) :
  on_setInitial sim (Some speed) (Some dist) grade mu random_mode
  = Some sim1 ->
  let v_kmh := py_max 0 (py_min 300.0 speed) in
  let L_m := py_max 150.0 (py_min 60000.0 dist) in
  (0 <= v_kmh /\ v_kmh <= 300.0 /\ (0 <= speed -> speed <= 300.0 -> v_kmh == speed))
  /\ (150.0 <= L_m /\ L_m <= 60000.0
      /\ (150.0 <= dist -> dist <= 60000.0 -> L_m == dist))
  /\ Scenario.v0 (Sim.scn sim1) = v_kmh / 3.6
  /\ Scenario.L (Sim.scn sim1) = L_m
  /\ State.v (Sim.state sim1) = 0.0
  /\ State.s (Sim.state sim1) = 0.0
  /\ Sim._planned_v0 sim1 = v_kmh / 3.6
  /\ (forall sim2 : Sim,
        on_start sim1 = Some sim2 ->
        State.v (Sim.state sim2) = v_kmh / 3.6
        /\ State.s (Sim.state sim2) = 0.0
        /\ Scenario.L (Sim.scn sim2) = L_m
        /\ Sim.running sim2 = true
        /\ State.finished (Sim.state sim2) = false
        /\ RunEval.run_over (Sim.ev sim2) = false).
Proof.
  unfold on_setInitial. cbv zeta. intro H.
  destruct (reset_inv _ _ H) as (b & _ & ->).
  split; [apply (clamp_bounds 0 300.0 speed); lra|].
  split; [apply (clamp_bounds 150.0 60000.0 dist); lra|].
  repeat (split; [reflexivity|]).
  intros sim2 H2. unfold on_start, start in H2.
  bind_inv H2. bind_inv Hx. injection Hx as <-. injection H2 as <-.
  destruct (reset_inv _ _ Hx0) as (b' & _ & ->).
  repeat split; reflexivity.
Qed.


(** X30.  "advanceStation".  In normal mode on an unfinished run the
    command is ignored.  Otherwise, when it succeeds, the train keeps its
    position and the new end of the section is placed so that the remaining
    distance is the requested one clamped to [[150, 60000]] m (600 m when
    none is given); the train stands still and unfinished at clock 0 with
    an empty queue, the simulation runs, the obstacle flag is cleared, and
    the lever holds the last notch of the history of the previous run (the
    final notch of a finished run, or the present lever, when the history is
    empty) without the cap below the emergency notch that a reset applies. *)
Theorem advance_station_keeps_position (sim sim1 : Sim)
    (dist grade mu : option Q) :
  on_advanceStation sim dist grade mu = Some sim1 ->
  (Sim.random_mode sim = false ->
   State.finished (Sim.state sim) = false -> sim1 = sim)
  /\ (Sim.random_mode sim = true \/ State.finished (Sim.state sim) = true ->
      let d := py_max 150.0 (py_min 60000.0 (get dist 600.0)) in
      let st1 := Sim.state sim1 in
      State.s st1 = State.s (Sim.state sim)
      /\ Scenario.L (Sim.scn sim1) = State.s st1 + d
      /\ (150.0 <= d /\ d <= 60000.0)
      /\ State.v st1 = 0.0 /\ State.a st1 = 0.0 /\ State.t st1 = 0.0
      /\ State.finished st1 = false
      /\ Sim.running sim1 = true
      /\ RunEval.run_over (Sim.ev sim1) = false
      /\ Sim._cmd_queue sim1 = []
      /\ State.lever_notch st1
         = match py_last (RunEval.notch_history (Sim.ev sim)) with
           | Some n => n
           | None =>
               if State.finished (Sim.state sim)
               then Sim.final_notch_on_finish sim
               else State.lever_notch (Sim.state sim)
           end).
Proof.
  unfold on_advanceStation. cbv zeta. intro H. split.
  - intros Hr Hf. rewrite Hr, Hf in H. cbn [negb andb] in H.
    injection H as <-. reflexivity.
  - intro Hc.
    assert (E : negb (Sim.random_mode sim)
                && negb (State.finished (Sim.state sim)) = false).
    { destruct Hc as [-> | ->]; [reflexivity | apply andb_false_r]. }
    rewrite E in H. bind_inv H. injection H as <-.
    destruct (reset_inv _ _ Hx) as (b & _ & ->).
    cbn [Sim.state Sim.scn Sim.running Sim.ev Sim._cmd_queue set_state
         set_scn set_running set_ev set_brk set_run_over reset_to
         State.s State.v State.a State.t State.finished State.lever_notch
         Scenario.L RunEval.run_over].
    split; [reflexivity|]. split; [reflexivity|].
    split; [split; apply (clamp_bounds 150.0 60000.0); lra|].
    repeat split; reflexivity.
Qed.
End Engine.

(** * The properties on the sample states *)

(** A closed comparison, by evaluation. *)
Ltac by_eval := vm_compute; first [reflexivity | discriminate].

(** ** Ticks and velocity *)

Lemma step_velocity_nonneg_witness :
  step pow_unused (sim_running 0 0 false)
  = Some (after_step pow_unused (sim_running 0 0 false))
  /\ 0 <= State.v (Sim.state (after_step pow_unused (sim_running 0 0 false))).
Proof.
  assert (H : step pow_unused (sim_running 0 0 false)
              = Some (after_step pow_unused (sim_running 0 0 false)))
    by (vm_compute; reflexivity).
  split; [exact H|].
  exact (step_velocity_nonneg pow_unused _ _ H).
Defined.

(** ** Final score *)

Lemma final_score_normalized_witness :
  step pow_unused sim_stopping = Some (after_step pow_unused sim_stopping)
  /\ State.finished (Sim.state sim_stopping) = false
  /\ State.finished (Sim.state (after_step pow_unused sim_stopping)) = true
  /\ exists score : Z,
       State.score (Sim.state (after_step pow_unused sim_stopping))
       = Some score
       /\ (0 <= score <= 100)%Z.
Proof.
  assert (H : step pow_unused sim_stopping
              = Some (after_step pow_unused sim_stopping))
    by (vm_compute; reflexivity).
  assert (H0 : State.finished (Sim.state sim_stopping) = false)
    by reflexivity.
  assert (H1 : State.finished (Sim.state (after_step pow_unused sim_stopping))
               = true)
    by (vm_compute; reflexivity).
  split; [exact H|]. split; [exact H0|]. split; [exact H1|].
  destruct (final_score_normalized pow_unused _ _ H H0 H1)
    as (braked & controlled & before_finish & avg_jerk & jerk_score
        & _ & _ & _ & _ & _ & _ & _ & Hscore & Hrange & _).
  eexists. split; [exact Hscore | exact Hrange].
Defined.

(** The stopping sample earns the full score, the overshoot sample 33. *)
Example score_of_the_samples :
  State.score (Sim.state (after_step pow_unused sim_stopping)) = Some 100%Z
  /\ State.score (Sim.state (after_step pow_unused sim_overshoot)) = Some 33%Z.
Proof. split; vm_compute; reflexivity. Qed.

(** ** Staircase classifier *)

Lemma stair_pattern_needs_five_witness :
  (len (remove_negative_values (remove_adjacent_duplicates [0; 1; 2; 1]%Z)) < 5)%Z
  /\ is_stair_pattern [0; 1; 2; 1]%Z = false.
Proof.
  assert (H : (len (remove_negative_values
                      (remove_adjacent_duplicates [0; 1; 2; 1]%Z)) < 5)%Z)
    by (vm_compute; reflexivity).
  split; [exact H|].
  exact (stair_pattern_needs_five [0; 1; 2; 1]%Z H).
Defined.

(** ** Final-notch comfort rule *)


(** The history recorded by the next tick of the running sample. *)
Example history_records_moving_ticks :
  RunEval.notch_history (Sim.ev (after_step pow_unused (sim_running 2 0 false)))
  = [2%Z]
  /\ RunEval.notch_history
       (Sim.ev (after_step pow_unused
                  (set_state (sim_running 2 0 false)
                     (set_a_v (st_running 2 0 false) 0.0 0.1))))
     = [].
Proof. split; vm_compute; reflexivity. Qed.

(** ** Emergency brake *)

Lemma emergency_brake_immediate_witness :
  let sim := sim_running 3 0 false in
  let sim' := queue_command pow_unused sim "emergencyBrake" 0 in
  0 < State.v (Sim.state sim)
  /\ RunEval.eb_used (Sim.ev sim') = true
  /\ Sim._cmd_queue sim' = []
  /\ State.lever_notch (Sim.state sim') = 8%Z
  /\ Brake._a_cmd_filt (Sim.brk sim') = _effective_brake_accel sim 8 20.0
  /\ Brake.brk_accel (Sim.brk sim') == - 1.5.
Proof.
  intros sim sim'.
  assert (H : 0 < State.v (Sim.state sim)) by (vm_compute; reflexivity).
  destruct (emergency_brake_immediate pow_unused sim 0 H)
    as (H1 & H2 & _ & H4 & _ & _ & H7 & H8).
  split; [exact H|]. split; [exact H1|]. split; [exact H2|].
  split; [exact H4|]. split; [exact H8|].
  apply (Qeq_trans _ _ _ H7). vm_compute. reflexivity.
Defined.

(** ** Reset *)


(** ** Effective notch *)

(** The running sample with the driver on neutral, the controller on B3 and
    no overspeed flag: the tick brakes on B3, and its acceleration is below
    the one of the pipeline run on the driver notch alone; it also differs
    from the tick of the same state with the internal notch on neutral. *)
Lemma tick_brakes_on_internal_notch :
  let sim := sim_running 0 3 false in
  State.atc_overspeed (Sim.state sim) = false
  /\ spec_effective_notch (Sim.state sim) = 0%Z
  /\ match step_dynamics pow_unused sim,
           dynamics_with pow_unused (spec_effective_notch (Sim.state sim))
             (spec_effective_notch (Sim.state sim)) sim,
           step_dynamics pow_unused (sim_running 0 0 false)
     with
     | Some code, Some spec, Some neutral =>
         State.a (Sim.state code) < State.a (Sim.state spec)
         /\ State.a (Sim.state code) < State.a (Sim.state neutral)
     | _, _, _ => False
     end.
Proof.
  split; [reflexivity|]. split; [reflexivity|].
  vm_compute. split; reflexivity.
Qed.

(** ** Jerk score *)

Lemma jerk_score_bands_witness :
  let sim := sim_jerks [15; 18] in
  let w := [15; 18] in
  jerk_window sim = Some w
  /\ w <> []
  /\ exists sc : Q,
       compute_jerk_score sim
       = Some (window_mean w
               * (1 + py_min 1 (inject_Z (window_high_count w) / 10)), sc)
       /\ sc == 500.
Proof.
  intros sim w.
  assert (Hw : jerk_window sim = Some w) by (vm_compute; reflexivity).
  assert (Hne : w <> []) by discriminate.
  destruct (jerk_score_bands sim w Hw Hne) as (sc & Hc & Hband & _).
  split; [exact Hw|]. split; [exact Hne|].
  exists sc. split; [exact Hc|].
  apply Hband; by_eval.
Defined.

(** Two windows.  A single sample of 5 m/s3: the adjusted jerk is below
    the low bound 21.6, and the score is 0, not the maximum.  Two hundred
    samples of which one is above the cutoff, far fewer than a tenth: the
    multiplier 1.1 applies all the same, and moves the adjusted jerk from
    the 500-point band into the linear band. *)
Lemma jerk_score_off_the_bands :
  (let sim := sim_jerks [5] in
   jerk_window sim = Some [5]
   /\ match compute_jerk_score sim with
      | Some (adjusted_jerk, jerk_score) =>
          adjusted_jerk == 5 /\ adjusted_jerk < 21.6 /\ jerk_score == 0
      | None => False
      end)
  /\ (let w := 31 :: repeat (20.95) 199 in
      let sim := sim_jerks w in
      jerk_window sim = Some w
      /\ (len w = 200)%Z /\ window_high_count w = 1%Z
      /\ window_mean w <= 21.6
      /\ match compute_jerk_score sim with
         | Some (adjusted_jerk, jerk_score) =>
             adjusted_jerk == window_mean w * 1.1
             /\ 21.6 < adjusted_jerk /\ jerk_score < 500
         | None => False
         end).
Proof.
  split.
  - split; [vm_compute; reflexivity|].
    vm_compute. repeat split; reflexivity.
  - split; [vm_compute; reflexivity|].
    split; [reflexivity|]. split; [reflexivity|].
    split; [vm_compute; discriminate|].
    vm_compute. repeat split; reflexivity.
Qed.

(** ** Braking command and predicted stopping distance *)

Lemma brake_command_monotone_witness :
  let sim := sim_running 5 0 false in
  (0 < 5)%Z
  /\ (5 + 1 < len (Vehicle.notch_accels (Sim.veh sim)))%Z
  /\ within_adhesion sim 5
  /\ within_adhesion sim (5 + 1)
  /\ table_accel sim (5 + 1) <= table_accel sim 5
  /\ _effective_brake_accel sim (5 + 1) 20.0 <= _effective_brake_accel sim 5 20.0.
Proof.
  intro sim.
  assert (H1 : (0 < 5)%Z) by reflexivity.
  assert (H2 : (5 + 1 < len (Vehicle.notch_accels (Sim.veh sim)))%Z)
    by reflexivity.
  assert (H3 : within_adhesion sim 5) by (vm_compute; reflexivity).
  assert (H4 : within_adhesion sim (5 + 1)) by (vm_compute; reflexivity).
  assert (H5 : table_accel sim (5 + 1) <= table_accel sim 5)
    by (vm_compute; discriminate).
  destruct (brake_command_monotone pow_unused sim 5 20.0 H1 H2 H3)
    as (Hmono & _ & _ & _).
  repeat (split; [assumption|]).
  exact (Hmono H4 H5).
Defined.

(** On the low-adhesion sample B5 and B6 are service notches with ordered
    table values, B6 commands less than B5, and the distance predicted for
    B6 is the longer one. *)
Lemma stronger_notch_predicts_longer :
  let sim := sim_low_adhesion in
  let v := State.v (Sim.state sim) in
  (0 < 5)%Z /\ (6 < Vehicle.notches (Sim.veh sim) - 1)%Z
  /\ table_accel sim 6 < table_accel sim 5
  /\ _effective_brake_accel sim 5 v < _effective_brake_accel sim 6 v
  /\ match _stopping_distance pow_unused sim 5 v,
           _stopping_distance pow_unused sim 6 v with
     | Some (Fin d5), Some (Fin d6) => d5 < d6
     | _, _ => False
     end.
Proof.
  split; [reflexivity|]. split; [reflexivity|].
  split; [vm_compute; reflexivity|]. split; [vm_compute; reflexivity|].
  vm_compute. reflexivity.
Qed.

(** ** Notch bounds *)

Lemma notch_bounds_witness :
  let sim := sim_tasc_cached in
  len (Vehicle.notch_accels (Sim.veh sim)) = Vehicle.notches (Sim.veh sim)
  /\ (2 <= Vehicle.notches (Sim.veh sim))%Z
  /\ step_tasc pow_unused sim = Some (after_tasc pow_unused sim)
  /\ State.internal_notch (Sim.state sim) = 1%Z
  /\ State.internal_notch (Sim.state (after_tasc pow_unused sim)) = 2%Z
  /\ (1 <= State.internal_notch (Sim.state (after_tasc pow_unused sim)) <= 7)%Z
  /\ (-5 <= State.lever_notch
              (Sim.state (_apply_command pow_unused sim
                            (mkCmd 10.0 "stepNotch" 20))) <= 7)%Z.
Proof.
  intro sim.
  assert (H1 : len (Vehicle.notch_accels (Sim.veh sim))
               = Vehicle.notches (Sim.veh sim)) by reflexivity.
  assert (H2 : (2 <= Vehicle.notches (Sim.veh sim))%Z) by (vm_compute; discriminate).
  assert (H3 : step_tasc pow_unused sim = Some (after_tasc pow_unused sim))
    by (vm_compute; reflexivity).
  assert (H4 : State.internal_notch (Sim.state sim) = 1%Z) by reflexivity.
  assert (H5 : State.internal_notch (Sim.state (after_tasc pow_unused sim))
               = 2%Z) by (vm_compute; reflexivity).
  destruct (notch_bounds pow_unused sim H1 H2) as (Hctl & Hcmd & _).
  destruct (Hctl _ H3) as [_ Hin].
  destruct (Hcmd (mkCmd 10.0 "stepNotch" 20)) as (_ & Hrange & _ & _ & _).
  repeat (split; [assumption|]).
  split.
  - destruct Hin as [Heq | Hr].
    + rewrite H4. split; vm_compute; discriminate.
    + rewrite H5 in Heq. rewrite H4 in Heq. discriminate Heq.
    + exact Hr.
  - apply Hrange. left. reflexivity.
Defined.

(** A [setInternalNotch] command for -2 is due; the tick applies it, and
    the controller, in its build phase, then writes -1: a traction notch,
    outside [[1, notches - 2]]. *)
Lemma controller_writes_traction_notch :
  let sim := sim_internal_cmd in
  let drained := drain pow_unused sim (Sim._cmd_queue sim) in
  State.internal_notch (Sim.state sim) = 1%Z
  /\ State.internal_notch (Sim.state drained) = (-2)%Z
  /\ match step_tasc pow_unused drained with
     | Some sim' =>
         State.internal_notch (Sim.state sim') = (-1)%Z
         /\ ~ (1 <= State.internal_notch (Sim.state sim')
               <= Vehicle.notches (Sim.veh sim) - 2)%Z
     | None => False
     end
  /\ match step pow_unused sim with
     | Some sim' => State.internal_notch (Sim.state sim') = (-1)%Z
     | None => False
     end.
Proof.
  split; [reflexivity|]. split; [vm_compute; reflexivity|]. split.
  - vm_compute. split; [reflexivity|]. intros [H _]. apply H. reflexivity.
  - vm_compute. reflexivity.
Qed.

(** * The further properties on the samples *)

(** ** Terms of the acceleration *)

Lemma effective_brake_accel_bounded_witness :
  let sim := sim_low_adhesion in
  0 <= Scenario.mu (Sim.scn sim)
  /\ Forall (fun a => a <= 0) (Vehicle.notch_accels (Sim.veh sim))
  /\ adhesion_cap sim 6 <= _effective_brake_accel sim 6 0.03
  /\ _effective_brake_accel sim 6 0.03 <= 0.
Proof.
  intro sim.
  assert (H1 : 0 <= Scenario.mu (Sim.scn sim)) by by_eval.
  assert (H2 : Forall (fun a => a <= 0) (Vehicle.notch_accels (Sim.veh sim)))
    by (repeat constructor; by_eval).
  split; [exact H1|]. split; [exact H2|].
  exact (effective_brake_accel_bounded sim 6 0.03 H1 H2).
Defined.

Lemma brake_split_lag_no_overshoot_witness :
  0 <= 0.005 /\ 0.005 <= 0.15
  /\ between 0.0 (-0.5 * _blend_w_regen 10.0)
       (fst (brake_split_lag 0.0 0.0 (-0.5) 10.0 false 0.005))
  /\ between 0.0 (-0.5 * (1.0 - _blend_w_regen 10.0))
       (snd (brake_split_lag 0.0 0.0 (-0.5) 10.0 false 0.005)).
Proof.
  assert (H1 : 0 <= 0.005) by by_eval.
  assert (H2 : 0.005 <= 0.15) by by_eval.
  split; [exact H1|]. split; [exact H2|].
  exact (brake_split_lag_no_overshoot 0.0 0.0 (-0.5) 10.0 false 0.005 H1 H2).
Defined.

Lemma davis_accel_resists_witness :
  let sim := sim_running 0 0 false in
  0 <= Vehicle.A0 (Sim.veh sim)
  /\ 0 <= Vehicle.B1 (Sim.veh sim)
  /\ 0 <= Vehicle.C2 (Sim.veh sim)
  /\ 0 <= Brake.rr_factor (Sim.brk sim)
  /\ 0 < Vehicle.mass_kg (Sim.veh sim)
  /\ exists a : Q, _davis_accel sim 20.0 = Some a /\ a <= 0.
Proof.
  intro sim.
  assert (H1 : 0 <= Vehicle.A0 (Sim.veh sim)) by by_eval.
  assert (H2 : 0 <= Vehicle.B1 (Sim.veh sim)) by by_eval.
  assert (H3 : 0 <= Vehicle.C2 (Sim.veh sim)) by by_eval.
  assert (H4 : 0 <= Brake.rr_factor (Sim.brk sim)) by by_eval.
  assert (H5 : 0 < Vehicle.mass_kg (Sim.veh sim)) by by_eval.
  split; [exact H1|]. split; [exact H2|]. split; [exact H3|].
  split; [exact H4|]. split; [exact H5|].
  destruct (davis_accel_resists sim 20.0 H1 H2 H3 H4) as [Hpos _].
  destruct (Hpos H5) as (a & Ha & Hle & _).
  exists a. split; [exact Ha | exact Hle].
Defined.

Lemma power_accel_legacy_bounds_witness :
  let sim := sim_running (-2) 0 false in
  let fwd := Vehicle.forward_notch_accels (Sim.veh sim) in
  (Vehicle.T_max_kN (Sim.veh sim) <= 0 \/ Vehicle.P_max_kW (Sim.veh sim) <= 0)
  /\ fwd <> []
  /\ Forall (fun a => 0 <= a) fwd
  /\ exists a : Q,
       compute_power_accel pow_unused sim (-2) 20.0 = Some a
       /\ 0.0003 * 0.287 <= a /\ a <= 0.287.
Proof.
  intros sim fwd.
  assert (H1 : Vehicle.T_max_kN (Sim.veh sim) <= 0
               \/ Vehicle.P_max_kW (Sim.veh sim) <= 0) by (left; by_eval).
  assert (H2 : fwd <> []) by discriminate.
  assert (H3 : Forall (fun a => 0 <= a) fwd) by (repeat constructor; by_eval).
  split; [exact H1|]. split; [exact H2|]. split; [exact H3|].
  destruct (power_accel_legacy_bounds pow_unused sim (-2) 20.0 H1 H2 H3)
    as [_ Hneg].
  destruct Hneg as (a & Ha & Hlo & Hhi); [reflexivity|].
  exists a. split; [exact Ha|]. split; [exact Hlo | exact Hhi].
Defined.

Lemma power_accel_physical_bounds_witness :
  let veh := Sim.veh sim_powered in
  (-3 < 0)%Z
  /\ 0 < Vehicle.T_max_kN veh
  /\ 0 < Vehicle.P_max_kW veh
  /\ 0 < Vehicle.mass_kg veh
  /\ 0 < Vehicle.a_max veh
  /\ exists a : Q,
       compute_power_accel pow_unused sim_powered (-3) 20.0 = Some a
       /\ 0 <= a /\ a <= Vehicle.a_max veh.
Proof.
  intro veh.
  assert (H0 : (-3 < 0)%Z) by reflexivity.
  assert (H1 : 0 < Vehicle.T_max_kN veh) by by_eval.
  assert (H2 : 0 < Vehicle.P_max_kW veh) by by_eval.
  assert (H3 : 0 < Vehicle.mass_kg veh) by by_eval.
  assert (H4 : 0 < Vehicle.a_max veh) by by_eval.
  split; [exact H0|]. split; [exact H1|]. split; [exact H2|].
  split; [exact H3|]. split; [exact H4|].
  exact (power_accel_physical_bounds pow_unused sim_powered (-3) 20.0
           H0 H1 H2 H3 H4).
Defined.

(** ** One tick *)

Lemma step_lever_only_by_commands_witness :
  let sim := sim_stopping in
  let sim' := after_step pow_unused sim in
  step pow_unused sim = Some sim'
  /\ lever_view sim' = lever_view sim.
Proof.
  intros sim sim'.
  assert (H : step pow_unused sim = Some sim') by (vm_compute; reflexivity).
  split; [exact H|].
  destruct (step_lever_only_by_commands pow_unused sim sim' H) as [_ Hq].
  apply Hq. exact I.
Defined.

Lemma step_never_clears_flags_witness :
  let sim := sim_stopping in
  let sim' := after_step pow_unused sim in
  step pow_unused sim = Some sim' /\ flags_kept sim sim'.
Proof.
  intros sim sim'.
  assert (H : step pow_unused sim = Some sim') by (vm_compute; reflexivity).
  split; [exact H|].
  exact (step_never_clears_flags pow_unused sim sim' H).
Defined.

Lemma step_jerk_limited_witness :
  let sim := sim_running 3 0 false in
  let sim' := after_step pow_unused sim in
  let dt := Scenario.dt (Sim.scn sim) in
  step pow_unused sim = Some sim'
  /\ State.finished (Sim.state sim) = false
  /\ 0 <= dt
  /\ 0 <= Vehicle.j_max (Sim.veh sim)
  /\ 0 <= State.v (Sim.state sim)
  /\ Qabs (State.a (Sim.state sim') - State.a (Sim.state sim))
     <= Vehicle.j_max (Sim.veh sim) * dt
  /\ State.t (Sim.state sim') = State.t (Sim.state sim) + dt.
Proof.
  intros sim sim' dt.
  assert (H : step pow_unused sim = Some sim') by (vm_compute; reflexivity).
  assert (H0 : State.finished (Sim.state sim) = false) by reflexivity.
  assert (H1 : 0 <= dt) by by_eval.
  assert (H2 : 0 <= Vehicle.j_max (Sim.veh sim)) by by_eval.
  assert (H3 : 0 <= State.v (Sim.state sim)) by by_eval.
  split; [exact H|]. split; [exact H0|]. split; [exact H1|].
  split; [exact H2|]. split; [exact H3|].
  destruct (step_jerk_limited pow_unused sim sim' H H0 H1 H2 H3)
    as (Hj & Ht & _).
  split; [exact Hj | exact Ht].
Defined.

Lemma step_finished_frozen_witness :
  let sim := after_step pow_unused sim_stopping in
  State.finished (Sim.state sim) = true
  /\ exists sim' : Sim,
       step pow_unused sim = Some sim'
       /\ State.finished (Sim.state sim') = true
       /\ State.s (Sim.state sim') = State.s (Sim.state sim)
       /\ State.score (Sim.state sim') = State.score (Sim.state sim).
Proof.
  intro sim.
  assert (H : State.finished (Sim.state sim) = true)
    by (vm_compute; reflexivity).
  split; [exact H|].
  destruct (step_finished_frozen pow_unused sim H)
    as (sim' & Hs & (Hf & _ & Hpos & _ & _ & _ & _ & Hsc) & _).
  exists sim'. split; [exact Hs|]. split; [exact Hf|].
  split; [exact Hpos | exact Hsc].
Defined.

Lemma step_finish_condition_witness :
  let sim := sim_stopping in
  let sim' := after_step pow_unused sim in
  let rem := Scenario.L (Sim.scn sim) - State.s (Sim.state sim') in
  step pow_unused sim = Some sim'
  /\ State.finished (Sim.state sim) = false
  /\ (State.finished (Sim.state sim') = true
      <-> rem <= - 5.0 \/ (rem <= 1.0 /\ State.v (Sim.state sim') <= 0.0)).
Proof.
  intros sim sim' rem.
  assert (H : step pow_unused sim = Some sim') by (vm_compute; reflexivity).
  assert (H0 : State.finished (Sim.state sim) = false) by reflexivity.
  split; [exact H|]. split; [exact H0|].
  exact (proj1 (step_finish_condition pow_unused sim sim' H H0)).
Defined.

(** ** Several ticks *)

Lemma run_clock_and_countdown_witness :
  let sim := sim_running 3 0 false in
  let sim' := after_step pow_unused sim in
  run pow_unused 1 sim = Some sim'
  /\ State.time_budget_s (Sim.state sim') = State.time_budget_s (Sim.state sim)
  /\ State.timer_enabled (Sim.state sim') = State.timer_enabled (Sim.state sim).
Proof.
  intros sim sim'.
  assert (H : run pow_unused 1 sim = Some sim') by (vm_compute; reflexivity).
  split; [exact H|].
  destruct (run_clock_and_countdown pow_unused 1 sim sim' H)
    as (_ & _ & Hb & He).
  split; [exact Hb | exact He].
Defined.

Lemma run_total_witness :
  let sim := sim_stopping in
  veh_ok (Sim.veh sim)
  /\ ~ Scenario.dt (Sim.scn sim) == 0
  /\ bookkeeping_ok sim
  /\ exists sim' : Sim, run pow_unused 3 sim = Some sim'.
Proof.
  intro sim.
  assert (H1 : veh_ok (Sim.veh sim)) by (split; discriminate).
  assert (H2 : ~ Scenario.dt (Sim.scn sim) == 0) by discriminate.
  assert (H3 : bookkeeping_ok sim) by (intros _; discriminate).
  split; [exact H1|]. split; [exact H2|]. split; [exact H3|].
  exact (run_total pow_unused 3 sim H1 H2 H3).
Defined.

Lemma run_keeps_internal_range_witness :
  let sim := sim_running 3 2 false in
  let sim' := after_step pow_unused sim in
  len (Vehicle.notch_accels (Sim.veh sim)) = Vehicle.notches (Sim.veh sim)
  /\ (2 <= Vehicle.notches (Sim.veh sim))%Z
  /\ no_internal_cmd (Sim._cmd_queue sim)
  /\ internal_in_range sim
  /\ run pow_unused 1 sim = Some sim'
  /\ internal_in_range sim'.
Proof.
  intros sim sim'.
  assert (H1 : len (Vehicle.notch_accels (Sim.veh sim))
               = Vehicle.notches (Sim.veh sim)) by reflexivity.
  assert (H2 : (2 <= Vehicle.notches (Sim.veh sim))%Z) by (vm_compute; discriminate).
  assert (H3 : no_internal_cmd (Sim._cmd_queue sim)) by constructor.
  assert (H4 : internal_in_range sim) by (split; vm_compute; discriminate).
  assert (H5 : run pow_unused 1 sim = Some sim') by (vm_compute; reflexivity).
  split; [exact H1|]. split; [exact H2|]. split; [exact H3|].
  split; [exact H4|]. split; [exact H5|].
  exact (proj1 (run_keeps_internal_range pow_unused 1 sim sim'
                  H1 H2 H3 H4 H5)).
Defined.

(** ** Prediction cache *)


(** ** Timer *)

Lemma reset_budget_within_limits_witness :
  let sim := sim_timed in
  let sim1 := after_reset pow_one sim in
  reset pow_one sim = Some sim1
  /\ State.timer_enabled (Sim.state sim) = true
  /\ Timer.timer_calib (Sim.timer sim) <> []
  /\ Timer.timer_min_s (Sim.timer sim) <= State.time_budget_s (Sim.state sim1)
  /\ State.time_remaining_s (Sim.state sim1)
     = State.time_budget_s (Sim.state sim1).
Proof.
  intros sim sim1.
  assert (H : reset pow_one sim = Some sim1) by (vm_compute; reflexivity).
  assert (H1 : State.timer_enabled (Sim.state sim) = true) by reflexivity.
  assert (H2 : Timer.timer_calib (Sim.timer sim) <> []) by discriminate.
  split; [exact H|]. split; [exact H1|]. split; [exact H2|].
  destruct (reset_budget_within_limits pow_one sim sim1 H H1 H2)
    as (Hmin & _ & Hrem & _).
  split; [exact Hmin | exact Hrem].
Defined.

Lemma time_budget_table_nearest_witness :
  let sim := sim_timer_table in
  State.timer_enabled (Sim.state sim) = true
  /\ Timer.timer_calib (Sim.timer sim) = []
  /\ Timer.timer_use_table (Sim.timer sim) = true
  /\ Timer.timer_table (Sim.timer sim) <> []
  /\ exists (l1 l2 : list (Z * Q)) (k : Z) (t : Q),
       Timer.timer_table (Sim.timer sim) = l1 ++ (k, t) :: l2
       /\ _compute_time_budget pow_unused sim = Some t.
Proof.
  intro sim.
  assert (H1 : State.timer_enabled (Sim.state sim) = true) by reflexivity.
  assert (H2 : Timer.timer_calib (Sim.timer sim) = []) by reflexivity.
  assert (H3 : Timer.timer_use_table (Sim.timer sim) = true) by reflexivity.
  assert (H4 : Timer.timer_table (Sim.timer sim) <> []) by discriminate.
  split; [exact H1|]. split; [exact H2|]. split; [exact H3|].
  split; [exact H4|].
  destruct (time_budget_table_nearest pow_unused sim H1 H2 H3 H4)
    as (l1 & l2 & k & t & Ht & Hb & _).
  exists l1, l2, k, t. split; [exact Ht | exact Hb].
Defined.

(** ** Commands *)

Lemma notch_command_latency_witness :
  let sim := sim_running 0 0 false in
  let cmd := mkCmd (5.0 + 0.150) "setNotch" 3 in
  ("setNotch"%string = "stepNotch"%string
   \/ "setNotch"%string = "setNotch"%string
   \/ "setNotch"%string = "release"%string)
  /\ 0.05 < State.v (Sim.state sim)
  /\ queue_command pow_unused sim "setNotch" 3
     = set_cmd_queue sim (Sim._cmd_queue sim ++ [cmd]).
Proof.
  intros sim cmd.
  assert (H : "setNotch"%string = "stepNotch"%string
              \/ "setNotch"%string = "setNotch"%string
              \/ "setNotch"%string = "release"%string)
    by (right; left; reflexivity).
  assert (Hv : 0.05 < State.v (Sim.state sim)) by by_eval.
  split; [exact H|]. split; [exact Hv|].
  destruct (notch_command_latency pow_unused sim "setNotch" 3 H) as [_ Hq].
  exact (proj1 (Hq Hv)).
Defined.

(** ** Session *)

Lemma apply_load_well_formed_witness :
  let vo := session_vehicle json_empty in
  0 < Davis.mass_t (snd vo)
  /\ (0 < 10)%Z
  /\ 0 <= 0.70
  /\ 0 <= Davis.davis_k0 (snd vo)
  /\ 0 <= Davis.davis_B1_ref (snd vo)
  /\ 0 <= Davis.rho_air (snd vo)
  /\ exists vo' : vehicle_obj,
       apply_load vo 10 0.70 = Some vo'
       /\ 0 < Vehicle.mass_kg (fst vo')
       /\ apply_load vo' 10 0.70 = Some vo'.
Proof.
  intro vo.
  assert (H1 : 0 < Davis.mass_t (snd vo)) by by_eval.
  assert (H2 : (0 < 10)%Z) by reflexivity.
  assert (H3 : 0 <= 0.70) by by_eval.
  assert (H4 : 0 <= Davis.davis_k0 (snd vo)) by by_eval.
  assert (H5 : 0 <= Davis.davis_B1_ref (snd vo)) by by_eval.
  assert (H6 : 0 <= Davis.rho_air (snd vo)) by by_eval.
  split; [exact H1|]. split; [exact H2|]. split; [exact H3|].
  split; [exact H4|]. split; [exact H5|]. split; [exact H6|].
  destruct (apply_load_well_formed vo 10 0.70 H1 H2 H3 H4 H5 H6)
    as (vo' & Hl & _ & Hm & _ & _ & _ & _ & Hi).
  exists vo'. split; [exact Hl|]. split; [exact Hm | exact Hi].
Defined.

Lemma set_initial_clamps_witness :
  let sim := sim_running 0 0 false in
  let sim1 := after_setInitial pow_unused sim 400.0 100.0 in
  on_setInitial pow_unused sim (Some 400.0) (Some 100.0) None None None
  = Some sim1
  /\ Scenario.v0 (Sim.scn sim1) = py_max 0 (py_min 300.0 400.0) / 3.6
  /\ Scenario.L (Sim.scn sim1) = py_max 150.0 (py_min 60000.0 100.0)
  /\ State.v (Sim.state sim1) = 0.0.
Proof.
  intros sim sim1.
  assert (H : on_setInitial pow_unused sim (Some 400.0) (Some 100.0)
                None None None = Some sim1) by (vm_compute; reflexivity).
  split; [exact H|].
  destruct (set_initial_clamps pow_unused sim sim1 400.0 100.0 None None None H)
    as (_ & _ & Hv0 & HL & Hv & _).
  split; [exact Hv0|]. split; [exact HL | exact Hv].
Defined.

Lemma advance_station_keeps_position_witness :
  let sim := after_step pow_unused sim_stopping in
  let sim1 := after_advanceStation pow_unused sim in
  on_advanceStation pow_unused sim None None None = Some sim1
  /\ State.finished (Sim.state sim) = true
  /\ State.s (Sim.state sim1) = State.s (Sim.state sim)
  /\ Scenario.L (Sim.scn sim1)
     = State.s (Sim.state sim1) + py_max 150.0 (py_min 60000.0 600.0)
  /\ State.finished (Sim.state sim1) = false.
Proof.
  intros sim sim1.
  assert (H : on_advanceStation pow_unused sim None None None = Some sim1)
    by (vm_compute; reflexivity).
  assert (Hf : State.finished (Sim.state sim) = true)
    by (vm_compute; reflexivity).
  split; [exact H|]. split; [exact Hf|].
  destruct (advance_station_keeps_position pow_unused sim sim1
              None None None H) as [_ Hadv].
  destruct (Hadv (or_intror Hf))
    as (Hs & HL & _ & _ & _ & _ & Hfin & _).
  split; [exact Hs|]. split; [exact HL | exact Hfin].
Defined.
